(** * Auto-Eval-ai: document rectification and segmentation core

    A shallow embedding of the alignment and segmentation code of
    [Models/Segment.py], [Alignment/train.py] and [Alignment/model.py].

    Conventions of the embedding.
    - Pixel coordinates, image sizes and counts are [Z] (or [nat] for list
      positions).
    - Python floats and numpy float arrays are idealised as real numbers
      ([R]); rounding error, NaN and signed zeros are outside the model.
    - numpy / OpenCV / scikit-image primitives that work on pixel data are
      taken as operations of an interface record; what the Python code does
      around them (branching, arithmetic on boxes, thresholds, bookkeeping)
      is written out definition by definition. *)

From Stdlib Require Import String Ascii DecimalString.
From Stdlib Require Import ZArith List Bool Lia Permutation Sorted.
From Stdlib Require Import QArith Qround.
From Stdlib Require Import Reals Lra Psatz.
Import ListNotations.

Set Implicit Arguments.

(* ================================================================== *)
(** * Part I: the program *)
(* ================================================================== *)

(** ** Python results *)

Module Py.
(** The exceptions the modelled code raises, with their messages. *)
Inductive error : Type :=
| ValueError (msg : string)
| RuntimeError (msg : string)
| Exception (msg : string).

(** A call either returns a value or raises. *)
Inductive outcome (A : Type) : Type :=
| Ok (a : A)
| Raised (e : error).
Arguments Ok {A} a.
Arguments Raised {A} e.
End Py.

(** ** Corner canonicalisation: [order_points] (Segment.py) and
       [order_corners] (train.py) *)

Module Corners.
Local Open Scope Z_scope.

(** The element type of the array [pts].  [order_points] gets the int32
    vertices of a contour (Segment.py 343-344, 612-613) and the float32 corners
    that [cv2.boxPoints] returns (632-633); [order_corners] gets float32
    corners throughout (train.py 81-89, 152-162, 174-175), among them
    intersections of lines, which do not fall on whole pixels. *)
Inductive dtype : Type :=
| int32
| float32.

(** A row of a numpy array of shape (n,2): [x, y].  A coordinate is held
    as an integer: for [int32] the pixel number itself; for [float32] the
    value in units of 2^-149, the least positive float32, of which every
    finite float32 is a whole multiple. *)
Definition point : Type := (Z * Z)%type.

(** A whole number of pixels as a float32 coordinate. *)
Definition px (n : Z) : Z := n * 2 ^ 149.

(** The result of an int32 subtraction: the exact result wrapped to 32
    bits. *)
Definition wrap_int32 (z : Z) : Z := (z + 2 ^ 31) mod 2 ^ 32 - 2 ^ 31.

(** The result of a float32 addition or subtraction whose exact result is
    [z] (in units of 2^-149): [z] rounded to 24 significant bits, ties to
    even.  A result of magnitude 2^128 or more is an infinity, held as
    2^128 (that is 2^277 units) with its sign, beyond every finite
    float32.  Two finite operands never give a NaN. *)
Definition FLOAT32_INF : Z := 2 ^ 277.

Definition round_float32 (z : Z) : Z :=
  let a := Z.abs z in
  let e := Z.log2 a - 23 in
  if e <=? 0 then z
  else
    let q := Z.shiftr a e in
    let r := Z.land a (Z.ones e) in
    let half := Z.shiftl 1 (e - 1) in
    let q' := if ((half <? r) || ((r =? half) && Z.odd q))%bool
              then q + 1 else q in
    let m := Z.shiftl q' e in
    Z.sgn z * (if FLOAT32_INF <=? m then FLOAT32_INF else m).

(** [pts.sum(axis=1)]: x + y of every row, in the dtype of the result.
    numpy adds up int32 in the default integer type, of 64 bits, where two
    int32 never overflow; float32 is added in float32. *)
Definition ksum (d : dtype) (p : point) : Z :=
  match d with
  | int32 => fst p + snd p
  | float32 => round_float32 (fst p + snd p)
  end.
Definition sum_axis1 (d : dtype) (pts : list point) : list Z :=
  map (ksum d) pts.

(** [np.diff(pts, axis=1)] (flattened): second column minus first, y - x,
    in the dtype of [pts]. *)
Definition kdiff (d : dtype) (p : point) : Z :=
  match d with
  | int32 => wrap_int32 (snd p - fst p)
  | float32 => round_float32 (snd p - fst p)
  end.
Definition diff_axis1 (d : dtype) (pts : list point) : list Z :=
  map (kdiff d) pts.

(** [np.argmin]: the position of the first occurrence of the minimum.
    [best] is the least value seen so far, at position [besti]; [i] is the
    position of the head of [l]. *)
Fixpoint argmin_from (best : Z) (besti i : nat) (l : list Z) : nat :=
  match l with
  | [] => besti
  | x :: t =>
      if x <? best then argmin_from x i (S i) t
      else argmin_from best besti (S i) t
  end.

(** numpy raises [ValueError] on an empty array: [None]. *)
Definition argmin (l : list Z) : option nat :=
  match l with
  | [] => None
  | x :: t => Some (argmin_from x 0%nat 1%nat t)
  end.

(** [np.argmax]: the position of the first occurrence of the maximum. *)
Fixpoint argmax_from (best : Z) (besti i : nat) (l : list Z) : nat :=
  match l with
  | [] => besti
  | x :: t =>
      if best <? x then argmax_from x i (S i) t
      else argmax_from best besti (S i) t
  end.

Definition argmax (l : list Z) : option nat :=
  match l with
  | [] => None
  | x :: t => Some (argmax_from x 0%nat 1%nat t)
  end.

(** [pts[f(keys)]] *)
Definition pick (sel : list Z -> option nat) (keys : list Z)
           (pts : list point) : option point :=
  match sel keys with
  | Some i => nth_error pts i
  | None => None
  end.

(** The returned 4x2 array, as its four rows in order.  The rows are
    kept as they are selected; their conversion to float32 on return does
    not depend on the order of the input. *)
Definition quad : Type := (point * point * point * point)%type.

(** Segment.py:
<<
    rect = np.zeros((4,2)); s = pts.sum(axis=1)
    rect[0] = pts[np.argmin(s)];  rect[2] = pts[np.argmax(s)]
    diff = np.diff(pts, axis=1)
    rect[1] = pts[np.argmin(diff)];  rect[3] = pts[np.argmax(diff)]
>> *)
Definition order_points (d : dtype) (pts : list point) : option quad :=
  let s := sum_axis1 d pts in
  match pick argmin s pts, pick argmax s pts with
  | Some r0, Some r2 =>
      let diff := diff_axis1 d pts in
      match pick argmin diff pts, pick argmax diff pts with
      | Some r1, Some r3 => Some (r0, r1, r2, r3)
      | _, _ => None
      end
  | _, _ => None
  end.

(** train.py:
<<
    s = pts.sum(axis=1); d = np.diff(pts, axis=1).reshape(-1)
    tl = pts[np.argmin(s)]; br = pts[np.argmax(s)]
    tr = pts[np.argmin(d)]; bl = pts[np.argmax(d)]
    return np.array([tl, tr, br, bl], np.float32)
>> *)
Definition order_corners (dt : dtype) (pts : list point) : option quad :=
  let s := sum_axis1 dt pts in
  let d := diff_axis1 dt pts in
  match pick argmin s pts, pick argmax s pts,
        pick argmin d pts, pick argmax d pts with
  | Some tl, Some br, Some tr, Some bl => Some (tl, tr, br, bl)
  | _, _, _, _ => None
  end.

(** What "the point minimising / maximising a key" means for a result. *)
Definition is_min_of (key : point -> Z) (pts : list point) (p : point) :=
  In p pts /\ forall q, In q pts -> key p <= key q.
Definition is_max_of (key : point -> Z) (pts : list point) (p : point) :=
  In p pts /\ forall q, In q pts -> key q <= key p.

(** The extreme of a key is attained by one point only. *)
Definition unique_min (key : point -> Z) (pts : list point) :=
  forall p q, is_min_of key pts p -> is_min_of key pts q -> p = q.
Definition unique_max (key : point -> Z) (pts : list point) :=
  forall p q, is_max_of key pts p -> is_max_of key pts q -> p = q.

(** Sample data.  A slightly skewed page outline, in whole pixels; a
    square standing on a corner, in whole pixels and as float32; and four
    float32 corners of which the first lies 2^-14 of a pixel below the
    second, so that their sums x + y and their differences y - x differ,
    but not as float32: 2048 + 2^-14 and 2^-14 - 2048 round to 2048 and
    -2048. *)
Definition skewed_page : list point :=
  [(0, 0); (1700, 40); (1650, 2200); (30, 2150)].

Definition tilted_square : list point :=
  [(100, 0); (200, 100); (100, 200); (0, 100)].

Definition as_float32 (pts : list point) : list point :=
  map (fun p => (px (fst p), px (snd p))) pts.

Definition near_corners : list point :=
  [(px 2048, 2 ^ 135); (px 2048, 0); (px 4000, px 3000); (0, px 5000)].
End Corners.

(** ** The final crop after deskew: [final_hybrid_crop_after_deskew]
       (model.py) *)

Module FinalCrop.
Local Open Scope Z_scope.

(** [(x, y, w, h)], as returned by [cv2.boundingRect]. *)
Definition box : Type := (Z * Z * Z * Z)%type.

(** What the function returns: the input array itself, or the view
    [rgb[y0:y1, x0:x1]]. *)
Inductive region : Type :=
| Whole
| Slice (y0 y1 x0 x1 : Z).

(** [int(0.01*n)] and [int(0.99*n)] for an image extent [n >= 0]: the
    integer parts of n/100 and of 99n/100. *)
Definition int_001 (n : Z) : Z := n / 100.
Definition int_099 (n : Z) : Z := (99 * n) / 100.

(** [a[0]] and [a[-1]] of a non-empty index array. *)
Definition first_ix (a : list Z) : Z := hd 0 a.
Definition last_ix (a : list Z) : Z := last a 0.

(** The body of the function from line 247 on.  [rows] and [cols] are the
    index arrays [np.where(hor > th_h)[0]] and [np.where(ver > th_v)[0]],
    [b2] is [box_from_mask(paper_mask_on_deskewed(rgb))]. *)
Definition final_hybrid_crop (H W : Z) (rows cols : list Z)
           (b2 : option box) (pad : Z) : region :=
  if (Nat.eqb (length rows) 0 || Nat.eqb (length cols) 0)%bool then
    match b2 with
    | None => Whole
    | Some (x2, y2, w2, h2) =>
        let x0 := Z.max (int_001 W) (x2 - pad) in
        let y0 := Z.max (int_001 H) (y2 - pad) in
        let x1 := Z.min (int_099 W) (x2 + w2 + pad) in
        let y1 := Z.min (int_099 H) (y2 + h2 + pad) in
        Slice y0 y1 x0 x1
    end
  else
    let y0_i := first_ix rows in
    let y1_i := last_ix rows in
    let x0_i := first_ix cols in
    let x1_i := last_ix cols in
    match b2 with
    | None =>
        let x0 := Z.max (int_001 W) (x0_i - pad) in
        let y0 := Z.max (int_001 H) (y0_i - pad) in
        let x1 := Z.min (int_099 W) (x1_i + pad) in
        let y1 := Z.min (int_099 H) (y1_i + pad) in
        if ((y1 <=? y0) || (x1 <=? x0))%bool then Whole
        else Slice y0 y1 x0 x1
    | Some (x2, y2, w2, h2) =>
        let x0 := Z.max (int_001 W) (Z.max x0_i x2 - pad) in
        let y0 := Z.max (int_001 H) (Z.max y0_i y2 - pad) in
        let x1 := Z.min (int_099 W) (Z.min x1_i (x2 + w2) + pad) in
        let y1 := Z.min (int_099 H) (Z.min y1_i (y2 + h2) + pad) in
        if ((y1 <=? y0) || (x1 <=? x0))%bool then
          let xa0 := Z.max (int_001 W) (x0_i - pad) in
          let ya0 := Z.max (int_001 H) (y0_i - pad) in
          let xa1 := Z.min (int_099 W) (x1_i + pad) in
          let ya1 := Z.min (int_099 H) (y1_i + pad) in
          let xb0 := Z.max (int_001 W) (x2 - pad) in
          let yb0 := Z.max (int_001 H) (y2 - pad) in
          let xb1 := Z.min (int_099 W) (x2 + w2 + pad) in
          let yb1 := Z.min (int_099 H) (y2 + h2 + pad) in
          let area_a := Z.max 0 (xa1 - xa0) * Z.max 0 (ya1 - ya0) in
          let area_b := Z.max 0 (xb1 - xb0) * Z.max 0 (yb1 - yb0) in
          if (negb (area_b =? 0) && (area_b <? area_a))%bool
          then Slice yb0 yb1 xb0 xb1
          else Slice ya0 ya1 xa0 xa1
        else Slice y0 y1 x0 x1
    end.

(** numpy basic slicing [a[lo:hi]] on an axis of length [n]: a negative
    bound counts from the end, bounds are clamped to [0, n], and an
    inverted range is empty. *)
Definition norm_ix (n i : Z) : Z :=
  if i <? 0 then Z.max 0 (i + n) else Z.min i n.
Definition slice_len (n lo hi : Z) : Z :=
  Z.max 0 (norm_ix n hi - norm_ix n lo).

(** Height and width of the returned array. *)
Definition region_shape (H W : Z) (r : region) : Z * Z :=
  match r with
  | Whole => (H, W)
  | Slice y0 y1 x0 x1 => (slice_len H y0 y1, slice_len W x0 x1)
  end.

(** The pixel-level steps, lines 227-245. *)
Record cv_ops (Image : Type) : Type := {
  (** [bw.shape]: (H, W) *)
  shape : Image -> Z * Z;
  (** [np.where(hor > th_h)[0]], ascending row indices *)
  ink_rows : Image -> list Z;
  (** [np.where(ver > th_v)[0]], ascending column indices *)
  ink_cols : Image -> list Z;
  (** [box_from_mask(paper_mask_on_deskewed(rgb))] *)
  paper_box : Image -> option box
}.

Definition final_hybrid_crop_after_deskew {Image : Type}
           (cv : cv_ops Image) (rgb : Image) (pad : Z) : region :=
  let '(H, W) := shape cv rgb in
  final_hybrid_crop H W (ink_rows cv rgb) (ink_cols cv rgb)
                    (paper_box cv rgb) pad.
End FinalCrop.

(** ** Row segmentation: [split_rows] and [attach_answer_boxes] (model.py) *)

Module Rows.
Local Open Scope Z_scope.

(** [(x, y, w, h)] *)
Definition bbox : Type := (Z * Z * Z * Z)%type.
Definition top (b : bbox) : Z := let '(_, y, _, _) := b in y.
Definition height (b : bbox) : Z := let '(_, _, _, h) := b in h.

(** [thresh = np.mean(proj) * 0.4] *)
Definition thresh_of (proj : list Z) : Q :=
  (inject_Z (fold_right Z.add 0%Z proj)
     / inject_Z (Z.of_nat (length proj)) * (4 # 10))%Q.

(** [proj[y] > thresh] *)
Definition above (thresh : Q) (p : Z) : bool :=
  negb (Qle_bool (inject_Z p) thresh).

(** [min_h = max(40, H//40)] *)
Definition min_height (H : Z) : Z := Z.max 40 (H / 40).

(** The variables of the scanning loop. *)
Record scan : Type := {
  segments : list bbox;
  in_seg : bool;
  y0 : Z
}.

(** One iteration of [for y in range(H)], at row [y] with [p = proj[y]]. *)
Definition scan_step (H W : Z) (thresh : Q) (st : scan) (y p : Z) : scan :=
  if (above thresh p && negb (in_seg st))%bool then
    {| segments := segments st; in_seg := true; y0 := y |}
  else if ((negb (above thresh p) || (y =? H - 1)) && in_seg st)%bool then
    let y1 := y in
    {| segments :=
         if min_height H <=? y1 - y0 st then
           segments st ++
             [(0, Z.max 0 (y0 st - 4), W,
               Z.min (H - 1) (y1 + 4) - Z.max 0 (y0 st - 4))]
         else segments st;
       in_seg := false;
       y0 := y0 st |}
  else st.

Fixpoint scan_rows (H W : Z) (thresh : Q) (st : scan) (y : Z)
         (proj : list Z) : scan :=
  match proj with
  | [] => st
  | p :: rest => scan_rows H W thresh (scan_step H W thresh st y p) (y + 1) rest
  end.

(** One iteration of [for seg in segments] of the merging loop;
    [merged[-1]] is the last element of [merged]. *)
Definition merge_step (merged : list bbox) (seg : bbox) : list bbox :=
  match merged with
  | [] => [seg]
  | _ :: _ =>
      let '(x, y, w, h) := seg in
      let '(px, py, pw, ph) := last merged (0, 0, 0, 0) in
      if y <=? py + ph + 12
      then removelast merged ++ [(px, py, pw, (y + h) - py)]
      else merged ++ [seg]
  end.

Definition merge_segments (segs : list bbox) : list bbox :=
  fold_left merge_step segs [].

(** The last loop: rows above [top_cut] are dropped or truncated. *)
Definition cut_row (top_cut : Z) (r : bbox) : list bbox :=
  let '(x, y, w, h) := r in
  let y2 := Z.max y top_cut in
  if ((top_cut <? y + h) && (y2 - y <? h))%bool
  then [(x, y2, w, (y + h) - y2)]
  else [].

Definition cut_rows (top_cut : Z) (merged : list bbox) : list bbox :=
  flat_map (cut_row top_cut) merged.

(** Python's [int] on a float: truncation towards zero. *)
Definition int_of (q : Q) : Z :=
  if Qle_bool 0 q then Qfloor q else Qceiling q.

(** [top_cut = int(H * min_y_frac)] *)
Definition top_cut_of (H : Z) (min_y_frac : Q) : Z :=
  int_of (inject_Z H * min_y_frac)%Q.

(** [split_rows] from the row projection [proj] (one entry per image row,
    so [H = len(proj)]) and the image width [W]. *)
Definition split_rows_of (proj : list Z) (W : Z) (min_y_frac : Q)
  : list bbox :=
  let H := Z.of_nat (length proj) in
  let thresh := thresh_of proj in
  let st := scan_rows H W thresh
              {| segments := []; in_seg := false; y0 := 0 |} 0 proj in
  cut_rows (top_cut_of H min_y_frac) (merge_segments (segments st)).

(** [sorted(rows, key=lambda r: r[1])]: a stable sort on the top
    coordinate. *)
Fixpoint insert_by_top (r : bbox) (l : list bbox) : list bbox :=
  match l with
  | [] => [r]
  | r' :: t =>
      if top r <=? top r' then r :: r' :: t
      else r' :: insert_by_top r t
  end.

Definition sorted_by_top (rows : list bbox) : list bbox :=
  fold_right insert_by_top [] rows.

(** The dataclass [Row] (the image paths are filled in later by
    [process]). *)
Record Row : Type := {
  id : String.string;
  bbox_of : bbox;
  answer_box_bbox : option bbox;
  type : String.string;
  confidence : Q
}.

(** [f"q{qid}"] *)
Definition row_id (qid : nat) : String.string :=
  String.append "q"%string
    (NilEmpty.string_of_uint (Nat.to_uint qid)).

(** Notions used to state and prove the properties of the row list. *)

(** Every row starts below [lo], has a positive height, and the next one
    starts more than 12 pixels below its bottom edge. *)
Fixpoint spaced (lo : Z) (l : list bbox) : Prop :=
  match l with
  | [] => True
  | r :: t => lo < top r /\ 0 < height r /\ spaced (top r + height r + 12) t
  end.

Definition le_top (a b : bbox) : Prop := top a <= top b.

(** The merging loop seen from its current last element [cur]: what the
    loop leaves from [cur] on, once it has gone through [segs]. *)
Fixpoint merge_from (cur : bbox) (segs : list bbox) : list bbox :=
  match segs with
  | [] => [cur]
  | seg :: t =>
      let '(x, y, w, h) := seg in
      let '(px, py, pw, ph) := cur in
      if y <=? py + ph + 12
      then merge_from (px, py, pw, (y + h) - py) t
      else cur :: merge_from seg t
  end.

(** The pixel-level steps of both functions. *)
Record cv_ops (Image : Type) : Type := {
  (** [gray.shape[1]] *)
  width : Image -> Z;
  (** [np.sum(255 - bw, axis=1)] with the band masked out, lines 358-363 *)
  ink_projection : Image -> bbox -> list Z;
  (** the nearest square-ish contour of the row inside the band, in image
      coordinates ([ab], lines 396-409); [None] when there is none.  Taken
      as total: where OpenCV raises on an empty slice the function returns
      no list at all. *)
  nearest_box : Image -> bbox -> bbox -> option bbox
}.

Section WithImage.
Context {Image : Type} (cv : cv_ops Image).

Definition split_rows (gray : Image) (band : bbox) (min_y_frac : Q)
  : list bbox :=
  split_rows_of (ink_projection cv gray band) (width cv gray) min_y_frac.

(** The loop of [attach_answer_boxes] from the row number [qid] on. *)
Fixpoint attach_from (gray : Image) (band : bbox) (qid : nat)
         (rows : list bbox) : list Row :=
  match rows with
  | [] => []
  | r :: rest =>
      let '(bx, by_, bw, bh) := band in
      let '(x, y, w, h) := r in
      let ry := y + h / 2 in
      let has := ((by_ <=? ry) && (ry <=? by_ + bh))%bool in
      {| id := row_id qid;
         bbox_of := (x, y, w, h);
         answer_box_bbox := if has then nearest_box cv gray band r else None;
         type := if has then "mcq"%string else "text"%string;
         confidence := if has then (86 # 100)%Q else (72 # 100)%Q |}
        :: attach_from gray band (S qid) rest
  end.

Definition attach_answer_boxes (rows : list bbox) (band : bbox)
           (gray : Image) : list Row :=
  attach_from gray band 1%nat (sorted_by_top rows).
End WithImage.

(** Sample world: a page of 210 rows, 800 wide, with ink on rows 10 to
    109 and an answer band that no row reaches. *)
Definition ops_header_band : cv_ops unit :=
  {| width := fun _ => 800;
     ink_projection :=
       fun _ _ => repeat 0 10 ++ repeat 100 100 ++ repeat 0 100;
     nearest_box := fun _ _ _ => None |}.
End Rows.

(** ** Transform analysis and confidence: Segment.py *)

Module Segment.
Local Open Scope R_scope.

(** *** Configuration constants *)
Definition TEMPLATE_W : Z := 1700.
Definition TEMPLATE_H : Z := 2200.
Definition CONFIDENCE_THRESHOLD : R := 60 / 100.
Definition RESIDUAL_MAD_THRESHOLD : R := 30.
Definition ROTATION_THRESHOLD_DEG : R := 10.
Definition SCALE_PERCENT_THRESHOLD : R := 10.
Definition PERSPECTIVE_DISTORTION_PCT : R := 8.
Definition MIN_DOC_AREA_RATIO : R := 4 / 1000.
Definition SIZE_TOL_PCT : R := 2 / 100.

(** Comparisons of floats, as booleans. *)
Definition Rltb (x y : R) : bool := if Rlt_dec x y then true else false.
Definition Rleb (x y : R) : bool := if Rle_dec x y then true else false.

(** [np.clip(x, lo, hi)] = [minimum(maximum(x, lo), hi)] *)
Definition clip (x lo hi : R) : R := Rmin (Rmax x lo) hi.

(** *** [compute_alignment_confidence_from_stats] *)

(** A float that may be [float('inf')], the initial value of
    [stats['median_reproj_err']]. *)
Inductive xfloat : Type :=
| Fin (r : R)
| PInf.

(** The keys of the [stats] dict that the function reads; [None] is an
    absent key (the callers pass [{}] on the fallback path). *)
Record Stats : Type := {
  matches : option Z;
  inliers : option Z;
  median_reproj_err : option xfloat
}.

Definition empty_stats : Stats :=
  {| matches := None; inliers := None; median_reproj_err := None |}.

(** [dict.get(key, default)] *)
Definition get {A : Type} (field : option A) (default : A) : A :=
  match field with
  | Some v => v
  | None => default
  end.

Definition compute_alignment_confidence_from_stats
           (stats : Stats) (fallback : bool) (doc_area_ratio : R) : R :=
  if fallback then
    clip ((doc_area_ratio - 2 / 10) / (75 / 100)) 0 1
  else
    let matches := get (matches stats) 0%Z in
    let inliers := get (inliers stats) 0%Z in
    if (matches <=? 0)%Z then 0
    else
      let inlier_ratio := IZR inliers / IZR matches in
      let reproj := get (median_reproj_err stats) (Fin 999) in
      let reproj_norm :=
        match reproj with
        | Fin r => clip (1 - r / 50) 0 1
        | PInf => 0   (* 1 - inf/50 = -inf, clipped to 0 *)
        end in
      let score := 7 / 10 * inlier_ratio + 3 / 10 * reproj_norm in
      clip score 0 1.

(** *** Matrices *)

Record Mat2 : Type := { m00 : R; m01 : R; m10 : R; m11 : R }.

Record Mat3 : Type := {
  a00 : R; a01 : R; a02 : R;
  a10 : R; a11 : R; a12 : R;
  a20 : R; a21 : R; a22 : R
}.

(** [M @ N] *)
Definition mmul (M N : Mat2) : Mat2 :=
  {| m00 := m00 M * m00 N + m01 M * m10 N;
     m01 := m00 M * m01 N + m01 M * m11 N;
     m10 := m10 M * m00 N + m11 M * m10 N;
     m11 := m10 M * m01 N + m11 M * m11 N |}.

(** [M.T] *)
Definition transpose (M : Mat2) : Mat2 :=
  {| m00 := m00 M; m01 := m10 M; m10 := m01 M; m11 := m11 M |}.

(** [np.linalg.det] *)
Definition det2 (M : Mat2) : R := m00 M * m11 M - m01 M * m10 M.

(** [np.eye(2)] *)
Definition eye2 : Mat2 := {| m00 := 1; m01 := 0; m10 := 0; m11 := 1 |}.

(** [Vt[-1,:] *= -1] *)
Definition negate_last_row (M : Mat2) : Mat2 :=
  {| m00 := m00 M; m01 := m01 M; m10 := - m10 M; m11 := - m11 M |}.

(** [H / d] *)
Definition mdiv3 (H : Mat3) (d : R) : Mat3 :=
  {| a00 := a00 H / d; a01 := a01 H / d; a02 := a02 H / d;
     a10 := a10 H / d; a11 := a11 H / d; a12 := a12 H / d;
     a20 := a20 H / d; a21 := a21 H / d; a22 := a22 H / d |}.

(** [np.linalg.norm] of a vector of two components. *)
Definition norm2 (x y : R) : R := sqrt (x * x + y * y).

(** [math.atan2(y, x)] on reals: the angle of the point (x, y), in
    (-PI, PI]. *)
Definition atan2 (y x : R) : R :=
  if Rlt_dec 0 x then atan (y / x)
  else if Rlt_dec x 0 then
         (if Rle_dec 0 y then atan (y / x) + PI else atan (y / x) - PI)
       else if Rlt_dec 0 y then PI / 2
            else if Rlt_dec y 0 then - (PI / 2)
                 else 0.

(** [math.degrees] *)
Definition degrees (a : R) : R := a * 180 / PI.

(** *** [decompose_homography] *)

Record TransformParams : Type := {
  rotation_deg : R;
  scale_x : R;
  scale_y : R;
  shear : R;
  tx : R;
  ty : R;
  h20 : R;
  h21 : R
}.

(** [np.linalg.svd] of a 2x2 matrix: [Some (U, (s0, s1), Vt)], or [None]
    when LAPACK does not converge and numpy raises [LinAlgError]. *)
Definition svd_fn : Type := Mat2 -> option (Mat2 * (R * R) * Mat2).

(** The normalisation at the head of the function. *)
Definition normalize_h (H : Mat3) : Mat3 :=
  if Rltb (Rabs (a22 H)) (1 / 10 ^ 12)
  then mdiv3 H (a22 H + 1 / 10 ^ 12)
  else mdiv3 H (a22 H).

(** [H[0:2,0:2]] *)
Definition linear_block (H : Mat3) : Mat2 :=
  {| m00 := a00 H; m01 := a01 H; m10 := a10 H; m11 := a11 H |}.

(** The [try] block and its [except] branch: the rotation [R] and the
    pair [scales]. *)
Definition rotation_and_scales (svd : svd_fn) (A : Mat2) : Mat2 * (R * R) :=
  match svd A with
  | Some (U, s_vals, Vt) =>
      let Rm := mmul U Vt in
      if Rltb (det2 Rm) 0
      then (mmul U (negate_last_row Vt), s_vals)
      else (Rm, s_vals)
  | None =>
      (eye2, (norm2 (m00 A) (m10 A), norm2 (m01 A) (m11 A)))
  end.

Definition decompose_homography (svd : svd_fn) (H_img_to_template : Mat3)
  : TransformParams :=
  let H := normalize_h H_img_to_template in
  let A := linear_block H in
  let '(Rm, scales) := rotation_and_scales svd A in
  let angle_rad := atan2 (m10 Rm) (m00 Rm) in
  let angle_deg := degrees angle_rad in
  let S := mmul (transpose Rm) A in
  {| rotation_deg := angle_deg;
     scale_x := fst scales;
     scale_y := snd scales;
     shear := m01 S;
     tx := a02 H;
     ty := a12 H;
     h20 := a20 H;
     h21 := a21 H |}.

(** Half the distance between neighbouring doubles in [2, 4), where PI
    lies: 2^-52. *)
Definition HALF_ULP_PI : R := / 2 ^ 52.

(** [math.atan2(y, x)] as a double.  Taking doubles as reals, as this
    development does, changes the range of the angle at its two ends only.
    The doubles nearest to PI and to -PI are 3.141592653589793 and its
    opposite; [math.degrees] turns them into 180.0 and -180.0 exactly, so
    they stand for PI and -PI here.  The library returns the double nearest
    to the angle, and an angle that differs from -PI (or from PI) by less
    than [HALF_ULP_PI] has no double nearer than that one:
    [math.atan2(-1e-17, -1.0)] is -3.141592653589793, and its
    [math.degrees] is -180.0.  [math_atan2] is [atan2] with this rounding
    at the two ends; elsewhere the angle is left exact.  (For [y = -0.0]
    and [x < 0] the library returns the same double for -PI; a zero of
    either sign is the real 0 here.) *)
Definition math_atan2 (y x : R) : R :=
  let a := atan2 y x in
  if Rlt_dec a (- PI + HALF_ULP_PI) then - PI
  else if Rlt_dec (PI - HALF_ULP_PI) a then PI
  else a.

(** [decompose_homography] with the angle as the double that
    [math.atan2] returns; everything else as above. *)
Definition decompose_homography_rounded (svd : svd_fn)
           (H_img_to_template : Mat3) : TransformParams :=
  let H := normalize_h H_img_to_template in
  let A := linear_block H in
  let '(Rm, scales) := rotation_and_scales svd A in
  let angle_rad := math_atan2 (m10 Rm) (m00 Rm) in
  let angle_deg := degrees angle_rad in
  let S := mmul (transpose Rm) A in
  {| rotation_deg := angle_deg;
     scale_x := fst scales;
     scale_y := snd scales;
     shear := m01 S;
     tx := a02 H;
     ty := a12 H;
     h20 := a20 H;
     h21 := a21 H |}.

(** What numpy documents about the result of [np.linalg.svd]: [U] and
    [Vt] are orthogonal, the singular values are non-negative and sorted
    in descending order, and [A = U @ diag(s) @ Vt]. *)
Definition orthogonal (M : Mat2) : Prop :=
  mmul (transpose M) M = eye2 /\ mmul M (transpose M) = eye2.

Definition diag2 (s : R * R) : Mat2 :=
  {| m00 := fst s; m01 := 0; m10 := 0; m11 := snd s |}.

Definition is_svd (A U : Mat2) (s : R * R) (Vt : Mat2) : Prop :=
  orthogonal U /\ orthogonal Vt /\
  0 <= snd s <= fst s /\
  A = mmul (mmul U (diag2 s)) Vt.

(** *** [measure_perspective_from_template_to_image] *)

Definition pointR : Type := (R * R)%type.

(** [cv2.perspectiveTransform] on one point: the projective image of
    (x, y), and (0, 0) when the homogeneous coordinate vanishes (OpenCV
    tests it against [DBL_EPSILON]). *)
Definition DBL_EPSILON : R := / 2 ^ 52.

Definition perspectiveTransform (H : Mat3) (p : pointR) : pointR :=
  let '(x, y) := p in
  let w := a20 H * x + a21 H * y + a22 H in
  if Rltb DBL_EPSILON (Rabs w)
  then ((a00 H * x + a01 H * y + a02 H) / w,
        (a10 H * x + a11 H * y + a12 H) / w)
  else (0, 0).

Record PerspectiveMetrics : Type := {
  corner_points_image : list pointR;
  side_lengths : list R;
  perspective_distortion_pct : R
}.

(** [lens.min()] and [lens.max()] of the four side lengths. *)
Definition min4 (a b c d : R) : R := Rmin (Rmin a b) (Rmin c d).
Definition max4 (a b c d : R) : R := Rmax (Rmax a b) (Rmax c d).

Definition dist (p q : pointR) : R := norm2 (fst q - fst p) (snd q - snd p).

Definition measure_perspective_from_template_to_image
           (H_template_to_img : Mat3) (template_w template_h : Z)
  : PerspectiveMetrics :=
  let c0 := (0, 0) in
  let c1 := (IZR (template_w - 1), 0) in
  let c2 := (IZR (template_w - 1), IZR (template_h - 1)) in
  let c3 := (0, IZR (template_h - 1)) in
  let p0 := perspectiveTransform H_template_to_img c0 in
  let p1 := perspectiveTransform H_template_to_img c1 in
  let p2 := perspectiveTransform H_template_to_img c2 in
  let p3 := perspectiveTransform H_template_to_img c3 in
  let l0 := dist p0 p1 in
  let l1 := dist p1 p2 in
  let l2 := dist p2 p3 in
  let l3 := dist p3 p0 in
  let distortion_pct :=
    if Rleb (min4 l0 l1 l2 l3) (1 / 10 ^ 6) then 0
    else (max4 l0 l1 l2 l3 / min4 l0 l1 l2 l3 - 1) * 100 in
  {| corner_points_image := [p0; p1; p2; p3];
     side_lengths := [l0; l1; l2; l3];
     perspective_distortion_pct := distortion_pct |}.

(** The identity homography. *)
Definition eye3 : Mat3 :=
  {| a00 := 1; a01 := 0; a02 := 0;
     a10 := 0; a11 := 1; a12 := 0;
     a20 := 0; a21 := 0; a22 := 1 |}.

(** A homography is purely affine when its bottom row is [0, 0, 1]. *)
Definition affine (H : Mat3) : Prop := a20 H = 0 /\ a21 H = 0 /\ a22 H = 1.

(** Sample data: a quarter turn and an SVD of its linear block; the
    scaling diag(1, 2) and the SVD numpy returns for it (singular values
    in descending order, so both factors swap the axes). *)
Definition quarter_turn_h : Mat3 :=
  {| a00 := 0; a01 := -1; a02 := 0;
     a10 := 1; a11 := 0; a12 := 0;
     a20 := 0; a21 := 0; a22 := 1 |}.

Definition quarter_turn_svd : svd_fn :=
  fun _ => Some ({| m00 := 0; m01 := -1; m10 := 1; m11 := 0 |}, (1, 1), eye2).

Definition swap2 : Mat2 := {| m00 := 0; m01 := 1; m10 := 1; m11 := 0 |}.

Definition stretch_y_svd : svd_fn := fun _ => Some (swap2, (2, 1), swap2).

(** The rotation matrix of the angle [theta] (radians). *)
Definition rot2 (theta : R) : Mat2 :=
  {| m00 := cos theta; m01 := - sin theta;
     m10 := sin theta; m11 := cos theta |}.

(** Squared Frobenius norm, used to pin down singular values. *)
Definition frob (M : Mat2) : R :=
  m00 M * m00 M + m01 M * m01 M + m10 M * m10 M + m11 M * m11 M.

(** The homography of a rotation by [theta] (radians) after an
    axis-aligned scaling by [(sx, sy)]: linear block
    [R(theta) * diag(sx, sy)], no translation, bottom row [0, 0, 1]. *)
Definition rot_scale_h (theta sx sy : R) : Mat3 :=
  {| a00 := cos theta * sx; a01 := - sin theta * sy; a02 := 0;
     a10 := sin theta * sx; a11 := cos theta * sy; a12 := 0;
     a20 := 0; a21 := 0; a22 := 1 |}.

(** *** The per-image pipeline: [process_single_image] and
        [process_single_image_with_alignment] *)

(** The value of [used_method]; the Python strings have the same names. *)
Inductive method : Type :=
| identity_size_match
| feature_homography
| doc_detect
| identity_after_failed_detection
| simple_resize_fallback.

(** The entries of [manual_reasons]; the Python strings carry the value
    formatted in brackets, e.g. "low_confidence(0.42)". *)
Inductive reason : Type :=
| low_confidence (confidence : R)
| high_residual_mad (residual_mad : R)
| high_rotation (rotation_deg : R)
| scale_change (max_scale_pct : R)
| perspective_distortion (distortion_pct : R)
| mostly_blank_crop.

(** The entries of a crop's [warnings]. *)
Inductive warning : Type :=
| invalid_crop
| mostly_blank
| low_variance (var : R).

(** A row of the label table [df]; the [bbox_*] columns hold whole pixel
    numbers, on which [int(round(.))] is the identity. *)
Record bbox_row : Type := {
  label_name : string;
  bbox_x : Z;
  bbox_y : Z;
  bbox_width : Z;
  bbox_height : Z;
  image_name : string
}.

(** Four corners, as [found_corners]. *)
Definition quadR : Type := (pointR * pointR * pointR * pointR)%type.

(** The OpenCV / numpy steps on pixel data. *)
Record cv_ops (Image : Type) : Type := {
  (** [cv2.imdecode(np.frombuffer(image_bytes, np.uint8), IMREAD_COLOR)] *)
  imdecode : list Byte.byte -> option Image;
  (** [img.shape[:2]]: (height, width) *)
  shape : Image -> Z * Z;
  (** the search over binarisations and contours (Segment.py 302-350 and
      572-619): [Some (found_corners, found_area_ratio)] when [found] *)
  contour_quad : Image -> option (quadR * R);
  (** the Hough-lines fallback (622-636), same result shape *)
  hough_quad : Image -> option (quadR * R);
  (** [cv2.getPerspectiveTransform(dst, found_corners)], [dst] being the
      template rectangle *)
  getPerspectiveTransform : quadR -> Mat3;
  (** [safe_inverse]: [None] when [np.linalg.inv] raises *)
  safe_inverse : Mat3 -> option Mat3;
  (** [warp_image_with_H]: [None] when [cv2.warpPerspective] raises *)
  warp_image_with_H : Image -> Mat3 -> option Image;
  (** [float(np.mean(gray_w >= 245))] of a warped candidate *)
  blank_frac : Image -> R;
  (** [cv2.resize(img, (TEMPLATE_W, TEMPLATE_H))] *)
  resize_to_template : Image -> Image;
  (** mean absolute grey difference to the white template; [None] when the
      subtraction raises (shapes differ) *)
  residual_mad_of : Image -> option R;
  (** [compute_homography_via_features(template_gray, img_gray)].  The
      template that [process_single_image_with_alignment] passes is a
      constant white image (529-531), in which ORB finds no keypoint, so
      that the runs of the program have [None] here (113-114); the
      interface leaves the result open, and what is proved of the
      [feature_homography] path holds for a template with features too. *)
  compute_homography_via_features : Image -> option Mat3 * Stats;
  (** [np.linalg.svd] *)
  svd : svd_fn;
  (** [img[y0:y1, x0:x1].copy()] *)
  crop_view : Image -> Z -> Z -> Z -> Z -> Image;
  (** the grey values of all pixels ([cv2.cvtColor(.., COLOR_BGR2GRAY)]) *)
  gray_pixels : Image -> list Z;
  (** [float(np.var(gray))] *)
  gray_variance : Image -> R
}.

(** The variables that the alignment stage sets. *)
Record alignment (Image : Type) : Type := {
  al_warped : option Image;
  al_used_method : option method;
  al_H_template_to_img : option Mat3;
  al_H_img_to_template : option Mat3;
  al_confidence : R;
  al_doc_area_ratio : R
}.

(** The metadata both functions report (the keys of the returned dict). *)
Record Metadata : Type := {
  used_method : option method;
  transform_params : TransformParams;
  perspective_metrics : PerspectiveMetrics;
  alignment_confidence : R;
  residual_mad : option R;
  manual_check_needed : bool;
  manual_check_reasons : list reason;
  doc_area_ratio : R
}.

(** [summary] of [process_single_image]: the metadata and the per-label
    crop warnings ([crops_meta], in table order). *)
Record Summary : Type := {
  meta : Metadata;
  crops : list (string * list warning)
}.

Definition identity_params : TransformParams :=
  {| rotation_deg := 0; scale_x := 1; scale_y := 1; shear := 0;
     tx := 0; ty := 0; h20 := 0; h21 := 0 |}.

Definition zero_metrics : PerspectiveMetrics :=
  {| corner_points_image := []; side_lengths := [];
     perspective_distortion_pct := 0 |}.

(** [size_diff_ok] *)
Definition size_diff_ok (w_img h_img : Z) : bool :=
  (Rleb (IZR (Z.abs (w_img - TEMPLATE_W))) (SIZE_TOL_PCT * IZR TEMPLATE_W)
   && Rleb (IZR (Z.abs (h_img - TEMPLATE_H))) (SIZE_TOL_PCT * IZR TEMPLATE_H))%bool.

(** The "Manual check heuristics" block of both functions. *)
Definition max_scale_pct (tp : TransformParams) : R :=
  Rmax (Rabs (scale_x tp - 1) * 100) (Rabs (scale_y tp - 1) * 100).

Definition manual_check_heuristics (confidence : R) (residual_mad : option R)
           (tp : TransformParams) (pm : PerspectiveMetrics) : list reason :=
  (if Rltb confidence CONFIDENCE_THRESHOLD
   then [low_confidence confidence] else [])
  ++ (match residual_mad with
      | Some m => if Rltb RESIDUAL_MAD_THRESHOLD m
                  then [high_residual_mad m] else []
      | None => []
      end)
  ++ (if Rltb ROTATION_THRESHOLD_DEG (Rabs (rotation_deg tp))
      then [high_rotation (rotation_deg tp)] else [])
  ++ (if Rltb SCALE_PERCENT_THRESHOLD (max_scale_pct tp)
      then [scale_change (max_scale_pct tp)] else [])
  ++ (if Rltb PERSPECTIVE_DISTORTION_PCT (perspective_distortion_pct pm)
      then [perspective_distortion (perspective_distortion_pct pm)] else []).

(** ["mostly_blank" in warnings], ["mostly_blank_crop" in manual_reasons] *)
Definition has_mostly_blank (ws : list warning) : bool :=
  existsb (fun w => match w with mostly_blank => true | _ => false end) ws.

Definition has_blank_reason (rs : list reason) : bool :=
  existsb (fun r => match r with mostly_blank_crop => true | _ => false end) rs.

(** The state of the crop loop. *)
Record crop_state : Type := {
  cs_crops : list (string * list warning);
  cs_reasons : list reason;
  cs_flag : bool
}.

Section WithImage.
Context {Image : Type} (cv : cv_ops Image).

(** [is_mostly_blank(img, white_thresh, pct)] *)
Definition is_mostly_blank (img : option Image) (white_thresh : Z) (pct : R)
  : bool :=
  match img with
  | None => true
  | Some im =>
      let gray := gray_pixels cv im in
      let total := length gray in
      let white_pixels := length (filter (fun v => (white_thresh <=? v)%Z) gray) in
      Rleb pct (INR white_pixels / INR total)
  end.

(** [crop_bbox_from_template_coords(warped_img, bbox, pad)] *)
Definition crop_bbox_from_template_coords (warped_img : Image)
           (bbox : bbox_row) (pad : Z) : option Image :=
  let x := (bbox_x bbox - pad)%Z in
  let y := (bbox_y bbox - pad)%Z in
  let w := (bbox_width bbox + 2 * pad)%Z in
  let h := (bbox_height bbox + 2 * pad)%Z in
  let '(Hh, Ww) := shape cv warped_img in
  let x := Z.max 0 x in
  let y := Z.max 0 y in
  let w := if (Ww <? x + w)%Z then (Ww - x)%Z else w in
  let h := if (Hh <? y + h)%Z then (Hh - y)%Z else h in
  if ((w <=? 0)%Z || (h <=? 0)%Z)%bool then None
  else Some (crop_view cv warped_img y (y + h)%Z x (x + w)%Z).

(** The initial values of the alignment variables. *)
Definition init_alignment : alignment Image :=
  {| al_warped := None; al_used_method := None;
     al_H_template_to_img := None; al_H_img_to_template := None;
     al_confidence := 0; al_doc_area_ratio := 0 |}.

(** "If found corners, compute homography" (353-371, 639-657); [a] holds
    the variables as they stand, and is returned where nothing is set. *)
Definition doc_detect_step (img : Image) (found : option (quadR * R))
           (a : alignment Image) : alignment Image :=
  match found with
  | Some (found_corners, found_area_ratio) =>
      if Rltb MIN_DOC_AREA_RATIO found_area_ratio then
        let H_t2i := getPerspectiveTransform cv found_corners in
        match safe_inverse cv H_t2i with
        | Some H_i2t =>
            match warp_image_with_H cv img H_i2t with
            | Some warped_candidate =>
                if Rleb (blank_frac cv warped_candidate) (90 / 100) then
                  {| al_warped := Some warped_candidate;
                     al_used_method := Some doc_detect;
                     al_H_template_to_img := Some H_t2i;
                     al_H_img_to_template := Some H_i2t;
                     al_confidence :=
                       compute_alignment_confidence_from_stats
                         empty_stats true found_area_ratio;
                     al_doc_area_ratio := found_area_ratio |}
                else a
            | None => a
            end
        | None => a
        end
      else a
  | None => a
  end.

(** "Fallback to resize" / "Last resort fallback" (373-384, 659-670). *)
Definition last_resort (img : Image) (size_ok : bool) (a : alignment Image)
  : alignment Image :=
  match al_warped a with
  | Some _ => a
  | None =>
      if size_ok then
        {| al_warped := Some img;
           al_used_method := Some identity_after_failed_detection;
           al_H_template_to_img := al_H_template_to_img a;
           al_H_img_to_template := al_H_img_to_template a;
           al_confidence := 5 / 10;
           al_doc_area_ratio := al_doc_area_ratio a |}
      else
        {| al_warped := Some (resize_to_template cv img);
           al_used_method := Some simple_resize_fallback;
           al_H_template_to_img := al_H_template_to_img a;
           al_H_img_to_template := al_H_img_to_template a;
           al_confidence := 0;
           al_doc_area_ratio := al_doc_area_ratio a |}
  end.

(** "If sizes match, use identity" (296-300, 566-570). *)
Definition identity_alignment (img : Image) (a : alignment Image)
  : alignment Image :=
  {| al_warped := Some img;
     al_used_method := Some identity_size_match;
     al_H_template_to_img := al_H_template_to_img a;
     al_H_img_to_template := al_H_img_to_template a;
     al_confidence := 95 / 100;
     al_doc_area_ratio := al_doc_area_ratio a |}.

(** The alignment stage of [process_single_image] (284-384). *)
Definition align_single (img : Image) : alignment Image :=
  let '(h_img, w_img) := shape cv img in
  let ok := size_diff_ok w_img h_img in
  if ok then identity_alignment img init_alignment
  else
    last_resort img ok (doc_detect_step img (contour_quad cv img) init_alignment).

(** "Try feature homography" (544-562). *)
Definition feature_step (img : Image) : alignment Image :=
  let '(H_t2i, stats) := compute_homography_via_features cv img in
  match H_t2i with
  | Some H_t2i =>
      match safe_inverse cv H_t2i with
      | Some H_i2t =>
          match warp_image_with_H cv img H_i2t with
          | Some warped_candidate =>
              {| al_warped := Some warped_candidate;
                 al_used_method := Some feature_homography;
                 al_H_template_to_img := Some H_t2i;
                 al_H_img_to_template := Some H_i2t;
                 al_confidence :=
                   compute_alignment_confidence_from_stats stats false 0;
                 al_doc_area_ratio := 0 |}
          | None => init_alignment
          end
      | None => init_alignment
      end
  | None => init_alignment
  end.

(** The alignment stage of [process_single_image_with_alignment]
    (533-670). *)
Definition align_with_features (img : Image) : alignment Image :=
  let '(h_img, w_img) := shape cv img in
  let ok := size_diff_ok w_img h_img in
  let a := feature_step img in
  match al_warped a with
  | Some _ => a
  | None =>
      if ok then identity_alignment img a
      else
        let found :=
          match contour_quad cv img with
          | Some f => Some f
          | None => hough_quad cv img
          end in
        last_resort img ok (doc_detect_step img found a)
  end.

(** "Compute decomposition metrics" (399-418, 685-704). *)
Definition metrics_of (a : alignment Image)
  : TransformParams * PerspectiveMetrics :=
  match al_H_img_to_template a with
  | Some H_i2t =>
      (decompose_homography (svd cv) H_i2t,
       match al_H_template_to_img a with
       | Some H_t2i =>
           measure_perspective_from_template_to_image H_t2i TEMPLATE_W TEMPLATE_H
       | None => zero_metrics
       end)
  | None => (identity_params, zero_metrics)
  end.

(** Everything from the residual on, up to [manual_flag = len(..) > 0]:
    the metadata, given the aligned image. *)
Definition metadata_of (a : alignment Image) (warped : Image) : Metadata :=
  let residual_mad := residual_mad_of cv warped in
  let '(tp, pm) := metrics_of a in
  let manual_reasons :=
    manual_check_heuristics (al_confidence a) residual_mad tp pm in
  let manual_flag := (0 <? length manual_reasons)%nat in
  {| used_method := al_used_method a;
     transform_params := tp;
     perspective_metrics := pm;
     alignment_confidence := al_confidence a;
     residual_mad := residual_mad;
     manual_check_needed := manual_flag;
     manual_check_reasons := manual_reasons;
     doc_area_ratio := al_doc_area_ratio a |}.

(** The warnings of one crop (466-475). *)
Definition crop_warnings (warped : Image) (row : bbox_row) : list warning :=
  match crop_bbox_from_template_coords warped row 8 with
  | None => [invalid_crop]
  | Some crop =>
      (if is_mostly_blank (Some crop) 245 (98 / 100) then [mostly_blank] else [])
      ++ (let var := gray_variance cv crop in
          if Rltb var 20 then [low_variance var] else [])
  end.

(** One iteration of the crop loop (462-481). *)
Definition crop_step (warped : Image) (st : crop_state) (row : bbox_row)
  : crop_state :=
  let warnings := crop_warnings warped row in
  let crops_meta := cs_crops st ++ [(label_name row, warnings)] in
  if ((0 <? length warnings)%nat && has_mostly_blank warnings)%bool then
    if negb (has_blank_reason (cs_reasons st)) then
      {| cs_crops := crops_meta;
         cs_reasons := cs_reasons st ++ [mostly_blank_crop];
         cs_flag := true |}
    else
      {| cs_crops := crops_meta;
         cs_reasons := cs_reasons st;
         cs_flag := cs_flag st |}
  else
    {| cs_crops := crops_meta;
       cs_reasons := cs_reasons st;
       cs_flag := cs_flag st |}.

(** [process_single_image(image_bytes, filename)]; [df] is the label table
    that [read_bboxes] returns.  The function re-raises every exception as
    an [Exception] whose message is "Error processing image <filename>: "
    followed by the message of the cause, which is the one kept here. *)
Definition process_single_image (image_bytes : list Byte.byte)
           (df : list bbox_row) : Py.outcome Summary :=
  match imdecode cv image_bytes with
  | None => Py.Raised (Py.Exception "Could not decode image")
  | Some img =>
      let a := align_single img in
      match al_warped a with
      | None => Py.Raised (Py.Exception "Could not produce warped aligned image")
      | Some warped =>
          let m := metadata_of a warped in
          let st := fold_left (crop_step warped) df
                      {| cs_crops := [];
                         cs_reasons := manual_check_reasons m;
                         cs_flag := manual_check_needed m |} in
          Py.Ok
            {| meta :=
                 {| used_method := used_method m;
                    transform_params := transform_params m;
                    perspective_metrics := perspective_metrics m;
                    alignment_confidence := alignment_confidence m;
                    residual_mad := residual_mad m;
                    manual_check_needed := cs_flag st;
                    manual_check_reasons := cs_reasons st;
                    doc_area_ratio := doc_area_ratio m |};
               crops := cs_crops st |}
      end
  end.

(** [process_single_image_with_alignment(img, filename, img_idx)]: the
    aligned image and its metadata. *)
Definition process_single_image_with_alignment (img : Image)
  : Py.outcome (Image * Metadata) :=
  let a := align_with_features img in
  match al_warped a with
  | None => Py.Raised (Py.ValueError "Could not produce warped aligned image")
  | Some warped => Py.Ok (warped, metadata_of a warped)
  end.
End WithImage.

(** The six conditions of the manual-review decision, on reported values. *)
Definition low_confidence_cond (m : Metadata) : Prop :=
  alignment_confidence m < CONFIDENCE_THRESHOLD.
Definition high_residual_cond (m : Metadata) : Prop :=
  match residual_mad m with
  | Some mad => mad > RESIDUAL_MAD_THRESHOLD   (* computed *)
  | None => False
  end.
Definition high_rotation_cond (m : Metadata) : Prop :=
  Rabs (rotation_deg (transform_params m)) > ROTATION_THRESHOLD_DEG.
Definition scale_change_cond (m : Metadata) : Prop :=
  Rmax (Rabs (scale_x (transform_params m) - 1))
       (Rabs (scale_y (transform_params m) - 1)) * 100
  > SCALE_PERCENT_THRESHOLD.
Definition perspective_cond (m : Metadata) : Prop :=
  perspective_distortion_pct (perspective_metrics m)
  > PERSPECTIVE_DISTORTION_PCT.

(** A crop is mostly blank: at least 98% of its grey values are >= 245. *)
Definition mostly_blank_pixels (gray : list Z) : Prop :=
  98 / 100 <= INR (length (filter (fun v => (245 <=? v)%Z) gray))
              / INR (length gray).

(** Some label row has a valid crop of [warped] that is mostly blank. *)
Definition blank_crop_cond {Image : Type} (cv : cv_ops Image)
           (warped : Image) (df : list bbox_row) : Prop :=
  exists row crop,
    In row df /\
    crop_bbox_from_template_coords cv warped row 8 = Some crop /\
    mostly_blank_pixels (gray_pixels cv crop).

(** The same, as the loop tests it. *)
Definition any_blank {Image : Type} (cv : cv_ops Image)
           (warped : Image) (df : list bbox_row) : bool :=
  existsb (fun row => has_mostly_blank (crop_warnings cv warped row)) df.

(** The number of entries of a reason list that carry a given tag. *)
Definition same_tag (r1 r2 : reason) : bool :=
  match r1, r2 with
  | low_confidence _, low_confidence _ => true
  | high_residual_mad _, high_residual_mad _ => true
  | high_rotation _, high_rotation _ => true
  | scale_change _, scale_change _ => true
  | perspective_distortion _, perspective_distortion _ => true
  | mostly_blank_crop, mostly_blank_crop => true
  | _, _ => false
  end.

Definition count_tag (tag : reason) (rs : list reason) : nat :=
  length (filter (same_tag tag) rs).

(** "One tag for each triggered condition": the tag occurs once when the
    condition holds and not at all otherwise. *)
Definition tag_once (cond : Prop) (tag : reason) (rs : list reason) : Prop :=
  (cond -> count_tag tag rs = 1%nat) /\ (~ cond -> count_tag tag rs = 0%nat).

(** The input size is out of the 2% tolerance. *)
Definition size_mismatch {Image : Type} (cv : cv_ops Image) (img : Image)
  : Prop :=
  size_diff_ok (snd (shape cv img)) (fst (shape cv img)) = false.

(** No detection method produces a warp: the contour detection of
    [process_single_image]; the feature homography, the contour detection
    and the Hough fallback of [process_single_image_with_alignment]. *)
Definition detection_failed_single {Image : Type} (cv : cv_ops Image)
           (img : Image) : Prop :=
  al_warped (doc_detect_step cv img (contour_quad cv img) (init_alignment (Image := Image)))
  = None.

Definition found_with_hough {Image : Type} (cv : cv_ops Image) (img : Image)
  : option (quadR * R) :=
  match contour_quad cv img with
  | Some f => Some f
  | None => hough_quad cv img
  end.

Definition detection_failed_features {Image : Type} (cv : cv_ops Image)
           (img : Image) : Prop :=
  al_warped (feature_step cv img) = None /\
  al_warped (doc_detect_step cv img (found_with_hough cv img)
                             (feature_step cv img)) = None.

(** The methods that work without a homography. *)
Definition no_homography_method (m : option method) : Prop :=
  m = Some identity_size_match \/ m = Some simple_resize_fallback.

(** What it means that [pm] is the distortion report of the template
    rectangle mapped by the homography [H] (template to image), written
    with the square root, [Rmin] and [Rmax] of the standard library: the
    corners are the images of the four corners of the 1700 x 2200 template,
    the side lengths are the distances between consecutive corners, and
    the value is [(longest / shortest - 1) * 100], or 0 when the shortest
    side is at most 1e-6. *)
Definition side_length (p q : pointR) : R :=
  sqrt ((fst q - fst p) * (fst q - fst p) + (snd q - snd p) * (snd q - snd p)).

Definition distortion_formula (l0 l1 l2 l3 pct : R) : Prop :=
  let shortest := Rmin (Rmin l0 l1) (Rmin l2 l3) in
  let longest := Rmax (Rmax l0 l1) (Rmax l2 l3) in
  (shortest <= 1 / 10 ^ 6 -> pct = 0) /\
  (1 / 10 ^ 6 < shortest -> pct = (longest / shortest - 1) * 100).

Definition reports_distortion_of (H : Mat3) (pm : PerspectiveMetrics) : Prop :=
  let p0 := perspectiveTransform H (0, 0) in
  let p1 := perspectiveTransform H (1699, 0) in
  let p2 := perspectiveTransform H (1699, 2199) in
  let p3 := perspectiveTransform H (0, 2199) in
  corner_points_image pm = [p0; p1; p2; p3] /\
  side_lengths pm = [side_length p0 p1; side_length p1 p2;
                     side_length p2 p3; side_length p3 p0] /\
  distortion_formula (side_length p0 p1) (side_length p1 p2)
                     (side_length p2 p3) (side_length p3 p0)
                     (perspective_distortion_pct pm).

(** Sample world for the pipeline: a 640 x 480 photograph in which no
    detector finds anything (no features, no contour quad, no lines), whose
    resized version differs from the white template by 12 grey levels on
    average, and whose crops hold four pixels, two of them near-white. *)
Definition ops_nothing_detected : cv_ops unit :=
  {| imdecode := fun _ => Some tt;
     shape := fun _ => (480, 640)%Z;
     contour_quad := fun _ => None;
     hough_quad := fun _ => None;
     getPerspectiveTransform := fun _ => eye3;
     safe_inverse := fun H => Some H;
     warp_image_with_H := fun i _ => Some i;
     blank_frac := fun _ => 0;
     resize_to_template := fun i => i;
     residual_mad_of := fun _ => Some 12;
     compute_homography_via_features :=
       fun _ => (None, {| matches := Some 0%Z; inliers := Some 0%Z;
                          median_reproj_err := Some PInf |});
     svd := fun _ => None;
     crop_view := fun i _ _ _ _ => i;
     gray_pixels := fun _ => [200; 250; 30; 255]%Z;
     gray_variance := fun _ => 100 |}.

(** Sample world: a clean 1700 x 2200 scan whose crops are near-white
    throughout. *)
Definition ops_blank_scan : cv_ops unit :=
  {| imdecode := fun _ => Some tt;
     shape := fun _ => (2200, 1700)%Z;
     contour_quad := fun _ => None;
     hough_quad := fun _ => None;
     getPerspectiveTransform := fun _ => eye3;
     safe_inverse := fun H => Some H;
     warp_image_with_H := fun i _ => Some i;
     blank_frac := fun _ => 1;
     resize_to_template := fun i => i;
     residual_mad_of := fun _ => Some 0;
     compute_homography_via_features := fun _ => (None, empty_stats);
     svd := fun _ => None;
     crop_view := fun i _ _ _ _ => i;
     gray_pixels := fun _ => [255; 255; 250; 246]%Z;
     gray_variance := fun _ => 14 |}.

(** The first two rows of the default label table of [read_bboxes]. *)
Definition sample_labels : list bbox_row :=
  [ {| label_name := "Q1"; bbox_x := 100; bbox_y := 200;
       bbox_width := 300; bbox_height := 150; image_name := "template.jpg" |};
    {| label_name := "Q2"; bbox_x := 100; bbox_y := 400;
       bbox_width := 300; bbox_height := 150; image_name := "template.jpg" |} ].
End Segment.

(** ** The standalone aligner: [align_page] (train.py) *)

Module Train.
Local Open Scope R_scope.

Definition A4_W : Z := 2480.
Definition A4_H : Z := 3508.

(** The 4x2 float32 array that the detectors return through
    [order_corners]: (tl, tr, br, bl). *)
Definition quad : Type := Segment.quadR.

(** The message numpy raises with. *)
Definition ambiguous_truth_value : string :=
  "The truth value of an array with more than one element is ambiguous. Use a.any() or a.all()".

(** [bool(x)] for the result of a detector: [None] is false; a numpy array
    of eight elements has no truth value, numpy raises [ValueError]. *)
Definition truth_value (x : option quad) : Py.outcome bool :=
  match x with
  | None => Py.Ok false
  | Some _ => Py.Raised (Py.ValueError ambiguous_truth_value)
  end.

(** [x or y]: [x] when [bool(x)], else [y], which is evaluated only then
    and returned as it is. *)
Definition py_or (x : option quad) (y : unit -> Py.outcome (option quad))
  : Py.outcome (option quad) :=
  match truth_value x with
  | Py.Raised e => Py.Raised e
  | Py.Ok true => Py.Ok x
  | Py.Ok false => y tt
  end.

(** The OpenCV steps. *)
Record cv_ops (Image : Type) : Type := {
  auto_upscale : Image -> Image;
  (** [cv2.cvtColor(remove_glare(to_gray(img)), COLOR_GRAY2BGR)] *)
  preprocess : Image -> Image;
  detect_quad_bright : Image -> option quad;
  detect_quad_lsd : Image -> option quad;
  detect_quad_minrect : Image -> option quad;
  (** [four_point_warp(img, quad, target)] *)
  four_point_warp : Image -> quad -> Z * Z -> Image * Segment.Mat3;
  (** the background normalisation of the warped page (195-199) *)
  flatten_background : Image -> Image;
  (** [warped.shape[:2]]: (height, width) *)
  shape : Image -> Z * Z
}.

Record Meta : Type := {
  meta_w : Z;
  meta_h : Z;
  portrait : bool;
  method : string
}.

Section WithImage.
Context {Image : Type} (cv : cv_ops Image).

(** [quad = detect_quad_bright(pre) or detect_quad_lsd(pre) or
    detect_quad_minrect(pre)] *)
Definition find_quad (pre : Image) : Py.outcome (option quad) :=
  py_or (detect_quad_bright cv pre)
        (fun _ => py_or (detect_quad_lsd cv pre)
                        (fun _ => Py.Ok (detect_quad_minrect cv pre))).

Definition align_page (bgr : Image)
  : Py.outcome (Image * Segment.Mat3 * Meta) :=
  let img := auto_upscale cv bgr in
  let pre := preprocess cv img in
  match find_quad pre with
  | Py.Raised e => Py.Raised e
  | Py.Ok None => Py.Raised (Py.RuntimeError "Page quad not found.")
  | Py.Ok (Some q) =>
      let '(tl, tr, br, bl) := q in
      let wA := Segment.dist bl br in
      let wB := Segment.dist tl tr in
      let hA := Segment.dist br tr in
      let hB := Segment.dist bl tl in
      let portrait := Segment.Rleb (Rmax wA wB) (Rmax hA hB) in
      let target := if portrait then (A4_W, A4_H) else (A4_H, A4_W) in
      let '(warped, H) := four_point_warp cv img q target in
      let warped := flatten_background cv warped in
      Py.Ok (warped, H,
             {| meta_w := snd (shape cv warped);
                meta_h := fst (shape cv warped);
                portrait := portrait;
                method := "bright|lsd|minrect" |})
  end.
End WithImage.

(** Sample detectors on a one-image world: a bright-paper detector that
    finds the page outline, and detectors that all find nothing. *)
Definition page_outline : quad :=
  ((0, 0), (1700, 0), (1700, 2200), (0, 2200)).

Definition ops_bright_finds : cv_ops unit :=
  {| auto_upscale := fun i => i;
     preprocess := fun i => i;
     detect_quad_bright := fun _ => Some page_outline;
     detect_quad_lsd := fun _ => None;
     detect_quad_minrect := fun _ => None;
     four_point_warp := fun i _ _ => (i, Segment.eye3);
     flatten_background := fun i => i;
     shape := fun _ => (A4_H, A4_W) |}.

Definition ops_nothing_found : cv_ops unit :=
  {| auto_upscale := fun i => i;
     preprocess := fun i => i;
     detect_quad_bright := fun _ => None;
     detect_quad_lsd := fun _ => None;
     detect_quad_minrect := fun _ => None;
     four_point_warp := fun i _ _ => (i, Segment.eye3);
     flatten_background := fun i => i;
     shape := fun _ => (A4_H, A4_W) |}.
End Train.


(** ** Further parts of Segment.py *)

Module SegmentMore.
Import Segment.
Local Open Scope R_scope.

(** [quality_metrics['paper_quality']] of [process_single_image]:
    ['Good' if confidence > 0.8 else 'Fair' if confidence > 0.5 else
    'Poor'].  The comparison is the source's; the confidence it receives
    is a double, which this development idealises as a real, so a
    confidence computed to within one unit in the last place of 0.8 or 0.5
    may be graded differently by the program. *)
Definition paper_quality (confidence : R) : string :=
  if Rltb (8 / 10) confidence then "Good"%string
  else if Rltb (5 / 10) confidence then "Fair"%string
       else "Poor"%string.

(** The homography of a similarity: rotation by [theta], uniform scale
    [k], translation [(tx, ty)]. *)
Definition similarity_h (k theta tx ty : R) : Mat3 :=
  {| a00 := k * cos theta; a01 := - (k * sin theta); a02 := tx;
     a10 := k * sin theta; a11 := k * cos theta; a12 := ty;
     a20 := 0; a21 := 0; a22 := 1 |}.

(** Sample data: the SVD numpy returns for twice the identity. *)
Definition double_svd : svd_fn := fun _ => Some (eye2, (2, 2), eye2).

(** The outcomes of the alignment stage, one record for each way it can
    end. *)
Section Outcomes.
Context {Image : Type} (cv : cv_ops Image).

(** The record that a successful document detection leaves. *)
Definition doc_detect_result (q : quadR) (r : R) (Hi : Mat3) (wc : Image)
  : alignment Image :=
  {| al_warped := Some wc;
     al_used_method := Some doc_detect;
     al_H_template_to_img := Some (getPerspectiveTransform cv q);
     al_H_img_to_template := Some Hi;
     al_confidence := compute_alignment_confidence_from_stats empty_stats true r;
     al_doc_area_ratio := r |}.

(** The document detection succeeds on [found]. *)
Definition doc_detect_succeeds (img : Image) (found : option (quadR * R))
           (q : quadR) (r : R) (Hi : Mat3) (wc : Image) : Prop :=
  found = Some (q, r) /\ MIN_DOC_AREA_RATIO < r /\
  safe_inverse cv (getPerspectiveTransform cv q) = Some Hi /\
  warp_image_with_H cv img Hi = Some wc /\
  blank_frac cv wc <= 90 / 100.

(** The record that the resize fallback leaves. *)
Definition resize_result (img : Image) : alignment Image :=
  {| al_warped := Some (resize_to_template cv img);
     al_used_method := Some simple_resize_fallback;
     al_H_template_to_img := None;
     al_H_img_to_template := None;
     al_confidence := 0;
     al_doc_area_ratio := 0 |}.

(** The record that a successful feature homography leaves. *)
Definition feature_result (Ht : Mat3) (stats : Stats) (Hi : Mat3) (wc : Image)
  : alignment Image :=
  {| al_warped := Some wc;
     al_used_method := Some feature_homography;
     al_H_template_to_img := Some Ht;
     al_H_img_to_template := Some Hi;
     al_confidence := compute_alignment_confidence_from_stats stats false 0;
     al_doc_area_ratio := 0 |}.

Definition feature_succeeds (img : Image) (Ht : Mat3) (stats : Stats)
           (Hi : Mat3) (wc : Image) : Prop :=
  compute_homography_via_features cv img = (Some Ht, stats) /\
  safe_inverse cv Ht = Some Hi /\
  warp_image_with_H cv img Hi = Some wc.
End Outcomes.

(** Sample world: a 3400 x 4400 photograph with the page, at the
    template's scale, in its middle: the contour search finds the page
    outline, which covers a quarter of the image. *)
Definition ops_page_in_photo : cv_ops unit :=
  {| imdecode := fun _ => Some tt;
     shape := fun _ => (4400, 3400)%Z;
     contour_quad :=
       fun _ => Some (((850, 1100), (2549, 1100), (2549, 3299), (850, 3299)),
                      1 / 4);
     hough_quad := fun _ => None;
     getPerspectiveTransform := fun _ => similarity_h 1 0 850 1100;
     safe_inverse := fun _ => Some (similarity_h 1 0 (-850) (-1100));
     warp_image_with_H := fun i _ => Some i;
     blank_frac := fun _ => 1 / 2;
     resize_to_template := fun i => i;
     residual_mad_of := fun _ => Some 20;
     compute_homography_via_features := fun _ => (None, empty_stats);
     svd := fun _ => Some (eye2, (1, 1), eye2);
     crop_view := fun i _ _ _ _ => i;
     gray_pixels := fun _ => [200; 250; 30; 255]%Z;
     gray_variance := fun _ => 100 |}.

End SegmentMore.

(** ** The service: [read_bboxes], [crop_questions_from_images] and
       [segment_images] (Segment.py) *)

Module Service.
Import Segment.
Local Open Scope R_scope.

(** [str(n)] for a non-negative integer. *)
Definition str_of_nat (n : nat) : string :=
  NilEmpty.string_of_uint (Nat.to_uint n).

(** *** [read_bboxes] *)

Definition default_row (label : string) (y : Z) : bbox_row :=
  {| label_name := label; bbox_x := 100; bbox_y := y;
     bbox_width := 300; bbox_height := 150;
     image_name := "template.jpg" |}.

(** [default_data], the table returned when the CSV file does not
    exist. *)
Definition default_data : list bbox_row :=
  [ default_row "Q1" 200; default_row "Q2" 400; default_row "Q3" 600;
    default_row "Q4" 800; default_row "Q5" 1000 ].

(** What [pd.read_csv] yields: the column names, stripped, and the rows
    (read through the six required columns when they are there). *)
Record csv_table : Type := {
  columns : list string;
  rows : list bbox_row
}.

Definition required : list string :=
  [ "label_name"; "bbox_x"; "bbox_y"; "bbox_width"; "bbox_height";
    "image_name" ]%string.

(** [read_bboxes(csv_path)]; [csv] is [None] when the path does not
    exist. *)
Definition read_bboxes (csv : option csv_table) : Py.outcome (list bbox_row) :=
  match csv with
  | None => Py.Ok default_data
  | Some df =>
      if forallb (fun c => existsb (String.eqb c) (columns df)) required
      then Py.Ok (rows df)
      else Py.Raised (Py.ValueError "CSV missing required columns")
           (* the message goes on with the columns found *)
  end.

(** The sum of a list of counts. *)
Fixpoint total (l : list nat) : nat :=
  match l with
  | [] => 0%nat
  | n :: t => (n + total t)%nat
  end.

(** *** [crop_questions_from_images] *)

(** [f"{img_idx + 1}.jpg"] *)
Definition page_name (img_idx : nat) : string :=
  String.append (str_of_nat (img_idx + 1)) ".jpg".

(** An entry of [cropped_questions]; [cropped_image] stands for the
    base64 text of the encoded crop. *)
Record CroppedQuestion (Image : Type) : Type := {
  question_name : string;
  page_number : nat;
  original_filename : string;
  cropped_image : Image;
  cq_bbox : Z * Z * Z * Z;
  cq_warnings : list warning
}.

(** The [summary] dict; the two dicts are kept as association lists in
    insertion order. *)
Record CropSummary : Type := {
  total_questions_cropped : nat;
  pages_processed : nat;
  questions_per_page : list (string * nat);
  all_questions : list string;
  image_metadata : list (string * Metadata)
}.

(** An uploaded file: its name, its content type ([None] when the part
    carries none) and its bytes. *)
Record UploadFile : Type := {
  filename : string;
  content_type : option string;
  content : list Byte.byte
}.

(** The exceptions met in the handler. *)
Inductive exn : Type :=
| HTTPException (status_code : Z)
| AttributeError
| PyError (e : Py.error).

Inductive result (A : Type) : Type :=
| Return (a : A)
| Raise (e : exn).
Arguments Return {A} a.
Arguments Raise {A} e.

Section WithImage.
Context {Image : Type} (cv : cv_ops Image).

(** The body of [for _, question_row in page_questions.iterrows()]: the
    entry appended for one label row, if any. *)
Definition crop_question (warped_image : Image) (img_idx : nat)
           (filename : string) (question_row : bbox_row)
  : list (CroppedQuestion Image) :=
  match crop_bbox_from_template_coords cv warped_image question_row 8 with
  | Some crop =>
      let warnings :=
        (if is_mostly_blank cv (Some crop) 245 (98 / 100)
         then [mostly_blank] else [])
        ++ (let var := gray_variance cv crop in
            if Rltb var 20 then [low_variance var] else []) in
      [ {| question_name := label_name question_row;
           page_number := img_idx + 1;
           original_filename := filename;
           cropped_image := crop;
           cq_bbox := (bbox_x question_row, bbox_y question_row,
                       bbox_width question_row, bbox_height question_row);
           cq_warnings := warnings |} ]
  | None => []
  end.

(** [label_df[label_df['image_name'] == page_name]] *)
Definition page_questions (label_df : list bbox_row) (img_idx : nat)
  : list bbox_row :=
  filter (fun row => String.eqb (image_name row) (page_name img_idx)) label_df.

(** The loop [for img_idx, (image, filename) in enumerate(zip(..))], from
    index [img_idx] on, with the two accumulators. *)
Fixpoint crop_pages (label_df : list bbox_row) (img_idx : nat)
         (pages : list (Image * string))
         (cropped_questions : list (CroppedQuestion Image))
         (image_metadata : list (string * Metadata))
  : Py.outcome (list (CroppedQuestion Image) * list (string * Metadata)) :=
  match pages with
  | [] => Py.Ok (cropped_questions, image_metadata)
  | (image, filename) :: rest =>
      match process_single_image_with_alignment cv image with
      | Py.Raised e => Py.Raised e
      | Py.Ok (warped_image, metadata) =>
          crop_pages label_df (S img_idx) rest
            (cropped_questions
             ++ flat_map (crop_question warped_image img_idx filename)
                         (page_questions label_df img_idx))
            (image_metadata ++ [(page_name img_idx, metadata)])
      end
  end.

(** An entry comes from one of the pages [lo + 1 .. hi]: from a label
    row of its page, with a valid crop of an aligned image. *)
Definition from_page (label_df : list bbox_row) (lo hi : nat)
           (q : CroppedQuestion Image) : Prop :=
  (lo < page_number q <= hi)%nat /\
  exists row warped,
    In row label_df /\
    image_name row = page_name (page_number q - 1) /\
    label_name row = question_name q /\
    crop_bbox_from_template_coords cv warped row 8 = Some (cropped_image q).

Definition crop_questions_from_images (csv : option csv_table)
           (image_list : list Image) (filenames : list string)
  : Py.outcome (list (CroppedQuestion Image) * CropSummary) :=
  match read_bboxes csv with
  | Py.Raised _ =>
      (* the message goes on with that of the cause *)
      Py.Raised (Py.ValueError "Could not load question dimensions")
  | Py.Ok label_df =>
      match crop_pages label_df 0 (combine image_list filenames) [] [] with
      | Py.Raised e => Py.Raised e
      | Py.Ok (cropped_questions, image_metadata) =>
          Py.Ok
            (cropped_questions,
             {| total_questions_cropped := length cropped_questions;
                pages_processed := length image_list;
                questions_per_page :=
                  map (fun i =>
                         (String.append "page_" (str_of_nat (i + 1)),
                          length (filter (fun q => page_number q =? i + 1)%nat
                                         cropped_questions)))
                      (seq 0 (length image_list));
                all_questions := map (@question_name Image) cropped_questions;
                image_metadata := image_metadata |})
      end
  end.

(** *** [segment_images] *)

(** The loop [for idx, image in enumerate(images)]. *)
Fixpoint read_images (images : list UploadFile)
         (image_list : list Image) (filenames : list string)
  : result (list Image * list string) :=
  match images with
  | [] => Return (image_list, filenames)
  | image :: rest =>
      match content_type image with
      | None => Raise AttributeError   (* None has no [startswith] *)
      | Some ct =>
          if negb (String.prefix "image/" ct) then Raise (HTTPException 400)
          else
            match imdecode cv (content image) with
            | None => Raise (HTTPException 400)
            | Some img =>
                read_images rest (image_list ++ [img])
                            (filenames ++ [filename image])
            end
      end
  end.

(** An upload that passes the loop: its content type starts with
    "image/" and its bytes decode. *)
Definition good_upload (f : UploadFile) : Prop :=
  exists ct img,
    content_type f = Some ct /\ String.prefix "image/" ct = true /\
    imdecode cv (content f) = Some img.

(** The content of the JSON response. *)
Record Response : Type := {
  success : bool;
  cropped_questions : list (CroppedQuestion Image);
  summary : CropSummary
}.

(** The [try] block of the handler. *)
Definition segment_images_body (csv : option csv_table)
           (images : list UploadFile) : result Response :=
  if negb (length images =? 2)%nat then Raise (HTTPException 400)
  else
    match images with
    | [] => Raise (HTTPException 400)
    | _ :: _ =>
        match read_images images [] [] with
        | Raise e => Raise e
        | Return (image_list, filenames) =>
            match crop_questions_from_images csv image_list filenames with
            | Py.Raised e => Raise (PyError e)
            | Py.Ok (cropped_questions, crop_summary) =>
                Return {| success := true;
                          cropped_questions := cropped_questions;
                          summary := crop_summary |}
            end
        end
    end.

(** [segment_images(images)]: [except Exception] catches whatever the
    block raises, [HTTPException] included, and raises
    [HTTPException(status_code=500)]. *)
Definition segment_images (csv : option csv_table) (images : list UploadFile)
  : result Response :=
  match segment_images_body csv images with
  | Return r => Return r
  | Raise _ => Raise (HTTPException 500)
  end.
End WithImage.

(** Sample uploads: two JPEG files, and a label table with one question
    on each page. *)
Definition sample_upload (name : string) : UploadFile :=
  {| filename := name; content_type := Some "image/jpeg"%string;
     content := [] |}.

Definition sample_table : csv_table :=
  {| columns := required;
     rows :=
       [ {| label_name := "Q1"; bbox_x := 100; bbox_y := 200;
            bbox_width := 300; bbox_height := 150; image_name := "1.jpg" |};
         {| label_name := "Q2"; bbox_x := 100; bbox_y := 400;
            bbox_width := 300; bbox_height := 150; image_name := "2.jpg" |};
         {| label_name := "Q3"; bbox_x := 100; bbox_y := 600;
            bbox_width := 300; bbox_height := 150; image_name := "3.jpg" |} ] |}.
End Service.

(** ** Further parts of model.py *)

Module RowsMore.
Import Rows.
Local Open Scope Z_scope.

(** A box spans the full width [W], lies between row 0 and row [H - 1],
    and is at least [m] pixels tall. *)
Definition in_frame (H W m : Z) (b : bbox) : Prop :=
  let '(x, y, w, h) := b in
  x = 0 /\ w = W /\ 0 <= y /\ y + h <= H - 1 /\ m <= h.

(** The same after the cutoff loop: a row that starts at the cutoff [tc]
    may have been truncated. *)
Definition in_frame_cut (H W m tc : Z) (b : bbox) : Prop :=
  let '(x, y, w, h) := b in
  x = 0 /\ w = W /\ y + h <= H - 1 /\ (tc < y -> m <= h).

(** Sample world: a 200-row, 100-column page with ink in rows 20..79 and
    120..179, 30 units each. *)
Definition ops_two_bands : cv_ops unit :=
  {| width := fun _ => 100;
     ink_projection :=
       fun _ _ => repeat 0 20 ++ repeat 30 60 ++ repeat 0 40
                  ++ repeat 30 60 ++ repeat 0 20;
     nearest_box := fun _ _ _ => None |}.
End RowsMore.

Module FinalCropMore.
Import FinalCrop.
Local Open Scope Z_scope.

(** Sample world: a 1000 x 1500 page with ink between rows 300 and 1200
    and columns 100 and 900, on which no paper contour is found. *)
Definition ops_ink_only : cv_ops unit :=
  {| shape := fun _ => (1500, 1000);
     ink_rows := fun _ => [300; 301; 1200];
     ink_cols := fun _ => [100; 900];
     paper_box := fun _ => None |}.
End FinalCropMore.

Module Band.
Import Rows.
Local Open Scope Z_scope.

(** A contour as the loop of [find_answer_band] sees it: its bounding
    rectangle ([cv2.boundingRect], so [w, h >= 1]) and the number of
    vertices of its polygon approximation ([len(approx)]). *)
Record contour : Type := {
  rect : bbox;
  approx_len : nat
}.

(** The test of the loop body on whole pixel numbers:
    [w*h < 150 or w*h > W*H*0.02] skips the contour, then
    [0.75 <= w/float(h) <= 1.25] and [len(approx) == 4] keep it. *)
Definition is_square (W H : Z) (c : contour) : bool :=
  let '(x, y, w, h) := rect c in
  if ((w * h <? 150) || (W * H * 2 <? w * h * 100))%bool then false
  else ((3 * h <=? 4 * w) && (4 * w <=? 5 * h)
        && (approx_len c =? 4)%nat)%bool.

(** [max(...)] and [min(...)] over a generator with first value [d]. *)
Definition max_of (d : Z) (l : list Z) : Z := fold_left Z.max l d.
Definition min_of (d : Z) (l : list Z) : Z := fold_left Z.min l d.

(** [find_answer_band] on the image size and the contours found;
    [int(W*0.72)] and the like are the integer parts of the exact
    products. *)
Definition find_answer_band (W H : Z) (cnts : list contour) : bbox :=
  let squares := map rect (filter (is_square W H) cnts) in
  match squares with
  | [] => (72 * W / 100, 15 * H / 100, 26 * W / 100, 73 * H / 100)
  | (x0, y0, w0, h0) :: rest =>
      let xs := map (fun '(x, _, _, _) => x) rest in
      let ys := map (fun '(_, y, _, _) => y) rest in
      let bs := map (fun '(_, y, _, h) => y + h) rest in
      let right := Z.min (W - 1) (max_of x0 xs + 40) in
      let left := Z.max 0 (min_of x0 xs - 40) in
      let top := Z.max 0 (min_of y0 ys - 40) in
      let bot := Z.min (H - 1) (max_of (y0 + h0) bs + 40) in
      (left, top, right - left, bot - top)
  end.

(** A bounding rectangle lies inside a [W] x [H] image. *)
Definition inside (W H : Z) (b : bbox) : Prop :=
  let '(x, y, w, h) := b in
  0 <= x /\ 0 <= y /\ 0 < w /\ 0 < h /\ x + w <= W /\ y + h <= H.

(** The duplicate filter at the end of
    [candidate_quads_from_mask_and_edges]: [key] of a bounding
    rectangle, and the loop over [quads] with its two variables. *)
Definition key : Type := (Z * Z * Z * Z)%type.

Definition key_of (b : bbox) : key :=
  let '(x, y, w, h) := b in (x / 20, y / 20, w / 20, h / 20).

Definition key_eqb (a b : key) : bool :=
  let '(a1, a2, a3, a4) := a in
  let '(b1, b2, b3, b4) := b in
  ((a1 =? b1) && (a2 =? b2) && (a3 =? b3) && (a4 =? b4))%bool.

(** [l1] is [l2] with some elements left out, the order kept. *)
Inductive subseq {A : Type} : list A -> list A -> Prop :=
| subseq_nil : subseq [] []
| subseq_skip : forall x l1 l2, subseq l1 l2 -> subseq l1 (x :: l2)
| subseq_keep : forall x l1 l2, subseq l1 l2 -> subseq (x :: l1) (x :: l2).

Section Dedupe.
Context {Quad : Type} (boundingRect : Quad -> bbox).

Definition dedupe_step (st : list Quad * list key) (q : Quad)
  : list Quad * list key :=
  let '(uniq, seen) := st in
  let k := key_of (boundingRect q) in
  if existsb (key_eqb k) seen then (uniq, seen)
  else (uniq ++ [q], k :: seen).

Definition dedupe (quads : list Quad) : list Quad :=
  fst (fold_left dedupe_step quads ([], [])).
End Dedupe.
End Band.

Module Deskew.
Local Open Scope Z_scope.

(** [np.argmax] on a float array: the position of the first occurrence
    of the maximum.  [best] is the greatest value seen so far, at position
    [besti]; [i] is the position of the head of [l]. *)
Fixpoint argmax_from (best : Q) (besti i : nat) (l : list Q) : nat :=
  match l with
  | [] => besti
  | x :: t =>
      if negb (Qle_bool x best) then argmax_from x i (S i) t
      else argmax_from best besti (S i) t
  end.

(** [np.linspace(-angle_range, angle_range, 2*angle_range + 1)]: the whole
    degrees from [-angle_range] to [angle_range]. *)
Definition thetas (angle_range : Z) : list Z :=
  map (fun i => - angle_range + Z.of_nat i)
      (seq 0 (Z.to_nat (2 * angle_range + 1))).

(** The pixel-level steps of [radon_deskew]. *)
Record cv_ops (Image : Type) : Type := {
  (** [float(np.var(radon(sb, [t], circle=False)))] for the binarised,
      reduced copy [sb] of the image *)
  radon_var : Image -> Z -> Q;
  (** [sk_rotate(gray, angle, preserve_range=True, order=1,
      mode="edge").astype(np.uint8)] *)
  sk_rotate : Image -> Z -> Image
}.

(** [radon_deskew(gray, angle_range)] on a non-empty image: the rotated
    image and the angle [best].  A negative [angle_range] makes
    [np.linspace] raise (its message names the number of samples). *)
Definition radon_deskew {Image : Type} (cv : cv_ops Image) (gray : Image)
           (angle_range : Z) : Py.outcome (Image * Z) :=
  if angle_range <? 0 then
    Py.Raised (Py.ValueError "Number of samples must be non-negative")
  else
    let ts := thetas angle_range in
    match map (radon_var cv gray) ts with
    | [] => Py.Raised (Py.ValueError "attempt to get argmax of an empty sequence")
    | s0 :: scores =>
        let best := nth (argmax_from s0 0 1 scores) ts 0 in
        Py.Ok (sk_rotate cv gray (- best), best)
    end.

(** Sample world: the variance of the projection peaks at 3 degrees. *)
Definition ops_tilted : cv_ops unit :=
  {| radon_var := fun _ t => inject_Z (100 - Z.abs (t - 3));
     sk_rotate := fun i _ => i |}.
End Deskew.

Module BestWarp.
Local Open Scope Z_scope.

(** The steps of [best_warp] on pixels, for the candidate type [Quad] and
    the result type [Warp] (the triple [(wr, wg, q_ref)]). *)
Record cv_ops (Image Quad Warp : Type) : Type := {
  (** [candidate_quads_from_mask_and_edges(rgb, gray)] *)
  candidates : Image -> list Quad;
  (** [s = rscore * cov_penalty], the layout score of a candidate *)
  layout_score : Image -> Quad -> Q;
  (** [(wr, wg, q_ref)] for a candidate *)
  warp_of : Image -> Quad -> Warp;
  (** [total = sharp * (1.0 + 0.3*s)] for the warp of a candidate *)
  total_of : Image -> Quad -> Q
}.

(** What the function returns: the copies of the input with no quad
    (branch "no_quad"), a warp (branch "multiquad"), or the [TypeError] of
    unpacking [best = None]. *)
Inductive result (Quad Warp : Type) : Type :=
| NoQuad
| Multiquad (q : Quad) (w : Warp)
| TypeError.
Arguments NoQuad {Quad Warp}.
Arguments Multiquad {Quad Warp} q w.
Arguments TypeError {Quad Warp}.

Section WithImage.
Context {Image Quad Warp : Type} (cv : cv_ops Image Quad Warp).

(** [scored.sort(key=lambda z: z[0], reverse=True)]: a stable sort,
    greatest score first. *)
Fixpoint insert_desc (key : Quad -> Q) (x : Quad) (l : list Quad)
  : list Quad :=
  match l with
  | [] => [x]
  | y :: t =>
      if Qle_bool (key y) (key x) then x :: y :: t
      else y :: insert_desc key x t
  end.

Definition sort_desc (key : Quad -> Q) (l : list Quad) : list Quad :=
  fold_right (insert_desc key) [] l.

(** One iteration of [for s, q, cov, rscore in top]; the state is
    [(best, best_val)]. *)
Definition pick_step (rgb : Image) (st : option Quad * Q) (q : Quad)
  : option Quad * Q :=
  let total := total_of cv rgb q in
  if negb (Qle_bool total (snd st)) then (Some q, total) else st.

Definition best_warp (rgb : Image) : result Quad Warp :=
  match candidates cv rgb with
  | [] => NoQuad
  | _ :: _ =>
      let scored := sort_desc (layout_score cv rgb) (candidates cv rgb) in
      let top := firstn 4 scored in
      match fst (fold_left (pick_step rgb) top
                           (None, inject_Z (- 1000000000))) with
      | Some q => Multiquad q (warp_of cv rgb q)
      | None => TypeError
      end
  end.
End WithImage.

(** Sample world: five candidates, numbered; the layout score falls with
    the number, and the third gives the sharpest warp. *)
Definition ops_five : cv_ops unit Z Z :=
  {| candidates := fun _ => [1; 2; 3; 4; 5];
     layout_score := fun _ q => inject_Z (10 - q);
     warp_of := fun _ q => q;
     total_of := fun _ q => inject_Z (50 - Z.abs (q - 3)) |}.
End BestWarp.

Module Canon.
Import Rows.
Local Open Scope Z_scope.

(** The steps of [canonicalize] on pixels. *)
Record cv_ops (Image : Type) : Type := {
  (** [g.shape]: (H, W) *)
  shape : Image -> Z * Z;
  (** [find_answer_band(g)] for the grey version [g] of the image *)
  answer_band : Image -> bbox;
  (** [cv2.rotate(rgb, cv2.ROTATE_90_COUNTERCLOCKWISE)] *)
  rotate_90 : Image -> Image;
  (** [cv2.rotate(rgb, cv2.ROTATE_180)] *)
  rotate_180 : Image -> Image
}.

(** What one pass of the loop body does. *)
Inductive step (Image : Type) : Type :=
| Continue (rgb : Image)
| Return (rgb : Image).

Section WithImage.
Context {Image : Type} (cv : cv_ops Image).

(** The loop body; [cx < W*0.5] with [cx = bx + bw/2.0] is
    [2*bx + bw < W] on whole numbers. *)
Definition canon_body (rgb : Image) : step Image :=
  let '(bx, by_, bw, bh) := answer_band cv rgb in
  let '(H, W) := shape cv rgb in
  if H <? W then Continue (rotate_90 cv rgb)
  else if 2 * bx + bw <? W then Continue (rotate_180 cv rgb)
       else Return rgb.

(** [for _ in range(n)], followed by the final [return rgb]. *)
Fixpoint canon_loop (n : nat) (rgb : Image) : Image :=
  match n with
  | O => rgb
  | S k =>
      match canon_body rgb with
      | Continue rgb' => canon_loop k rgb'
      | Return rgb' => rgb'
      end
  end.

Definition canonicalize (rgb : Image) : Image := canon_loop 4 rgb.

(** The image is not wider than it is tall. *)
Definition portrait (i : Image) : Prop := snd (shape cv i) <= fst (shape cv i).
End WithImage.

(** Sample world: an image is its size and the band found in it; the
    rotations exchange or keep the sides and leave the band where it
    was. *)
Definition ops_sizes : cv_ops (Z * Z * bbox) :=
  {| shape := fun i => fst i;
     answer_band := fun i => snd i;
     rotate_90 := fun i => ((snd (fst i), fst (fst i)), snd i);
     rotate_180 := fun i => i |}.
End Canon.

(** ** [json_serialize] (Segment.py) *)

Module Json.

(** The Python values the function tells apart.  An [ndarray] is given
    with the value of its [tolist()]. *)
Unset Elimination Schemes.
Inductive pyobj : Type :=
| PNone
| PBool (b : bool)
| PInt (n : Z)
| PFloat (x : Q)
| PStr (s : string)
| NpInteger (n : Z)
| NpFloating (x : Q)
| NpBool (b : bool)
| NdArray (tolist : pyobj)
| PDict (items : list (string * pyobj))
| PList (items : list pyobj)
| PTuple (items : list pyobj).
Set Elimination Schemes.

Fixpoint json_serialize (obj : pyobj) : pyobj :=
  match obj with
  | NpInteger n => PInt n
  | NpFloating x => PFloat x
  | NdArray tolist => tolist
  | NpBool b => PBool b
  | PBool b => PBool b
  | PDict items =>
      PDict (map (fun kv => let '(k, v) := kv in (k, json_serialize v)) items)
  | PList items => PList (map json_serialize items)
  | other => other
  end.

(** A value holds Python scalars, lists, dicts and tuples only: nothing
    of numpy. *)
Fixpoint native (obj : pyobj) : bool :=
  match obj with
  | PNone | PBool _ | PInt _ | PFloat _ | PStr _ => true
  | NpInteger _ | NpFloating _ | NpBool _ | NdArray _ => false
  | PDict items => forallb (fun kv => let '(k, v) := kv in native v) items
  | PList items => forallb native items
  | PTuple items => forallb native items
  end.

(** Every array in the value lists native values (what [tolist()] gives
    for the numeric arrays of the service), and numpy values occur under
    lists and dicts only, not inside tuples. *)
Fixpoint convertible (obj : pyobj) : bool :=
  match obj with
  | NdArray tolist => native tolist
  | PDict items => forallb (fun kv => let '(k, v) := kv in convertible v) items
  | PList items => forallb convertible items
  | PTuple items => forallb native items
  | _ => true
  end.
End Json.

(** ** Further parts of train.py *)

Module TrainMore.
Import Segment.
Local Open Scope R_scope.

(** [intersect(p1, p2, p3, p4)]: the intersection of the line through
    [p1], [p2] with the line through [p3], [p4]; the float32 arithmetic
    is taken on reals. *)
Definition intersect (p1 p2 p3 p4 : pointR) : option pointR :=
  let '(x1, y1) := p1 in
  let '(x2, y2) := p2 in
  let '(x3, y3) := p3 in
  let '(x4, y4) := p4 in
  let den := (x1 - x2) * (y3 - y4) - (y1 - y2) * (x3 - x4) in
  if Rltb (Rabs den) (1 / 10 ^ 6) then None
  else
    let px := ((x1 * y2 - y1 * x2) * (x3 - x4)
               - (x1 - x2) * (x3 * y4 - y3 * x4)) / den in
    let py := ((x1 * y2 - y1 * x2) * (y3 - y4)
               - (y1 - y2) * (x3 * y4 - y3 * x4)) / den in
    Some (px, py).

(** The point [p] lies on the line through [a] and [b]. *)
Definition on_line (a b p : pointR) : Prop :=
  (fst p - fst a) * (snd b - snd a) = (snd p - snd a) * (fst b - fst a).

(** The sorting of the detected segments in [detect_quad_lsd] (lines
    115-119): into [Hs], into [Vs], or into neither. *)
Inductive seg_class : Type :=
| Horizontal
| Vertical
| Dropped.

Definition classify (x1 y1 x2 y2 : R) : seg_class :=
  let ang := degrees (atan2 (y2 - y1) (x2 - x1)) in
  if Rltb (Rabs ang) 20 then Horizontal
  else if Rltb (Rabs (Rabs ang - 90)) 20 then Vertical
       else Dropped.
End TrainMore.
(* ================================================================== *)
(** * Part II: properties *)
(* ================================================================== *)

(** Case analysis on the comparisons hidden in [Rmin], [Rmax] and the
    boolean tests on reals, innermost first, then linear arithmetic. *)
Ltac destruct_Rdec :=
  repeat match goal with
         | |- context [Rle_dec ?a ?b] =>
             lazymatch a with
             | context [Rle_dec _ _] => fail
             | context [Rlt_dec _ _] => fail
             | _ => lazymatch b with
                    | context [Rle_dec _ _] => fail
                    | context [Rlt_dec _ _] => fail
                    | _ => destruct (Rle_dec a b)
                    end
             end
         | |- context [Rlt_dec ?a ?b] =>
             lazymatch a with
             | context [Rle_dec _ _] => fail
             | context [Rlt_dec _ _] => fail
             | _ => lazymatch b with
                    | context [Rle_dec _ _] => fail
                    | context [Rlt_dec _ _] => fail
                    | _ => destruct (Rlt_dec a b)
                    end
             end
         end.

Section CornerFacts.
Import Corners.
Local Open Scope Z_scope.

Lemma argmin_from_spec (key : point -> Z) :
  forall (t : list point) (pre : list point) (b : point) besti,
      nth_error (pre ++ t) besti = Some b ->
      (forall q, In q pre -> key b <= key q) ->
      exists p,
        nth_error (pre ++ t)
          (argmin_from (key b) besti (length pre) (map key t)) = Some p
        /\ (forall q, In q (pre ++ t) -> key p <= key q).
Proof.
  induction t as [|x t IH]; intros pre b besti Hb Hmin; simpl.
  - exists b. split; [exact Hb|]. rewrite app_nil_r. exact Hmin.
  - replace (pre ++ x :: t) with ((pre ++ [x]) ++ t) in *
      by (rewrite <- app_assoc; reflexivity).
    replace (S (length pre)) with (length (pre ++ [x]))
      by (rewrite length_app; simpl; lia).
    destruct (key x <? key b) eqn:E.
    + apply Z.ltb_lt in E.
      apply IH.
      * rewrite nth_error_app1 by (rewrite length_app; simpl; lia).
        rewrite nth_error_app2 by lia.
        rewrite Nat.sub_diag. reflexivity.
      * intros q Hq. apply in_app_or in Hq. destruct Hq as [Hq|[<-|[]]].
        -- specialize (Hmin q Hq). lia.
        -- lia.
    + apply Z.ltb_ge in E.
      apply IH; [exact Hb|].
      intros q Hq. apply in_app_or in Hq. destruct Hq as [Hq|[<-|[]]].
      * apply Hmin, Hq.
      * exact E.
Qed.

Lemma pick_argmin_min (key : point -> Z) (pts : list point) :
  pts <> [] ->
  exists p, pick argmin (map key pts) pts = Some p /\ is_min_of key pts p.
Proof.
  destruct pts as [|b t]; [congruence|]. intros _.
  unfold pick, argmin. simpl map.
  destruct (@argmin_from_spec key t [b] b 0%nat eq_refl) as (p & Hp & Hm).
  { intros q [<-|[]]. lia. }
  exists p. split; [exact Hp|]. split; [|exact Hm].
  eapply nth_error_In, Hp.
Qed.

Lemma argmax_from_opp :
  forall l best besti i,
    argmax_from best besti i l =
    argmin_from (- best) besti i (map Z.opp l).
Proof.
  induction l as [|x t IH]; intros; simpl; [reflexivity|].
  rewrite !IH.
  destruct (best <? x) eqn:E1, (- x <? - best) eqn:E2; try reflexivity.
  - apply Z.ltb_lt in E1. apply Z.ltb_ge in E2. lia.
  - apply Z.ltb_ge in E1. apply Z.ltb_lt in E2. lia.
Qed.

Lemma pick_argmax_max (key : point -> Z) (pts : list point) :
  pts <> [] ->
  exists p, pick argmax (map key pts) pts = Some p /\ is_max_of key pts p.
Proof.
  intros Hne.
  destruct (@pick_argmin_min (fun q => - key q) pts Hne) as (p & Hp & Hin & Hm).
  exists p. split.
  - destruct pts as [|b t]; [congruence|].
    unfold pick, argmax, argmin in *. cbn [map] in *.
    rewrite argmax_from_opp, map_map. exact Hp.
  - split; [exact Hin|]. intros q Hq. specialize (Hm q Hq). simpl in Hm. lia.
Qed.

Lemma is_min_of_perm key pts pts' p :
  Permutation pts pts' -> is_min_of key pts p -> is_min_of key pts' p.
Proof.
  intros HP [Hin Hm]. split.
  - eapply Permutation_in; eauto.
  - intros q Hq. apply Hm. eapply Permutation_in; [apply Permutation_sym|]; eauto.
Qed.

Lemma is_max_of_perm key pts pts' p :
  Permutation pts pts' -> is_max_of key pts p -> is_max_of key pts' p.
Proof.
  intros HP [Hin Hm]. split.
  - eapply Permutation_in; eauto.
  - intros q Hq. apply Hm. eapply Permutation_in; [apply Permutation_sym|]; eauto.
Qed.
(** *** The arithmetic of the two dtypes *)

(** A difference within the int32 range is exact; one beyond it wraps. *)
Lemma wrap_int32_exact z : - 2 ^ 31 <= z < 2 ^ 31 -> wrap_int32 z = z.
Proof.
  intros H. unfold wrap_int32. rewrite Z.mod_small; lia.
Qed.

Lemma wrap_int32_wraps :
  wrap_int32 (2 ^ 31) = - 2 ^ 31 /\ wrap_int32 (- 2 ^ 31 - 1) = 2 ^ 31 - 1.
Proof. split; vm_compute; reflexivity. Qed.

(** A float32 result of at most 24 bits is exact. *)
Lemma round_float32_exact z : Z.abs z < 2 ^ 24 -> round_float32 z = z.
Proof.
  intros H. unfold round_float32. cbv zeta.
  destruct (Z.log2 (Z.abs z) - 23 <=? 0) eqn:E; [reflexivity|].
  apply Z.leb_gt in E. exfalso.
  assert (Z.log2 (Z.abs z) < 24).
  { destruct (Z.eq_dec (Z.abs z) 0) as [->|N]; [simpl; lia|].
    apply Z.log2_lt_pow2; lia. }
  lia.
Qed.

(** [round_float32] rounds to the nearest float32, ties to even: where the
    exact result [z] needs more than 24 bits and the rounded one stays
    finite, the result is a multiple [q * 2^e] of the weight [2^e] of the
    24th bit of [z], with [q] of 24 bits (or 2^24, the next power of
    two), no multiple of [2^e] is nearer to [z], and on a tie [q] is
    even. *)
Lemma round_float32_nearest z :
  let a := Z.abs z in
  let e := Z.log2 a - 23 in
  0 < e -> a < 2 ^ 277 - 2 ^ 252 ->
  exists q : Z,
    round_float32 z = Z.sgn z * (q * 2 ^ e) /\
    2 ^ 23 <= q <= 2 ^ 24 /\
    (forall k : Z, Z.abs (q * 2 ^ e - a) <= Z.abs (k * 2 ^ e - a)) /\
    (2 * Z.abs (q * 2 ^ e - a) = 2 ^ e -> Z.even q = true).
Proof.
  intros a e He Ha.
  assert (Hapos : 0 < a).
  { destruct (Z.eq_dec a 0) as [E|N]; [|lia].
    unfold e in He. rewrite E in He. simpl in He. lia. }
  pose proof (Z.log2_spec a Hapos) as [L1 L2].
  set (l := Z.log2 a) in *.
  assert (El : l = e + 23) by (unfold e; lia).
  set (P := 2 ^ e).
  assert (HP : 0 < P) by (apply Z.pow_pos_nonneg; lia).
  assert (Ehalf : Z.shiftl 1 (e - 1) * 2 = P).
  { rewrite Z.shiftl_mul_pow2 by lia. unfold P.
    replace e with (Z.succ (e - 1)) at 2 by lia.
    rewrite Z.pow_succ_r by lia. lia. }
  set (half := Z.shiftl 1 (e - 1)) in *.
  assert (Eq : Z.shiftr a e = a / P) by (apply Z.shiftr_div_pow2; lia).
  assert (Er : Z.land a (Z.ones e) = a mod P) by (apply Z.land_ones; lia).
  pose proof (Z.div_mod a P ltac:(lia)) as Hdm.
  pose proof (Z.mod_pos_bound a P HP) as Hr.
  set (q := a / P) in *. set (r := a mod P) in *.
  clearbody q r.
  assert (Hq : 2 ^ 23 <= q < 2 ^ 24).
  { rewrite El in L1, L2.
    replace (Z.succ (e + 23)) with (24 + e) in L2 by lia.
    rewrite Z.add_comm in L1.
    rewrite Z.pow_add_r in L1, L2 by lia. fold P in L1, L2.
    split.
    - destruct (Z_lt_ge_dec q (2 ^ 23)) as [C|C]; [exfalso|lia].
      assert (P * q <= P * (2 ^ 23 - 1))
        by (apply Z.mul_le_mono_nonneg_l; lia).
      lia.
    - destruct (Z_lt_ge_dec q (2 ^ 24)) as [C|C]; [lia|exfalso].
      assert (P * 2 ^ 24 <= P * q)
        by (apply Z.mul_le_mono_nonneg_l; lia).
      lia. }
  unfold round_float32. cbv zeta.
  change (Z.log2 (Z.abs z) - 23) with e. change (Z.abs z) with a.
  destruct (e <=? 0) eqn:E0; [apply Z.leb_le in E0; lia|].
  rewrite Eq, Er. change (Z.shiftl 1 (e - 1)) with half.
  set (up := ((half <? r) || ((r =? half) && Z.odd q))%bool).
  assert (Hnear : forall q' : Z,
             (q' = q /\ 2 * r <= P /\ (2 * r = P -> Z.even q = true))
             \/ (q' = q + 1 /\ P <= 2 * r /\ (2 * r = P -> Z.even (q + 1) = true)) ->
             (forall k : Z, Z.abs (q' * P - a) <= Z.abs (k * P - a)) /\
             (2 * Z.abs (q' * P - a) = P -> Z.even q' = true)).
  { intros q' [(-> & Hle & Hev)|(-> & Hle & Hev)].
    - split.
      + intros k. destruct (Z_le_gt_dec k q).
        * assert (k * P <= q * P) by (apply Z.mul_le_mono_nonneg_r; lia). lia.
        * assert ((q + 1) * P <= k * P) by (apply Z.mul_le_mono_nonneg_r; lia).
          lia.
      + intros H. apply Hev. lia.
    - split.
      + intros k. destruct (Z_le_gt_dec k q).
        * assert (k * P <= q * P) by (apply Z.mul_le_mono_nonneg_r; lia). lia.
        * assert ((q + 1) * P <= k * P) by (apply Z.mul_le_mono_nonneg_r; lia).
          lia.
      + intros H. apply Hev. lia. }
  assert (HP253 : P <= 2 ^ 253).
  { unfold P. apply Z.pow_le_mono_r; [lia|].
    assert (l < 277); [|lia].
    apply Z.log2_lt_pow2; [lia|]. lia. }
  assert (Hno : forall q',
             q' = q \/ (q' = q + 1 /\ P <= 2 * r) ->
             (FLOAT32_INF <=? Z.shiftl q' e) = false).
  { intros q' Hq'. apply Z.leb_gt. rewrite Z.shiftl_mul_pow2 by lia.
    change (2 ^ e) with P. unfold FLOAT32_INF.
    destruct Hq' as [->|[-> Hup]]; lia. }
  destruct up eqn:Eup.
  - assert (Hup : P <= 2 * r /\ (2 * r = P -> Z.even (q + 1) = true)).
    { unfold up in Eup. apply orb_true_iff in Eup.
      destruct Eup as [Eup|Eup].
      + apply Z.ltb_lt in Eup. split; [lia|]. intros; lia.
      + apply andb_true_iff in Eup. destruct Eup as [E1 E2].
        apply Z.eqb_eq in E1. split; [lia|]. intros _.
        rewrite Z.even_add. rewrite <- Z.negb_odd, E2. reflexivity. }
    exists (q + 1). rewrite Hno by (right; split; [reflexivity|tauto]).
    rewrite Z.shiftl_mul_pow2 by lia. change (2 ^ e) with P.
    split; [reflexivity|]. split; [lia|].
    apply Hnear. right. split; [reflexivity|exact Hup].
  - exists q. rewrite Hno by (left; reflexivity).
    rewrite Z.shiftl_mul_pow2 by lia. change (2 ^ e) with P.
    split; [reflexivity|]. split; [lia|].
    apply Hnear. left. split; [reflexivity|].
    unfold up in Eup. apply orb_false_iff in Eup.
    destruct Eup as [E1 E2]. apply Z.ltb_ge in E1.
    split; [lia|]. intros Hh.
    apply andb_false_iff in E2. destruct E2 as [E2|E2].
    + apply Z.eqb_neq in E2. lia.
    + rewrite <- Z.negb_odd, E2. reflexivity.
Qed.

(** 2^24 + 1 and 2^24 + 3 lie half way between two float32 and go to the
    even neighbour; a quarter of the last bit of 2048 is rounded away; the
    largest finite float32 plus half its last bit overflows. *)
Lemma round_float32_examples :
  round_float32 (2 ^ 24 + 1) = 2 ^ 24
  /\ round_float32 (2 ^ 24 + 3) = 2 ^ 24 + 4
  /\ round_float32 (- (2 ^ 24 + 3)) = - (2 ^ 24 + 4)
  /\ round_float32 (px 2048 + 2 ^ 135) = px 2048
  /\ round_float32 (2 ^ 277 - 2 ^ 252 - 1) = 2 ^ 277 - 2 ^ 253
  /\ round_float32 (2 ^ 277 - 2 ^ 252) = FLOAT32_INF.
Proof. repeat split; vm_compute; reflexivity. Qed.
End CornerFacts.

Section CornerOrder.
Import Corners.
Local Open Scope Z_scope.

Lemma order_points_extremes (d : dtype) (pts : list point) :
  pts <> [] ->
  exists tl tr br bl,
    order_points d pts = Some (tl, tr, br, bl) /\
    order_corners d pts = Some (tl, tr, br, bl) /\
    is_min_of (ksum d) pts tl /\ is_max_of (ksum d) pts br /\
    is_min_of (kdiff d) pts tr /\ is_max_of (kdiff d) pts bl.
Proof.
  intros Hne.
  destruct (@pick_argmin_min (ksum d) pts Hne) as (tl & Htl & Mtl).
  destruct (@pick_argmax_max (ksum d) pts Hne) as (br & Hbr & Mbr).
  destruct (@pick_argmin_min (kdiff d) pts Hne) as (tr & Htr & Mtr).
  destruct (@pick_argmax_max (kdiff d) pts Hne) as (bl & Hbl & Mbl).
  exists tl, tr, br, bl.
  unfold order_points, order_corners, sum_axis1, diff_axis1. cbv zeta.
  rewrite Htl, Hbr, Htr, Hbl.
  split; [reflexivity|]. split; [reflexivity|]. tauto.
Qed.

(** C3, as amended: for int32 and for float32 input alike, when each of
    the four extremes (least and greatest x+y, least and greatest y-x),
    taken over the sums and differences as numpy computes them in that
    dtype, is attained by one point only, [order_points] and
    [order_corners] return the same quadruple (top-left, top-right,
    bottom-right, bottom-left) for every reordering of the four input
    points; top-left minimises the computed x+y, bottom-right maximises
    it, top-right minimises the computed y-x, bottom-left maximises it. *)
Theorem order_points_permutation_invariant :
  forall (d : dtype) (pts pts' : list point),
    length pts = 4%nat ->
    Permutation pts pts' ->
    unique_min (ksum d) pts -> unique_max (ksum d) pts ->
    unique_min (kdiff d) pts -> unique_max (kdiff d) pts ->
    exists tl tr br bl,
      order_points d pts = Some (tl, tr, br, bl) /\
      order_points d pts' = Some (tl, tr, br, bl) /\
      order_corners d pts = Some (tl, tr, br, bl) /\
      order_corners d pts' = Some (tl, tr, br, bl) /\
      is_min_of (ksum d) pts tl /\ is_max_of (ksum d) pts br /\
      is_min_of (kdiff d) pts tr /\ is_max_of (kdiff d) pts bl.
Proof.
  intros d pts pts' Hlen HP Us1 Us2 Ud1 Ud2.
  assert (Hne : pts <> []) by (destruct pts; [discriminate|congruence]).
  assert (Hne' : pts' <> []).
  { intros ->. apply Permutation_sym, Permutation_nil in HP. contradiction. }
  destruct (order_points_extremes d Hne)
    as (tl & tr & br & bl & E1 & E2 & Mtl & Mbr & Mtr & Mbl).
  destruct (order_points_extremes d Hne')
    as (tl' & tr' & br' & bl' & E1' & E2' & Mtl' & Mbr' & Mtr' & Mbl').
  pose proof (Permutation_sym HP) as HP'.
  assert (tl' = tl) as -> by (apply Us1; eauto using is_min_of_perm).
  assert (br' = br) as -> by (apply Us2; eauto using is_max_of_perm).
  assert (tr' = tr) as -> by (apply Ud1; eauto using is_min_of_perm).
  assert (bl' = bl) as -> by (apply Ud2; eauto using is_max_of_perm).
  exists tl, tr, br, bl. tauto.
Qed.

(** Decides uniqueness of an extreme on a concrete list of points: two
    different points cannot both be extreme, since one of them is beaten
    by some point of the list. *)
Ltac beaten M l :=
  lazymatch l with
  | ?x :: ?t =>
      first [ let T := fresh in
              pose proof (M x ltac:(simpl; tauto)) as T;
              apply Z.leb_le in T; vm_compute in T; discriminate T
            | beaten M t ]
  end.

(** Two concrete points differ in a coordinate. *)
Ltac differ C :=
  exfalso;
  let C1 := fresh in
  let C2 := fresh in
  pose proof (f_equal fst C) as C1; pose proof (f_equal snd C) as C2;
  vm_compute in C1, C2; first [discriminate C1|discriminate C2].

Ltac solve_unique :=
  intros p q [Hp Mp] [Hq Mq];
  match type of Hp with
  | In _ ?l =>
      let l' := eval hnf in l in
      simpl in Hp, Hq;
      repeat match goal with
             | H : _ \/ _ |- _ => destruct H as [H|H]
             | H : False |- _ => destruct H
             end; subst; try reflexivity; exfalso;
      first [beaten Mp l'|beaten Mq l']
  end.

(** A slightly skewed page outline, given in two different orders. *)
Lemma order_points_permutation_invariant_witness :
  exists q,
    order_points int32 [(1650, 2200); (0, 0); (30, 2150); (1700, 40)]
    = Some q /\
    order_corners int32 skewed_page = Some q /\
    q = ((0, 0), (1700, 40), (1650, 2200), (30, 2150)).
Proof.
  destruct (@order_points_permutation_invariant int32
              skewed_page
              [(1650, 2200); (0, 0); (30, 2150); (1700, 40)])
    as (tl & tr & br & bl & E1 & E2 & E3 & E4 & _).
  - reflexivity.
  - apply Permutation_cons_app with (l1 := [(1650, 2200)])
                                    (l2 := [(30, 2150); (1700, 40)]).
    apply Permutation_cons_app with (l1 := [(1650, 2200); (30, 2150)])
                                    (l2 := []).
    apply Permutation_refl.
  - solve_unique.
  - solve_unique.
  - solve_unique.
  - solve_unique.
  - exists (tl, tr, br, bl). split; [exact E2|]. split; [exact E3|].
    vm_compute in E1. injection E1 as <- <- <- <-. reflexivity.
Defined.

(** The float32 sums and differences of the four near corners, in
    pixels: the first two coincide. *)
Lemma near_corners_keys :
  map (ksum float32) near_corners = [px 2048; px 2048; px 7000; px 5000]
  /\ map (kdiff float32) near_corners
     = [px (-2048); px (-2048); px (-1000); px 5000].
Proof. split; vm_compute; reflexivity. Qed.

(** C3 as stated fails.  A square standing on a corner has two points
    with the least x+y (and two with the greatest, and likewise for y-x);
    numpy's argmin/argmax return the first of them in input order, so the
    result changes with the order of the input, for int32 and for float32
    input.  And on float32 input it is the computed sums that count: the
    four near corners have one point each with the least and the greatest
    exact x+y and y-x, but the sums and the differences of the first two
    are the same float32, and exchanging the two changes the result. *)
Lemma order_points_depends_on_input_order :
  (exists pts pts' : list point,
      length pts = 4%nat /\ NoDup pts /\ Permutation pts pts' /\
      order_points int32 pts <> order_points int32 pts' /\
      order_points float32 (as_float32 pts)
      <> order_points float32 (as_float32 pts') /\
      order_corners float32 (as_float32 pts)
      <> order_corners float32 (as_float32 pts'))
  /\ (exists pts pts' : list point,
         length pts = 4%nat /\ NoDup pts /\ Permutation pts pts' /\
         unique_min (fun p => fst p + snd p) pts /\
         unique_max (fun p => fst p + snd p) pts /\
         unique_min (fun p => snd p - fst p) pts /\
         unique_max (fun p => snd p - fst p) pts /\
         order_points float32 pts <> order_points float32 pts' /\
         order_corners float32 pts <> order_corners float32 pts').
Proof.
  split.
  - exists tilted_square,
           [(0, 100); (100, 0); (200, 100); (100, 200)].
    split; [reflexivity|]. split.
    { repeat constructor; simpl; intuition congruence. }
    split.
    { apply Permutation_cons_app with (l1 := [(0, 100)])
                                      (l2 := [(200, 100); (100, 200)]).
      apply Permutation_cons_app with (l1 := [(0, 100)])
                                      (l2 := [(100, 200)]).
      apply Permutation_cons_app with (l1 := [(0, 100)]) (l2 := []).
      apply Permutation_refl. }
    split; [|split]; vm_compute; discriminate.
  - exists near_corners,
           [(px 2048, 0); (px 2048, 2 ^ 135); (px 4000, px 3000);
            (0, px 5000)].
    split; [reflexivity|]. split.
    { repeat (apply NoDup_cons;
              [simpl; intros C;
               repeat (destruct C as [C|C]; [differ C|]); exact C|]).
      apply NoDup_nil. }
    split.
    { apply perm_swap. }
    split; [solve_unique|]. split; [solve_unique|].
    split; [solve_unique|]. split; [solve_unique|].
    split; vm_compute; discriminate.
Qed.
End CornerOrder.

Section FinalCropFacts.
Import FinalCrop.
Local Open Scope Z_scope.

Lemma int_001_nonneg n : 0 <= n -> 0 <= int_001 n.
Proof. intros. unfold int_001. apply Z.div_pos; lia. Qed.

Lemma int_099_le n : 0 <= n -> int_099 n <= n.
Proof.
  intros. unfold int_099. apply Z.div_le_upper_bound; lia.
Qed.

(** Every slice the function takes starts at or after the 1% margin and
    ends at or before the 99% margin, hence inside the image. *)
Lemma final_hybrid_crop_within_bounds H W rows cols b2 pad y0 y1 x0 x1 :
  0 <= H -> 0 <= W ->
  final_hybrid_crop H W rows cols b2 pad = Slice y0 y1 x0 x1 ->
  0 <= y0 /\ y1 <= H /\ 0 <= x0 /\ x1 <= W.
Proof.
  intros HH HW.
  pose proof (int_001_nonneg HH). pose proof (int_001_nonneg HW).
  pose proof (int_099_le HH). pose proof (int_099_le HW).
  unfold final_hybrid_crop.
  destruct (_ || _)%bool.
  - destruct b2 as [[[[x2 y2] w2] h2]|]; [|discriminate].
    intros E. injection E as <- <- <- <-. lia.
  - destruct b2 as [[[[x2 y2] w2] h2]|]; cbv zeta.
    + destruct (_ || _)%bool.
      * destruct (_ && _)%bool; intros E; injection E as <- <- <- <-; lia.
      * intros E; injection E as <- <- <- <-; lia.
    + destruct (_ || _)%bool; [discriminate|].
      intros E; injection E as <- <- <- <-; lia.
Qed.

(** With an ink box only, the degenerate case is guarded (line 261): the
    result always has positive height and width. *)
Lemma final_hybrid_crop_ink_only_positive H W rows cols pad :
  0 < H -> 0 < W ->
  let s := region_shape H W (final_hybrid_crop H W rows cols None pad) in
  0 < fst s <= H /\ 0 < snd s <= W.
Proof.
  intros HH HW.
  destruct (final_hybrid_crop H W rows cols None pad) as [|y0 y1 x0 x1] eqn:E.
  - simpl. lia.
  - destruct (@final_hybrid_crop_within_bounds H W rows cols None pad
                y0 y1 x0 x1) as (B1 & B2 & B3 & B4); try lia; [exact E|].
    unfold final_hybrid_crop in E.
    destruct (_ || _)%bool; [discriminate|]. cbv zeta in E.
    destruct (_ || _)%bool eqn:G; [discriminate|].
    injection E as E1 E2 E3 E4.
    apply orb_false_iff in G. destruct G as [G1 G2].
    rewrite E1, E2 in G1. rewrite E3, E4 in G2.
    apply Z.leb_gt in G1, G2.
    simpl. unfold slice_len, norm_ix.
    destruct (y1 <? 0) eqn:Y1; [apply Z.ltb_lt in Y1; lia|].
    destruct (y0 <? 0) eqn:Y0; [apply Z.ltb_lt in Y0; lia|].
    destruct (x1 <? 0) eqn:X1; [apply Z.ltb_lt in X1; lia|].
    destruct (x0 <? 0) eqn:X0; [apply Z.ltb_lt in X0; lia|].
    lia.
Qed.

(** C4 at two inputs where it fails.  First, a 1000 x 1500 page whose
    only ink rows passing the threshold are rows 0..4 (a dark line along
    the top edge), with ink columns 100..900 and a paper box
    (20, 20, 960, 1460), [pad = 10] as [process] calls it: the
    intersection is inverted, the tie-break computes [area_a = 0] for the
    ink box, and "[area_b and area_b < area_a]" does not hold, so the
    empty ink box [rgb[15:14, 90:910]] is returned: height 0.  Second, a
    2000 x 3000 image without ink rows whose paper box is (0, 0, 8, 8):
    the paper-only branch returns [rgb[30:18, 20:18]] unguarded. *)
Theorem final_hybrid_crop_returns_empty_region :
  final_hybrid_crop 1500 1000 [0; 1; 2; 3; 4]
                    (map Z.of_nat (seq 100 801))
                    (Some (20, 20, 960, 1460)) 10
  = Slice 15 14 90 910
  /\ region_shape 1500 1000 (Slice 15 14 90 910) = (0, 820)
  /\ final_hybrid_crop 3000 2000 [] [] (Some (0, 0, 8, 8)) 10
     = Slice 30 18 20 18
  /\ region_shape 3000 2000 (Slice 30 18 20 18) = (0, 0).
Proof. repeat split; vm_compute; reflexivity. Qed.
End FinalCropFacts.

Section RowFacts.
Import Rows.
Local Open Scope Z_scope.

Lemma spaced_weaken l : forall lo lo', lo' <= lo -> spaced lo l -> spaced lo' l.
Proof.
  destruct l as [|r t]; simpl; intros lo lo' Hle H; [exact I|].
  destruct H as (H1 & H2 & H3). repeat split; try assumption. lia.
Qed.

Lemma spaced_In l : forall lo r, spaced lo l -> In r l -> lo < top r /\ 0 < height r.
Proof.
  induction l as [|a t IH]; simpl; intros lo r H Hin; [contradiction|].
  destruct H as (H1 & H2 & H3). destruct Hin as [<-|Hin]; [lia|].
  destruct (IH _ _ H3 Hin); lia.
Qed.

Lemma spaced_nth l :
  forall lo i j ri rj,
    spaced lo l -> (i < j)%nat ->
    nth_error l i = Some ri -> nth_error l j = Some rj ->
    top ri + height ri + 12 < top rj.
Proof.
  induction l as [|a t IH]; intros lo i j ri rj H Hij Hi Hj.
  - destruct i; discriminate.
  - destruct H as (H1 & H2 & H3).
    destruct j as [|j]; [lia|]. simpl in Hj.
    destruct i as [|i]; simpl in Hi.
    + injection Hi as <-.
      apply nth_error_In in Hj. destruct (@spaced_In t _ rj H3 Hj). lia.
    + apply (IH _ i j ri rj H3); [lia|assumption|assumption].
Qed.

(** *** The scanning loop *)

Definition seg_ok (b : Z) (s : bbox) : Prop :=
  0 <= top s /\ top s <= Z.max 0 (b - 4) /\ 0 < height s.

Definition scan_inv (y : Z) (st : scan) : Prop :=
  let b := if in_seg st then y0 st else y in
  StronglySorted le_top (segments st)
  /\ Forall (seg_ok b) (segments st)
  /\ (in_seg st = true -> 0 <= y0 st < y)
  /\ 0 <= y.

Lemma StronglySorted_snoc (l : list bbox) (s : bbox) :
  StronglySorted le_top l -> Forall (fun a => le_top a s) l ->
  StronglySorted le_top (l ++ [s]).
Proof.
  induction 1 as [|a l HS IH HF]; intros HA; simpl.
  - repeat constructor.
  - inversion HA; subst. constructor; [auto|].
    apply Forall_app. split; [exact HF|]. constructor; [assumption|constructor].
Qed.

Lemma seg_ok_weaken b b' l :
  b <= b' -> Forall (seg_ok b) l -> Forall (seg_ok b') l.
Proof.
  intros Hb. apply Forall_impl. intros s (H1 & H2 & H3).
  unfold seg_ok. lia.
Qed.

Lemma scan_step_inv H W thresh st y p :
  0 <= y < H -> scan_inv y st ->
  scan_inv (y + 1) (scan_step H W thresh st y p).
Proof.
  intros Hy (HS & HF & Hin & Hy0). unfold scan_step.
  destruct (above thresh p && negb (in_seg st))%bool eqn:E1.
  - apply andb_true_iff in E1. destruct E1 as [_ E1].
    apply negb_true_iff in E1. rewrite E1 in HF.
    unfold scan_inv; simpl. repeat split; try assumption; lia.
  - destruct ((negb (above thresh p) || (y =? H - 1)) && in_seg st)%bool eqn:E2.
    + apply andb_true_iff in E2. destruct E2 as [_ E2].
      rewrite E2 in HF. specialize (Hin E2).
      unfold scan_inv; simpl.
      destruct (min_height H <=? y - y0 st) eqn:E3.
      * apply Z.leb_le in E3.
        assert (40 <= min_height H) by (unfold min_height; lia).
        repeat split; try lia; try discriminate.
        -- apply StronglySorted_snoc; [exact HS|].
           eapply Forall_impl; [|exact HF].
           intros s (H1 & H2 & H3). unfold le_top. simpl. lia.
        -- apply Forall_app. split.
           ++ eapply seg_ok_weaken; [|exact HF]. lia.
           ++ constructor; [|constructor]. unfold seg_ok. simpl. lia.
      * repeat split; try lia; try discriminate; try assumption.
        eapply seg_ok_weaken; [|exact HF]. lia.
    + unfold scan_inv. destruct (in_seg st) eqn:E3.
      * specialize (Hin eq_refl). repeat split; try assumption; lia.
      * repeat split; try assumption; try discriminate; try lia.
        eapply seg_ok_weaken; [|exact HF]. lia.
Qed.

Lemma scan_rows_inv H W thresh proj :
  forall st y,
    0 <= y -> y + Z.of_nat (length proj) = H -> scan_inv y st ->
    scan_inv H (scan_rows H W thresh st y proj).
Proof.
  induction proj as [|p rest IH]; intros st y Hy Hlen Hinv.
  - simpl in *. replace H with y by lia. exact Hinv.
  - simpl scan_rows. apply IH.
    + lia.
    + simpl length in Hlen. lia.
    + apply scan_step_inv; [|exact Hinv]. simpl length in Hlen. lia.
Qed.

Lemma scan_segments_sorted W thresh proj :
  let H := Z.of_nat (length proj) in
  let st := scan_rows H W thresh
              {| segments := []; in_seg := false; y0 := 0 |} 0 proj in
  StronglySorted le_top (segments st)
  /\ Forall (fun s => 0 <= top s /\ 0 < height s) (segments st).
Proof.
  intros H st.
  destruct (@scan_rows_inv H W thresh proj
              {| segments := []; in_seg := false; y0 := 0 |} 0)
    as (HS & HF & _); [lia|reflexivity| |].
  - unfold scan_inv; simpl. repeat split; try constructor; try lia.
  - split; [exact HS|]. eapply Forall_impl; [|exact HF].
    intros s (H1 & H2 & H3). lia.
Qed.

(** *** The merging loop *)

Lemma merge_step_snoc pre cur seg :
  merge_step (pre ++ [cur]) seg =
  let '(x, y, w, h) := seg in
  let '(px, py, pw, ph) := cur in
  if y <=? py + ph + 12
  then pre ++ [(px, py, pw, (y + h) - py)]
  else (pre ++ [cur]) ++ [seg].
Proof.
  unfold merge_step.
  destruct (pre ++ [cur]) as [|a l] eqn:E.
  - destruct pre; discriminate.
  - rewrite <- E. rewrite last_last, removelast_last.
    destruct seg as [[[x y] w] h]. destruct cur as [[[px py] pw] ph].
    reflexivity.
Qed.

Lemma fold_merge_from segs :
  forall pre cur,
    fold_left merge_step segs (pre ++ [cur]) = pre ++ merge_from cur segs.
Proof.
  induction segs as [|seg t IH]; intros pre cur; simpl; [reflexivity|].
  rewrite merge_step_snoc.
  destruct seg as [[[x y] w] h]. destruct cur as [[[px py] pw] ph].
  destruct (y <=? py + ph + 12).
  - apply IH.
  - rewrite IH, <- app_assoc. reflexivity.
Qed.

Lemma merge_segments_from seg t :
  merge_segments (seg :: t) = merge_from seg t.
Proof.
  unfold merge_segments. simpl. apply (fold_merge_from t [] seg).
Qed.

Lemma merge_from_spaced segs :
  forall cur lo,
    lo < top cur -> 0 < height cur ->
    Forall (fun s => top cur <= top s /\ 0 < height s) segs ->
    StronglySorted le_top segs ->
    spaced lo (merge_from cur segs).
Proof.
  induction segs as [|seg t IH]; intros cur lo Hlo Hh HF HS.
  - simpl. repeat split; assumption.
  - inversion HF as [|? ? [Hseg1 Hseg2] HF']; subst.
    inversion HS as [|? ? HS' HA]; subst.
    destruct seg as [[[x y] w] h]. destruct cur as [[[px py] pw] ph].
    simpl in *. destruct (y <=? py + ph + 12) eqn:E.
    + apply IH; simpl; try assumption; try lia.
    + apply Z.leb_gt in E. simpl. repeat split; try assumption.
      apply IH; simpl; try assumption; try lia.
      rewrite Forall_forall in HA, HF' |- *.
      intros s Hs. split; [apply (HA s Hs)|apply (HF' s Hs)].
Qed.
Lemma merge_segments_spaced segs :
  StronglySorted le_top segs ->
  Forall (fun s => 0 <= top s /\ 0 < height s) segs ->
  spaced (-1) (merge_segments segs).
Proof.
  intros HS HF. destruct segs as [|seg t]; [exact I|].
  rewrite merge_segments_from.
  inversion HS as [|? ? HS' HA]; subst.
  inversion HF as [|? ? [H1 H2] HF']; subst.
  apply merge_from_spaced; try assumption; try lia.
  rewrite Forall_forall in HA, HF' |- *.
  intros s Hs. split; [apply (HA s Hs)|apply (HF' s Hs)].
Qed.

(** *** The cutoff loop *)

Lemma cut_rows_spaced tc l :
  forall lo, spaced lo l -> spaced lo (cut_rows tc l).
Proof.
  induction l as [|r t IH]; intros lo H; [exact I|].
  destruct H as (H1 & H2 & H3).
  destruct r as [[[x y] w] h]. simpl in H1, H2, H3.
  unfold cut_rows. simpl flat_map. fold (cut_rows tc t).
  destruct ((tc <? y + h) && (Z.max y tc - y <? h))%bool eqn:E.
  - apply andb_true_iff in E. destruct E as [E1 E2].
    apply Z.ltb_lt in E1, E2.
    simpl. repeat split; try lia.
    replace (Z.max y tc + (y + h - Z.max y tc) + 12) with (y + h + 12) by lia.
    apply IH, H3.
  - simpl. apply IH. eapply spaced_weaken; [|exact H3]. lia.
Qed.

Lemma cut_rows_below_cutoff tc l :
  Forall (fun r => tc <= top r) (cut_rows tc l).
Proof.
  induction l as [|r t IH]; [constructor|].
  destruct r as [[[x y] w] h].
  unfold cut_rows. simpl flat_map. fold (cut_rows tc t).
  destruct ((tc <? y + h) && (Z.max y tc - y <? h))%bool; simpl.
  - constructor; [simpl; lia|exact IH].
  - exact IH.
Qed.

(** *** Sorting and numbering *)

Lemma sorted_by_top_spaced l :
  forall lo, spaced lo l -> sorted_by_top l = l.
Proof.
  induction l as [|r t IH]; intros lo H; [reflexivity|].
  destruct H as (H1 & H2 & H3).
  unfold sorted_by_top in *. simpl. rewrite (IH _ H3).
  destruct t as [|r' t']; [reflexivity|].
  simpl. destruct H3 as (H4 & _).
  destruct (top r <=? top r') eqn:E; [reflexivity|].
  apply Z.leb_gt in E. lia.
Qed.

Lemma attach_from_bbox {Image} (cv : cv_ops Image) gray band l :
  forall qid, map bbox_of (attach_from cv gray band qid l) = l.
Proof.
  induction l as [|r t IH]; intros qid; [reflexivity|].
  destruct band as [[[bx by_] bw] bh]. destruct r as [[[x y] w] h].
  simpl. f_equal. apply IH.
Qed.

Lemma attach_from_id {Image} (cv : cv_ops Image) gray band l :
  forall qid i r,
    nth_error (attach_from cv gray band qid l) i = Some r ->
    id r = row_id (qid + i).
Proof.
  induction l as [|a t IH]; intros qid i r H.
  - destruct i; discriminate.
  - destruct band as [[[bx by_] bw] bh]. destruct a as [[[x y] w] h].
    destruct i as [|i]; simpl in H.
    + injection H as <-. simpl. rewrite Nat.add_0_r. reflexivity.
    + rewrite (IH _ _ _ H). f_equal. lia.
Qed.

Lemma split_rows_of_spaced proj W frac :
  spaced (-1) (split_rows_of proj W frac).
Proof.
  unfold split_rows_of.
  destruct (scan_segments_sorted W (thresh_of proj) proj) as [HS HF].
  apply cut_rows_spaced, merge_segments_spaced; assumption.
Qed.

(** Python's [int] never goes below the floor. *)
Lemma Qfloor_le_int_of (q : Q) : Qfloor q <= int_of q.
Proof.
  unfold int_of. destruct (Qle_bool 0 q); [lia|].
  rewrite Zle_Qle. eapply Qle_trans; [apply Qfloor_le|apply Qle_ceiling].
Qed.

Lemma Qfloor_gt_pred (q : Q) : (q - 1 < inject_Z (Qfloor q))%Q.
Proof.
  pose proof (Qlt_floor q) as H.
  rewrite inject_Z_plus in H. change (inject_Z 1) with 1%Q in H.
  apply Qlt_minus_iff in H. apply Qlt_minus_iff.
  setoid_replace (inject_Z (Qfloor q) + - (q - 1))%Q
    with (inject_Z (Qfloor q) + 1 + - q)%Q by ring.
  exact H.
Qed.

(** [int(54.6) = 54], [int(-0.5) = 0], [int(-1.5) = -1]. *)
Lemma int_of_examples :
  int_of (546 # 10) = 54 /\ int_of (- (1 # 2)) = 0 /\ int_of (- (3 # 2)) = -1.
Proof. repeat split; vm_compute; reflexivity. Qed.

Lemma int_of_nonneg (q : Q) : (0 <= q)%Q -> int_of q = Qfloor q.
Proof.
  intros H. unfold int_of. apply Qle_bool_iff in H. rewrite H. reflexivity.
Qed.

(** C5, as amended: the rows that [split_rows] followed by
    [attach_answer_boxes] produce have strictly increasing top
    coordinates, no two of them overlap vertically (an earlier row ends at
    or above the top of every later one), and the i-th row (counting from
    1, top to bottom) has the id "q" followed by the decimal digits of i:
    "q1", "q2", ..., "q10", ...  No row starts above the whole number of
    pixel rows [int(H * min_y_frac)], which for a fraction that is not
    negative is the floor of [H * min_y_frac]: a row may start above
    [H * min_y_frac] itself, by less than one pixel, and never does by one
    pixel or more. *)
Theorem rows_ordered_disjoint_numbered :
  forall (Image : Type) (cv : cv_ops Image) (gray : Image) (band : bbox)
         (min_y_frac : Q),
    let rows :=
      attach_answer_boxes cv (split_rows cv gray band min_y_frac) band gray in
    let H := Z.of_nat (length (ink_projection cv gray band)) in
    (forall i j ri rj,
        (i < j)%nat ->
        nth_error rows i = Some ri -> nth_error rows j = Some rj ->
        top (bbox_of ri) < top (bbox_of rj)
        /\ top (bbox_of ri) + height (bbox_of ri) <= top (bbox_of rj))
    /\ (forall r, In r rows ->
                  0 <= top (bbox_of r)
                  /\ Qfloor (inject_Z H * min_y_frac) <= top (bbox_of r)
                  /\ (inject_Z H * min_y_frac - 1
                      < inject_Z (top (bbox_of r)))%Q
                  /\ 0 < height (bbox_of r))
    /\ (forall i r,
           nth_error rows i = Some r ->
           id r = String.append "q"
                    (NilEmpty.string_of_uint (Nat.to_uint (S i))))
    /\ (forall r, nth_error rows 0 = Some r -> id r = "q1"%string)
    /\ (forall r, nth_error rows 1 = Some r -> id r = "q2"%string)
    /\ (forall r, nth_error rows 9 = Some r -> id r = "q10"%string)
    /\ map bbox_of rows = split_rows cv gray band min_y_frac.
Proof.
  intros Image cv gray band frac rows H.
  pose proof (split_rows_of_spaced (ink_projection cv gray band)
                                   (width cv gray) frac) as Hsp.
  fold (split_rows cv gray band frac) in Hsp.
  assert (Hmap : map bbox_of rows = split_rows cv gray band frac).
  { unfold rows, attach_answer_boxes.
    rewrite attach_from_bbox. eapply sorted_by_top_spaced, Hsp. }
  assert (Hid : forall i r,
             nth_error rows i = Some r ->
             id r = String.append "q"
                      (NilEmpty.string_of_uint (Nat.to_uint (S i)))).
  { intros i r Hr. unfold rows, attach_answer_boxes in Hr.
    apply attach_from_id in Hr. exact Hr. }
  split; [|split; [|split; [|split; [|split; [|split]]]]].
  - intros i j ri rj Hij Ri Rj.
    assert (Hi : nth_error (map bbox_of rows) i = Some (bbox_of ri))
      by (rewrite nth_error_map, Ri; reflexivity).
    assert (Hj : nth_error (map bbox_of rows) j = Some (bbox_of rj))
      by (rewrite nth_error_map, Rj; reflexivity).
    rewrite Hmap in Hi, Hj.
    pose proof (@spaced_nth _ _ i j _ _ Hsp Hij Hi Hj).
    apply nth_error_In in Hi. destruct (@spaced_In _ _ _ Hsp Hi). lia.
  - intros r Hr.
    assert (Hin : In (bbox_of r) (split_rows cv gray band frac))
      by (rewrite <- Hmap; apply in_map; assumption).
    assert (Hcut : top_cut_of H frac <= top (bbox_of r)).
    { pose proof (cut_rows_below_cutoff
                    (top_cut_of H frac)
                    (merge_segments
                       (segments
                          (scan_rows H (width cv gray)
                             (thresh_of (ink_projection cv gray band))
                             {| segments := []; in_seg := false; y0 := 0 |}
                             0 (ink_projection cv gray band))))) as HF.
      rewrite Forall_forall in HF. apply HF. exact Hin. }
    pose proof (Qfloor_le_int_of (inject_Z H * frac)) as Hfl.
    fold (top_cut_of H frac) in Hfl.
    destruct (@spaced_In _ _ _ Hsp Hin) as [Hlo Hh].
    split; [lia|]. split; [lia|]. split; [|exact Hh].
    eapply Qlt_le_trans; [apply Qfloor_gt_pred|].
    rewrite <- Zle_Qle. lia.
  - exact Hid.
  - intros r Hr. rewrite (Hid _ _ Hr). reflexivity.
  - intros r Hr. rewrite (Hid _ _ Hr). reflexivity.
  - intros r Hr. rewrite (Hid _ _ Hr). reflexivity.
  - exact Hmap.
Qed.

(** C5 as stated fails at the cutoff: on a page of 210 rows with ink on
    rows 10 to 109 and the default fraction 0.26, the product
    [H * min_y_frac] is 54.6 and [top_cut = int(54.6) = 54]; the one row
    found, (0, 6, 800, 108), is cut at 54, so its top edge 54 lies above
    54.6. *)
Lemma row_top_above_fractional_cutoff :
  let rows :=
    attach_answer_boxes ops_header_band
      (split_rows ops_header_band tt (0, 0, 0, 0) (26 # 100))
      (0, 0, 0, 0) tt in
  let H := Z.of_nat (length (ink_projection ops_header_band tt (0, 0, 0, 0))) in
  H = 210
  /\ (inject_Z H * (26 # 100) == 546 # 10)%Q
  /\ map bbox_of rows = [(0, 54, 800, 60)]
  /\ map id rows = ["q1"%string]
  /\ exists r, In r rows
               /\ (inject_Z (top (bbox_of r)) < inject_Z H * (26 # 100))%Q.
Proof.
  cbv zeta.
  assert (E : attach_answer_boxes ops_header_band
                (split_rows ops_header_band tt (0, 0, 0, 0) (26 # 100))
                (0, 0, 0, 0) tt
              = [ {| id := "q1"; bbox_of := (0, 54, 800, 60);
                     answer_box_bbox := None; type := "text";
                     confidence := 72 # 100 |} ])
    by (vm_compute; reflexivity).
  rewrite E.
  assert (EH : Z.of_nat (length (ink_projection ops_header_band tt
                                                (0, 0, 0, 0))) = 210)
    by (vm_compute; reflexivity).
  rewrite EH.
  split; [reflexivity|]. split; [vm_compute; reflexivity|].
  split; [reflexivity|]. split; [reflexivity|].
  eexists. split; [left; reflexivity|]. vm_compute. reflexivity.
Qed.

(** A page of 200 rows with two inked bands (rows 10..69 and 120..189),
    header cutoff at 26%: two rows come out, the first truncated at the
    cutoff row 52, numbered q1 and q2. *)
Example split_rows_two_bands :
  let proj := repeat 0 10 ++ repeat 100 60 ++ repeat 0 50
                ++ repeat 100 70 ++ repeat 0 10 in
  split_rows_of proj 800 (26 # 100) = [(0, 52, 800, 22); (0, 116, 800, 78)]
  /\ map row_id [1; 2]%nat = ["q1"; "q2"]%string.
Proof. vm_compute. split; reflexivity. Qed.
End RowFacts.

Section ConfidenceFacts.
Import Segment.
Local Open Scope R_scope.

Lemma clip_mono x y lo hi : x <= y -> clip x lo hi <= clip y lo hi.
Proof.
  intros Hxy. unfold clip, Rmin, Rmax. destruct_Rdec; lra.
Qed.

Lemma clip_range x lo hi : lo <= hi -> lo <= clip x lo hi <= hi.
Proof.
  intros Hlh. unfold clip, Rmin, Rmax. destruct_Rdec; lra.
Qed.

Lemma inlier_ratio_mono (m i1 i2 : Z) :
  (0 < m)%Z -> (i1 <= i2)%Z -> IZR i1 / IZR m <= IZR i2 / IZR m.
Proof.
  intros Hm Hi. unfold Rdiv.
  apply Rmult_le_compat_r.
  - left. apply Rinv_0_lt_compat. apply (IZR_lt 0). exact Hm.
  - apply IZR_le. exact Hi.
Qed.

(** C2: the two confidence formulas, their monotonicity and their range.
    With feature statistics (matches m > 0, inliers i, median
    reprojection error e) the confidence is
    clip(0.7 * i/m + 0.3 * clip(1 - e/50, 0, 1), 0, 1), and 0 when
    matches <= 0; on the fallback path it is
    clip((area_ratio - 0.2)/0.75, 0, 1).  For fixed m > 0 and fixed error
    the former does not decrease when the inliers increase, the latter
    does not decrease when the area ratio increases, and both lie in
    [0, 1]. *)
Theorem alignment_confidence_formula_monotone_bounded :
  (forall (m i : Z) (e d : R),
      (0 < m)%Z ->
      compute_alignment_confidence_from_stats
        {| matches := Some m; inliers := Some i;
           median_reproj_err := Some (Fin e) |} false d
      = clip (7 / 10 * (IZR i / IZR m) + 3 / 10 * clip (1 - e / 50) 0 1) 0 1)
  /\ (forall (stats : Stats) (d : R),
         (get (matches stats) 0 <= 0)%Z ->
         compute_alignment_confidence_from_stats stats false d = 0)
  /\ (forall (stats : Stats) (area_ratio : R),
         compute_alignment_confidence_from_stats stats true area_ratio
         = clip ((area_ratio - 2 / 10) / (75 / 100)) 0 1)
  /\ (forall (m i1 i2 : Z) (e : option xfloat) (d : R),
         (0 < m)%Z -> (i1 <= i2)%Z ->
         compute_alignment_confidence_from_stats
           {| matches := Some m; inliers := Some i1;
              median_reproj_err := e |} false d
         <= compute_alignment_confidence_from_stats
              {| matches := Some m; inliers := Some i2;
                 median_reproj_err := e |} false d)
  /\ (forall (stats : Stats) (r1 r2 : R),
         r1 <= r2 ->
         compute_alignment_confidence_from_stats stats true r1
         <= compute_alignment_confidence_from_stats stats true r2)
  /\ (forall (stats : Stats) (fallback : bool) (d : R),
         0 <= compute_alignment_confidence_from_stats stats fallback d <= 1).
Proof.
  split; [|split; [|split; [|split; [|split]]]].
  - intros m i e d Hm.
    unfold compute_alignment_confidence_from_stats; simpl.
    destruct (m <=? 0)%Z eqn:E; [apply Z.leb_le in E; lia|reflexivity].
  - intros stats d Hm.
    unfold compute_alignment_confidence_from_stats.
    apply Z.leb_le in Hm. rewrite Hm. reflexivity.
  - reflexivity.
  - intros m i1 i2 e d Hm Hi.
    unfold compute_alignment_confidence_from_stats; simpl.
    destruct (m <=? 0)%Z eqn:E; [apply Z.leb_le in E; lia|].
    apply clip_mono.
    pose proof (inlier_ratio_mono Hm Hi). lra.
  - intros stats r1 r2 Hr.
    unfold compute_alignment_confidence_from_stats.
    apply clip_mono. unfold Rdiv. apply Rmult_le_compat_r; lra.
  - intros stats fallback d.
    unfold compute_alignment_confidence_from_stats.
    destruct fallback; [apply clip_range; lra|].
    destruct (_ <=? 0)%Z; [lra|]. apply clip_range; lra.
Qed.

(** 80 inliers out of 100 matches with a median error of 5 pixels give
    0.7 * 0.8 + 0.3 * 0.9 = 0.83; 50 inliers give less. *)
Lemma alignment_confidence_witness :
  compute_alignment_confidence_from_stats
    {| matches := Some 100%Z; inliers := Some 80%Z;
       median_reproj_err := Some (Fin 5) |} false 0 = 83 / 100
  /\ compute_alignment_confidence_from_stats
       {| matches := Some 100%Z; inliers := Some 50%Z;
          median_reproj_err := Some (Fin 5) |} false 0
     <= compute_alignment_confidence_from_stats
          {| matches := Some 100%Z; inliers := Some 80%Z;
             median_reproj_err := Some (Fin 5) |} false 0
  /\ compute_alignment_confidence_from_stats empty_stats true (1 / 2)
     <= compute_alignment_confidence_from_stats empty_stats true (8 / 10).
Proof.
  destruct alignment_confidence_formula_monotone_bounded
    as (F & _ & _ & Mi & Ma & _).
  split; [|split].
  - rewrite (F 100%Z 80%Z 5 0 ltac:(lia)).
    unfold clip, Rmin, Rmax. destruct_Rdec; lra.
  - apply Mi; lia.
  - apply Ma; lra.
Defined.
End ConfidenceFacts.

Section TransformFacts.
Import Segment.
Local Open Scope R_scope.

Lemma Rltb_true x y : Rltb x y = true <-> x < y.
Proof. unfold Rltb. destruct (Rlt_dec x y); split; intros; try lra; congruence. Qed.

Lemma Rltb_false x y : Rltb x y = false <-> y <= x.
Proof. unfold Rltb. destruct (Rlt_dec x y); split; intros; try lra; congruence. Qed.

Lemma Rleb_true x y : Rleb x y = true <-> x <= y.
Proof. unfold Rleb. destruct (Rle_dec x y); split; intros; try lra; congruence. Qed.

Lemma Rleb_false x y : Rleb x y = false <-> y < x.
Proof. unfold Rleb. destruct (Rle_dec x y); split; intros; try lra; congruence. Qed.

(** *** Range of [atan2] and of the reported angle *)

Lemma atan_nonpos x : x <= 0 -> atan x <= 0.
Proof.
  intros [Hx| ->]; [|rewrite atan_0; lra].
  pose proof (atan_increasing _ _ Hx) as H. rewrite atan_0 in H. lra.
Qed.

Lemma atan_pos x : 0 < x -> 0 < atan x.
Proof.
  intros Hx. pose proof (atan_increasing _ _ Hx) as H.
  rewrite atan_0 in H. exact H.
Qed.

Lemma atan2_range y x : - PI < atan2 y x <= PI.
Proof.
  pose proof PI_RGT_0 as Hpi.
  pose proof (atan_bound (y / x)) as [Hlo Hhi].
  unfold atan2.
  destruct (Rlt_dec 0 x) as [Hx|Hx]; [lra|].
  destruct (Rlt_dec x 0) as [Hx'|Hx'].
  - destruct (Rle_dec 0 y) as [Hy|Hy].
    + assert (y / x <= 0).
      { unfold Rdiv. pose proof (Rinv_lt_0_compat _ Hx'). nra. }
      pose proof (atan_nonpos H). lra.
    + assert (0 < y / x).
      { unfold Rdiv. pose proof (Rinv_lt_0_compat _ Hx'). nra. }
      pose proof (atan_pos H). lra.
  - destruct (Rlt_dec 0 y); [lra|]. destruct (Rlt_dec y 0); lra.
Qed.

Lemma degrees_range a : - PI < a <= PI -> -180 < degrees a <= 180.
Proof.
  intros [Hlo Hhi]. pose proof PI_RGT_0 as Hpi.
  unfold degrees.
  assert (E : a * 180 / PI * PI = a * 180) by (field; lra).
  set (k := a * 180 / PI) in *. nra.
Qed.

Lemma norm2_nonneg x y : 0 <= norm2 x y.
Proof. apply sqrt_pos. Qed.

Lemma half_ulp_small : 0 < HALF_ULP_PI < 1.
Proof.
  unfold HALF_ULP_PI.
  assert (H : 1 < 2 ^ 52) by (apply Rlt_pow_R1; [lra|lia]).
  split; [apply Rinv_0_lt_compat; lra|].
  rewrite <- Rinv_1. apply Rinv_lt_contravar; lra.
Qed.

Lemma PI_gt_3 : 3 < PI.
Proof. pose proof PI2_3_2. lra. Qed.

Lemma math_atan2_range y x : - PI <= math_atan2 y x <= PI.
Proof.
  pose proof PI_RGT_0 as Hpi. pose proof (atan2_range y x) as Ha.
  unfold math_atan2. cbv zeta. destruct_Rdec; lra.
Qed.

(** The two models agree wherever the exact angle keeps the distance
    [HALF_ULP_PI] from both ends of its range. *)
Lemma math_atan2_exact y x :
  - PI + HALF_ULP_PI <= atan2 y x <= PI - HALF_ULP_PI ->
  math_atan2 y x = atan2 y x.
Proof.
  intros [H1 H2]. unfold math_atan2. cbv zeta.
  destruct_Rdec; first [reflexivity|exfalso; lra].
Qed.

Lemma degrees_range_closed a : - PI <= a <= PI -> -180 <= degrees a <= 180.
Proof.
  intros [Hlo Hhi]. pose proof PI_RGT_0 as Hpi.
  unfold degrees.
  assert (E : a * 180 / PI * PI = a * 180) by (field; lra).
  set (k := a * 180 / PI) in *. nra.
Qed.

Lemma decompose_homography_rounded_fields svd H :
  let tp := decompose_homography svd H in
  let tq := decompose_homography_rounded svd H in
  scale_x tq = scale_x tp /\ scale_y tq = scale_y tp /\
  shear tq = shear tp /\ tx tq = tx tp /\ ty tq = ty tp /\
  h20 tq = h20 tp /\ h21 tq = h21 tp.
Proof.
  unfold decompose_homography, decompose_homography_rounded.
  destruct (rotation_and_scales svd (linear_block (normalize_h H)))
    as [Rm scales].
  simpl. repeat split; reflexivity.
Qed.

(** C7, as amended: whatever the 3x3 input, the reported scales are
    non-negative and the reported rotation lies between -180 and 180
    degrees, both ends included, both when [np.linalg.svd] returns (its
    singular values being non-negative) and when it raises and the
    fallback (R = identity, scales = column norms) is taken; on the
    fallback path the rotation is 0. *)
Theorem decompose_homography_invariant :
  forall (svd : svd_fn) (H : Mat3),
    (forall U s Vt,
        svd (linear_block (normalize_h H)) = Some (U, s, Vt) ->
        is_svd (linear_block (normalize_h H)) U s Vt) ->
    let tp := decompose_homography_rounded svd H in
    0 <= scale_x tp /\ 0 <= scale_y tp /\ -180 <= rotation_deg tp <= 180
    /\ (svd (linear_block (normalize_h H)) = None -> rotation_deg tp = 0).
Proof.
  intros svd H Hsvd tp. unfold tp, decompose_homography_rounded.
  destruct (rotation_and_scales svd (linear_block (normalize_h H)))
    as [Rm scales] eqn:E.
  simpl. split; [|split; [|split]].
  - unfold rotation_and_scales in E.
    destruct (svd (linear_block (normalize_h H))) as [[[U s] Vt]|] eqn:Es.
    + destruct (Hsvd U s Vt eq_refl) as (_ & _ & Hs & _).
      destruct (Rltb _ 0); injection E as _ <-; lra.
    + injection E as _ <-. simpl. apply norm2_nonneg.
  - unfold rotation_and_scales in E.
    destruct (svd (linear_block (normalize_h H))) as [[[U s] Vt]|] eqn:Es.
    + destruct (Hsvd U s Vt eq_refl) as (_ & _ & Hs & _).
      destruct (Rltb _ 0); injection E as _ <-; lra.
    + injection E as _ <-. simpl. apply norm2_nonneg.
  - apply degrees_range_closed, math_atan2_range.
  - intros En. unfold rotation_and_scales in E. rewrite En in E.
    injection E as <- _. cbn [eye2 m10 m00].
    assert (E0 : atan2 0 1 = 0).
    { unfold atan2. destruct (Rlt_dec 0 1); [|lra].
      replace (0 / 1) with 0 by field. apply atan_0. }
    rewrite math_atan2_exact; rewrite E0.
    + unfold degrees. pose proof PI_RGT_0. field. lra.
    + pose proof PI_gt_3. pose proof half_ulp_small. lra.
Qed.
Lemma inv_lt_1 x : 1 < x -> 1 / x < 1.
Proof.
  intros Hx. assert (0 < / x) by (apply Rinv_0_lt_compat; lra).
  assert (x * / x = 1) by (field; lra). unfold Rdiv. nra.
Qed.

Lemma normalize_h_unit H : a22 H = 1 -> normalize_h H = H.
Proof.
  intros E. unfold normalize_h. rewrite E, Rabs_R1.
  assert (Rltb 1 (1 / 10 ^ 12) = false) as ->.
  { apply Rltb_false. left. apply inv_lt_1. apply Rlt_pow_R1; [lra|lia]. }
  destruct H; simpl in *. subst. unfold mdiv3; simpl. f_equal; field.
Qed.

Lemma decompose_homography_invariant_witness :
  let tp := decompose_homography_rounded quarter_turn_svd quarter_turn_h in
  0 <= scale_x tp /\ 0 <= scale_y tp /\ -180 <= rotation_deg tp <= 180.
Proof.
  cbv zeta.
  refine ((fun P => conj (proj1 P) (conj (proj1 (proj2 P))
                                         (proj1 (proj2 (proj2 P))))) _).
  apply decompose_homography_invariant.
  intros U s Vt E.
  rewrite normalize_h_unit by reflexivity.
  unfold quarter_turn_svd in E. injection E as <- <- <-.
  unfold is_svd, orthogonal, mmul, transpose, eye2, diag2, linear_block,
    quarter_turn_h; simpl.
  repeat split; try lra; f_equal; ring.
Defined.

(** *** Singular values are determined by the matrix *)

Lemma det2_mmul M N : det2 (mmul M N) = det2 M * det2 N.
Proof. destruct M, N. unfold det2, mmul; simpl. ring. Qed.

Lemma det2_transpose M : det2 (transpose M) = det2 M.
Proof. destruct M. unfold det2, transpose; simpl. ring. Qed.

Lemma det2_orthogonal M : orthogonal M -> det2 M * det2 M = 1.
Proof.
  intros [E _]. apply (f_equal det2) in E.
  rewrite det2_mmul, det2_transpose in E. rewrite E.
  unfold det2, eye2; simpl. ring.
Qed.

Lemma frob_orth_l U M : orthogonal U -> frob (mmul U M) = frob M.
Proof.
  intros [E _]. destruct U as [u00 u01 u10 u11], M as [n00 n01 n10 n11].
  unfold mmul, transpose, eye2 in E; simpl in E.
  injection E as E1 E2 E3 E4.
  unfold frob, mmul; simpl.
  transitivity
    ((u00 * u00 + u10 * u10) * (n00 * n00 + n01 * n01)
     + (u01 * u01 + u11 * u11) * (n10 * n10 + n11 * n11)
     + 2 * (u00 * u01 + u10 * u11) * (n00 * n10 + n01 * n11)); [ring|].
  rewrite E1, E2, E4. ring.
Qed.

Lemma frob_orth_r V M : orthogonal V -> frob (mmul M V) = frob M.
Proof.
  intros [_ E]. destruct V as [v00 v01 v10 v11], M as [n00 n01 n10 n11].
  unfold mmul, transpose, eye2 in E; simpl in E.
  injection E as E1 E2 E3 E4.
  unfold frob, mmul; simpl.
  transitivity
    ((v00 * v00 + v01 * v01) * (n00 * n00 + n10 * n10)
     + (v10 * v10 + v11 * v11) * (n01 * n01 + n11 * n11)
     + 2 * (v00 * v10 + v01 * v11) * (n00 * n01 + n10 * n11)); [ring|].
  rewrite E1, E2, E4. ring.
Qed.

Lemma svd_frob A U s Vt :
  is_svd A U s Vt -> frob A = fst s * fst s + snd s * snd s.
Proof.
  intros (HU & HV & _ & ->).
  rewrite frob_orth_r, frob_orth_l by assumption.
  unfold frob, diag2; simpl. ring.
Qed.

Lemma svd_det A U s Vt :
  is_svd A U s Vt ->
  det2 A * det2 A = (fst s * snd s) * (fst s * snd s).
Proof.
  intros (HU & HV & _ & ->).
  rewrite !det2_mmul.
  pose proof (det2_orthogonal HU) as EU.
  pose proof (det2_orthogonal HV) as EV.
  assert (ED : det2 (diag2 s) = fst s * snd s)
    by (unfold det2, diag2; simpl; ring).
  rewrite ED.
  transitivity ((det2 U * det2 U) * (det2 Vt * det2 Vt)
                * ((fst s * snd s) * (fst s * snd s))); [ring|].
  rewrite EU, EV. ring.
Qed.

Lemma singular_values_of_rot_scale theta sx sy U s Vt :
  0 < sx -> 0 < sy ->
  is_svd (linear_block (rot_scale_h theta sx sy)) U s Vt ->
  fst s = Rmax sx sy /\ snd s = Rmin sx sy.
Proof.
  intros Hx Hy Hsvd.
  pose proof (svd_frob Hsvd) as EF. pose proof (svd_det Hsvd) as ED.
  destruct Hsvd as (_ & _ & Hs & _).
  destruct s as [s0 s1]; simpl in *.
  pose proof (sin2_cos2 theta) as SC. unfold Rsqr in SC.
  unfold frob, det2, linear_block, rot_scale_h in EF, ED; simpl in EF, ED.
  set (c := cos theta) in *. set (n := sin theta) in *.
  assert (EF' : s0 * s0 + s1 * s1 = sx * sx + sy * sy).
  { rewrite <- EF.
    transitivity ((n * n + c * c) * (sx * sx + sy * sy));
      [ring|rewrite SC; ring]. }
  assert (ED' : (s0 * s1) * (s0 * s1) = (sx * sy) * (sx * sy)).
  { rewrite <- ED.
    transitivity (((n * n + c * c) * (sx * sy)) * ((n * n + c * c) * (sx * sy)));
      [ring|rewrite SC; ring]. }
  clear EF ED SC.
  assert (P : s0 * s1 = sx * sy).
  { apply Rsqr_inj; [nra|nra|exact ED']. }
  assert (S1 : s0 + s1 = sx + sy).
  { apply Rsqr_inj; [lra|lra|]. unfold Rsqr. nra. }
  assert (D : s0 - s1 = Rabs (sx - sy)).
  { apply Rsqr_inj; [lra|apply Rabs_pos|].
    rewrite <- Rsqr_abs. unfold Rsqr. nra. }
  unfold Rmax, Rmin, Rabs in *.
  destruct (Rle_dec sx sy); destruct (Rcase_abs (sx - sy)); lra.
Qed.

(** C8 fails where the y scale exceeds the x scale: for a homography
    R(theta) * diag(sx, sy) with 0 < sx < sy, every SVD that numpy can
    return has its singular values in descending order, so the function
    reports scale_x = sy and scale_y = sx, the two scales exchanged. *)
Theorem decompose_homography_exchanges_scales :
  forall (svd : svd_fn) (theta sx sy : R) U s Vt,
    0 < sx -> sx < sy ->
    svd (linear_block (normalize_h (rot_scale_h theta sx sy)))
      = Some (U, s, Vt) ->
    is_svd (linear_block (normalize_h (rot_scale_h theta sx sy))) U s Vt ->
    let tp := decompose_homography svd (rot_scale_h theta sx sy) in
    scale_x tp = sy /\ scale_y tp = sx.
Proof.
  intros svd theta sx sy U s Vt Hx Hxy E Hsvd tp.
  unfold tp, decompose_homography, rotation_and_scales. rewrite E.
  rewrite normalize_h_unit in Hsvd by reflexivity.
  destruct (@singular_values_of_rot_scale theta sx sy U s Vt) as [E0 E1];
    try lra; [exact Hsvd|].
  unfold Rmax in E0. unfold Rmin in E1.
  destruct (Rle_dec sx sy); [|lra].
  destruct (Rltb _ 0); simpl; auto.
Qed.

(** theta = 0, sx = 1, sy = 2: the homography diag(1, 2, 1).  The claim
    wants scale_x within 2% of 1; the function reports 2. *)
Lemma decompose_homography_exchanges_scales_witness :
  let tp := decompose_homography stretch_y_svd (rot_scale_h 0 1 2) in
  scale_x tp = 2 /\ scale_y tp = 1 /\ ~ (Rabs (scale_x tp - 1) <= 2 / 100 * 1).
Proof.
  destruct (@decompose_homography_exchanges_scales
              stretch_y_svd 0 1 2 swap2 (2, 1) swap2) as [E1 E2].
  - lra.
  - lra.
  - reflexivity.
  - rewrite normalize_h_unit by reflexivity.
    unfold is_svd, orthogonal, mmul, transpose, eye2, diag2, linear_block,
      rot_scale_h, swap2; simpl. rewrite cos_0, sin_0.
    repeat split; try lra; f_equal; ring.
  - simpl. rewrite E1, E2. split; [reflexivity|]. split; [reflexivity|].
    replace (2 - 1) with 1 by ring. rewrite Rabs_R1. lra.
Defined.

(** On the same input the [except] branch reports the scale of each
    axis: scale_x = sx and scale_y = sy. *)
Lemma decompose_homography_fallback_keeps_axes theta sx sy :
  0 <= sx -> 0 <= sy ->
  let tp := decompose_homography (fun _ => None) (rot_scale_h theta sx sy) in
  scale_x tp = sx /\ scale_y tp = sy.
Proof.
  intros Hx Hy tp. unfold tp, decompose_homography, rotation_and_scales.
  rewrite normalize_h_unit by reflexivity. simpl.
  pose proof (sin2_cos2 theta) as SC. unfold Rsqr in SC.
  unfold norm2. split.
  - replace (cos theta * sx * (cos theta * sx) + sin theta * sx * (sin theta * sx))
      with ((sin theta * sin theta + cos theta * cos theta) * (sx * sx)) by ring.
    rewrite SC, Rmult_1_l. apply sqrt_square. exact Hx.
  - replace (- sin theta * sy * (- sin theta * sy) + cos theta * sy * (cos theta * sy))
      with ((sin theta * sin theta + cos theta * cos theta) * (sy * sy)) by ring.
    rewrite SC, Rmult_1_l. apply sqrt_square. exact Hy.
Qed.
End TransformFacts.

Section AlignPageFacts.
Import Train.

(** When all three detectors find nothing, [align_page] raises
    [RuntimeError("Page quad not found.")]. *)
Lemma align_page_total_failure {Image : Type} (cv : cv_ops Image) (bgr : Image) :
  let pre := preprocess cv (auto_upscale cv bgr) in
  detect_quad_bright cv pre = None ->
  detect_quad_lsd cv pre = None ->
  detect_quad_minrect cv pre = None ->
  align_page cv bgr = Py.Raised (Py.RuntimeError "Page quad not found.").
Proof.
  intros pre Hb Hl Hm. unfold align_page, find_quad, py_or.
  fold pre. rewrite Hb. simpl. rewrite Hl. simpl. rewrite Hm. reflexivity.
Qed.

(** [align_page] returns only with a quad of the min-rect detector, after
    the other two found nothing. *)
Lemma align_page_returns_only_minrect {Image : Type} (cv : cv_ops Image)
      (bgr : Image) r :
  align_page cv bgr = Py.Ok r ->
  let pre := preprocess cv (auto_upscale cv bgr) in
  detect_quad_bright cv pre = None /\ detect_quad_lsd cv pre = None /\
  exists q, detect_quad_minrect cv pre = Some q.
Proof.
  intros E pre. unfold align_page, find_quad, py_or in E. fold pre in E.
  destruct (detect_quad_bright cv pre); simpl in E; [discriminate|].
  destruct (detect_quad_lsd cv pre); simpl in E; [discriminate|].
  destruct (detect_quad_minrect cv pre) as [q|]; [|discriminate].
  repeat split. exists q. reflexivity.
Qed.

(** C9 on [align_page]: total detection failure is surfaced as
    [RuntimeError("Page quad not found.")], but it is not the only fatal
    condition: as soon as the bright-paper detector (or, after it found
    nothing, the line-segment detector) returns a quadrilateral,
    "[quad = a or b or c]" asks for the truth value of a 4x2 numpy array
    and [align_page] raises [ValueError]. *)
Theorem align_page_fatal_conditions :
  forall (Image : Type) (cv : cv_ops Image) (bgr : Image),
    let pre := preprocess cv (auto_upscale cv bgr) in
    (detect_quad_bright cv pre = None ->
     detect_quad_lsd cv pre = None ->
     detect_quad_minrect cv pre = None ->
     align_page cv bgr = Py.Raised (Py.RuntimeError "Page quad not found."))
    /\ (forall q, detect_quad_bright cv pre = Some q ->
                  align_page cv bgr
                  = Py.Raised (Py.ValueError ambiguous_truth_value))
    /\ (forall q, detect_quad_bright cv pre = None ->
                  detect_quad_lsd cv pre = Some q ->
                  align_page cv bgr
                  = Py.Raised (Py.ValueError ambiguous_truth_value)).
Proof.
  intros Image cv bgr pre. split; [|split].
  - apply align_page_total_failure.
  - intros q Hb. unfold align_page, find_quad, py_or. fold pre.
    rewrite Hb. reflexivity.
  - intros q Hb Hl. unfold align_page, find_quad, py_or. fold pre.
    rewrite Hb. simpl. rewrite Hl. reflexivity.
Qed.

(** The page outline is found by the bright-paper detector, and the call
    fails; nothing is found, and the call fails with the documented error. *)
Lemma align_page_fatal_conditions_witness :
  align_page ops_bright_finds tt
  = Py.Raised (Py.ValueError ambiguous_truth_value)
  /\ align_page ops_nothing_found tt
     = Py.Raised (Py.RuntimeError "Page quad not found.").
Proof.
  split.
  - apply (proj1 (proj2 (align_page_fatal_conditions ops_bright_finds tt))
             page_outline).
    reflexivity.
  - apply (proj1 (align_page_fatal_conditions ops_nothing_found tt));
      reflexivity.
Defined.
End AlignPageFacts.

(** Case analysis on the next [match] or [if] of the goal or of a
    hypothesis, closing the cases that are contradictory. *)
Ltac break_match :=
  match goal with
  | |- context [match ?x with _ => _ end] => destruct x eqn:?
  | H : context [match ?x with _ => _ end] |- _ => destruct x eqn:?
  end.

Ltac break_all :=
  repeat (break_match; simpl in *; try discriminate; try congruence).

Section AlignmentFacts.
Import Segment.
Local Open Scope R_scope.
Context {Image : Type} (cv : cv_ops Image).

(** *** What the alignment stage leaves *)

Lemma feature_step_none img :
  al_warped (feature_step cv img) = None ->
  feature_step cv img = init_alignment.
Proof. unfold feature_step. break_all. Qed.

Lemma feature_step_some img w :
  al_warped (feature_step cv img) = Some w ->
  al_used_method (feature_step cv img) = Some feature_homography.
Proof. unfold feature_step. break_all. Qed.

Lemma doc_detect_step_init img found :
  (al_warped (doc_detect_step cv img found init_alignment) = None /\
   doc_detect_step cv img found init_alignment = init_alignment)
  \/ (exists w Ht Hi,
         al_warped (doc_detect_step cv img found init_alignment) = Some w /\
         al_used_method (doc_detect_step cv img found init_alignment)
         = Some doc_detect /\
         al_H_template_to_img (doc_detect_step cv img found init_alignment)
         = Some Ht /\
         al_H_img_to_template (doc_detect_step cv img found init_alignment)
         = Some Hi).
Proof.
  unfold doc_detect_step.
  break_all;
    first [ left; split; reflexivity
          | right; do 3 eexists; repeat split; reflexivity ].
Qed.

Lemma align_single_unfold img :
  align_single cv img =
  if size_diff_ok (snd (shape cv img)) (fst (shape cv img))
  then identity_alignment img init_alignment
  else last_resort cv img false
         (doc_detect_step cv img (contour_quad cv img) init_alignment).
Proof.
  unfold align_single. destruct (shape cv img) as [h w]. simpl.
  destruct (size_diff_ok w h); reflexivity.
Qed.

Lemma align_with_features_unfold img :
  align_with_features cv img =
  match al_warped (feature_step cv img) with
  | Some _ => feature_step cv img
  | None =>
      if size_diff_ok (snd (shape cv img)) (fst (shape cv img))
      then identity_alignment img (feature_step cv img)
      else last_resort cv img false
             (doc_detect_step cv img (found_with_hough cv img)
                              (feature_step cv img))
  end.
Proof.
  unfold align_with_features, found_with_hough.
  destruct (shape cv img) as [h w]. simpl.
  destruct (al_warped (feature_step cv img)); [reflexivity|].
  destruct (size_diff_ok w h); reflexivity.
Qed.

(** Both alignment stages always produce an aligned image: the
    "Could not produce warped aligned image" error cannot occur. *)
Lemma align_single_warped img :
  exists w, al_warped (align_single cv img) = Some w.
Proof.
  rewrite align_single_unfold.
  destruct (size_diff_ok _ _); [simpl; eauto|].
  unfold last_resort. break_all; eauto.
Qed.

Lemma align_with_features_warped img :
  exists w, al_warped (align_with_features cv img) = Some w.
Proof.
  rewrite align_with_features_unfold.
  destruct (al_warped (feature_step cv img)) eqn:E; [eauto|].
  destruct (size_diff_ok _ _); [simpl; eauto|].
  unfold last_resort. break_all; eauto.
Qed.

(** The method tag and the homography go together. *)
Lemma align_single_method img :
  let a := align_single cv img in
  (al_used_method a = Some identity_size_match /\
   al_H_img_to_template a = None /\ al_confidence a = 95 / 100 /\
   size_diff_ok (snd (shape cv img)) (fst (shape cv img)) = true)
  \/ (al_used_method a = Some doc_detect /\
      (exists Hi, al_H_img_to_template a = Some Hi) /\
      size_mismatch cv img)
  \/ (al_used_method a = Some simple_resize_fallback /\
      al_H_img_to_template a = None /\ al_confidence a = 0 /\
      size_mismatch cv img /\ detection_failed_single cv img).
Proof.
  intros a. unfold a, size_mismatch, detection_failed_single.
  rewrite align_single_unfold.
  destruct (size_diff_ok _ _) eqn:Es.
  - left. simpl. auto 10.
  - right.
    destruct (doc_detect_step_init img (contour_quad cv img))
      as [[Hn He]|(w & Ht & Hi & Hw & Hm & H1 & H2)].
    + right. rewrite He. simpl. rewrite He in Hn. auto 10.
    + left. unfold last_resort. rewrite Hw. eauto.
Qed.

Lemma align_with_features_method img :
  let a := align_with_features cv img in
  (al_used_method a = Some feature_homography)
  \/ (al_used_method a = Some identity_size_match /\
      al_H_img_to_template a = None /\ al_confidence a = 95 / 100 /\
      size_diff_ok (snd (shape cv img)) (fst (shape cv img)) = true)
  \/ (al_used_method a = Some doc_detect /\
      (exists Hi, al_H_img_to_template a = Some Hi) /\
      size_mismatch cv img)
  \/ (al_used_method a = Some simple_resize_fallback /\
      al_H_img_to_template a = None /\ al_confidence a = 0 /\
      size_mismatch cv img /\ detection_failed_features cv img).
Proof.
  intros a. unfold a, size_mismatch, detection_failed_features.
  rewrite align_with_features_unfold.
  destruct (al_warped (feature_step cv img)) eqn:Ef.
  - left. eapply feature_step_some, Ef.
  - right. rewrite (feature_step_none _ Ef).
    destruct (size_diff_ok _ _) eqn:Es.
    + left. simpl. auto 10.
    + right.
      destruct (doc_detect_step_init img (found_with_hough cv img))
        as [[Hn He]|(w & Ht & Hi & Hw & Hm & H1 & H2)].
      * right. rewrite He. simpl. rewrite He in Hn. auto 10.
      * left. unfold last_resort. rewrite Hw. eauto.
Qed.
End AlignmentFacts.

Section PerspectiveFacts.
Import Segment.
Local Open Scope R_scope.

Lemma dbl_epsilon_lt_1 : DBL_EPSILON < 1.
Proof.
  unfold DBL_EPSILON.
  assert (H : 1 < 2 ^ 52) by (apply Rlt_pow_R1; [lra|lia]).
  pose proof (inv_lt_1 H) as H1. unfold Rdiv in H1. lra.
Qed.

Lemma perspectiveTransform_eye3 p : perspectiveTransform eye3 p = p.
Proof.
  destruct p as [x y]. unfold perspectiveTransform, eye3; simpl.
  replace (0 * x + 0 * y + 1) with 1 by ring.
  rewrite Rabs_R1.
  assert (Rltb DBL_EPSILON 1 = true) as ->
      by (apply Rltb_true, dbl_epsilon_lt_1).
  f_equal; field.
Qed.

Lemma norm2_x x y : y = 0 -> norm2 x y = Rabs x.
Proof.
  intros ->. unfold norm2.
  replace (x * x + 0 * 0) with (Rsqr x) by (unfold Rsqr; ring).
  apply sqrt_Rsqr_abs.
Qed.

Lemma norm2_y x y : x = 0 -> norm2 x y = Rabs y.
Proof.
  intros ->. unfold norm2.
  replace (0 * 0 + y * y) with (Rsqr y) by (unfold Rsqr; ring).
  apply sqrt_Rsqr_abs.
Qed.

Lemma min4_le_max4 a b c d : min4 a b c d <= max4 a b c d.
Proof. unfold min4, max4, Rmin, Rmax. destruct_Rdec; lra. Qed.

Lemma min4_eq_max4 a b c d :
  max4 a b c d = min4 a b c d <-> a = b /\ b = c /\ c = d.
Proof. unfold min4, max4, Rmin, Rmax. destruct_Rdec; lra. Qed.

Lemma micro_pos : 0 < 1 / 10 ^ 6.
Proof. apply Rdiv_lt_0_compat; [lra|apply pow_lt; lra]. Qed.

(** The distortion value is never negative, and it is 0 only for a
    degenerate or equal-sided image of the template rectangle. *)
Lemma distortion_zero_iff H tw th :
  let pm := measure_perspective_from_template_to_image H tw th in
  0 <= perspective_distortion_pct pm /\
  forall l0 l1 l2 l3,
    side_lengths pm = [l0; l1; l2; l3] ->
    (perspective_distortion_pct pm = 0 <->
     min4 l0 l1 l2 l3 <= 1 / 10 ^ 6 \/ (l0 = l1 /\ l1 = l2 /\ l2 = l3)).
Proof.
  unfold measure_perspective_from_template_to_image. cbv zeta.
  cbn [perspective_distortion_pct side_lengths].
  match goal with
  | |- context [Rleb (min4 ?a ?b ?c ?d) _] =>
      set (l0 := a); set (l1 := b); set (l2 := c); set (l3 := d)
  end.
  pose proof micro_pos as Hm.
  pose proof (min4_le_max4 l0 l1 l2 l3) as Hle.
  pose proof (min4_eq_max4 l0 l1 l2 l3) as Heq.
  set (mn := min4 l0 l1 l2 l3) in *. set (mx := max4 l0 l1 l2 l3) in *.
  destruct (Rleb mn (1 / 10 ^ 6)) eqn:E.
  - apply Rleb_true in E. split; [lra|].
    intros ? ? ? ? Hs. injection Hs as <- <- <- <-. fold mn.
    split; [intros _; left; exact E|reflexivity].
  - apply Rleb_false in E.
    assert (Hpos : 0 < mn) by lra.
    assert (Hdiv : mx / mn * mn = mx) by (field; lra).
    split.
    + assert (1 <= mx / mn) by nra. lra.
    + intros ? ? ? ? Hs. injection Hs as <- <- <- <-. fold mn. split.
      * intros Hz. right. apply Heq. nra.
      * intros [Hc|Hc]; [lra|]. apply Heq in Hc. rewrite Hc.
        replace (mn / mn) with 1 by (field; lra). ring.
Qed.

(** C6 as stated fails: the identity homography is purely affine (bottom
    row [0, 0, 1]), and the reported distortion for the 1700 x 2200
    template is (2199/1699 - 1) * 100, about 29.4, since the template
    rectangle itself has unequal sides. *)
Lemma affine_homography_nonzero_distortion :
  affine eye3 /\
  perspective_distortion_pct
    (measure_perspective_from_template_to_image eye3 TEMPLATE_W TEMPLATE_H)
  = (2199 / 1699 - 1) * 100 /\
  perspective_distortion_pct
    (measure_perspective_from_template_to_image eye3 TEMPLATE_W TEMPLATE_H)
  <> 0.
Proof.
  assert (E : perspective_distortion_pct
                (measure_perspective_from_template_to_image
                   eye3 TEMPLATE_W TEMPLATE_H)
              = (2199 / 1699 - 1) * 100).
  { unfold measure_perspective_from_template_to_image, TEMPLATE_W, TEMPLATE_H.
    cbv zeta. cbn [perspective_distortion_pct].
    change (1700 - 1)%Z with 1699%Z. change (2200 - 1)%Z with 2199%Z.
    rewrite !perspectiveTransform_eye3. unfold dist. cbn [fst snd].
    rewrite (@norm2_x (1699 - 0) (0 - 0)) by ring.
    rewrite (@norm2_y (1699 - 1699) (2199 - 0)) by ring.
    rewrite (@norm2_x (0 - 1699) (2199 - 2199)) by ring.
    rewrite (@norm2_y (0 - 0) (0 - 2199)) by ring.
    replace (Rabs (1699 - 0)) with 1699 by (rewrite Rabs_right; lra).
    replace (Rabs (2199 - 0)) with 2199 by (rewrite Rabs_right; lra).
    replace (Rabs (0 - 1699)) with 1699 by (rewrite Rabs_left; lra).
    replace (Rabs (0 - 2199)) with 2199 by (rewrite Rabs_left; lra).
    assert (Emin : min4 1699 2199 1699 2199 = 1699)
      by (unfold min4, Rmin; destruct_Rdec; lra).
    assert (Emax : max4 1699 2199 1699 2199 = 2199)
      by (unfold max4, Rmax; destruct_Rdec; lra).
    rewrite Emin, Emax.
    assert (Rleb 1699 (1 / 10 ^ 6) = false) as ->.
    { apply Rleb_false. pose proof (@inv_lt_1 (10 ^ 6)) as Hi.
      assert (1 < 10 ^ 6) by (apply Rlt_pow_R1; [lra|lia]).
      specialize (Hi H). lra. }
    reflexivity. }
  split; [unfold affine, eye3; simpl; auto|]. split; [exact E|].
  rewrite E. lra.
Qed.
End PerspectiveFacts.

Section ProcessFacts.
Import Segment.
Local Open Scope R_scope.
Context {Image : Type} (cv : cv_ops Image).

Lemma metadata_of_fields (a : alignment Image) (w : Image) :
  let m := metadata_of cv a w in
  used_method m = al_used_method a /\
  alignment_confidence m = al_confidence a /\
  transform_params m = fst (metrics_of cv a) /\
  perspective_metrics m = snd (metrics_of cv a) /\
  residual_mad m = residual_mad_of cv w /\
  manual_check_reasons m =
    manual_check_heuristics (al_confidence a) (residual_mad_of cv w)
                            (fst (metrics_of cv a)) (snd (metrics_of cv a)) /\
  manual_check_needed m = (0 <? length (manual_check_reasons m))%nat.
Proof.
  unfold metadata_of. destruct (metrics_of cv a) as [tp pm]. simpl.
  repeat split; reflexivity.
Qed.

Lemma process_single_image_ok bytes df s :
  process_single_image cv bytes df = Py.Ok s ->
  exists img w,
    imdecode cv bytes = Some img /\
    al_warped (align_single cv img) = Some w /\
    let m := metadata_of cv (align_single cv img) w in
    let st := fold_left (crop_step cv w) df
                {| cs_crops := [];
                   cs_reasons := manual_check_reasons m;
                   cs_flag := manual_check_needed m |} in
    used_method (meta s) = used_method m /\
    alignment_confidence (meta s) = alignment_confidence m /\
    transform_params (meta s) = transform_params m /\
    perspective_metrics (meta s) = perspective_metrics m /\
    residual_mad (meta s) = residual_mad m /\
    manual_check_needed (meta s) = cs_flag st /\
    manual_check_reasons (meta s) = cs_reasons st.
Proof.
  unfold process_single_image. intros E.
  destruct (imdecode cv bytes) as [img|]; [|discriminate].
  destruct (al_warped (align_single cv img)) as [w|] eqn:Ew; [|discriminate].
  injection E as <-. exists img, w. simpl.
  split; [reflexivity|]. split; [exact Ew|]. repeat split; reflexivity.
Qed.

Lemma process_single_image_returns bytes df img :
  imdecode cv bytes = Some img ->
  exists s, process_single_image cv bytes df = Py.Ok s.
Proof.
  intros E. unfold process_single_image. rewrite E.
  destruct (align_single_warped cv img) as [w Hw]. rewrite Hw. eauto.
Qed.

Lemma with_alignment_ok img w m :
  process_single_image_with_alignment cv img = Py.Ok (w, m) ->
  al_warped (align_with_features cv img) = Some w /\
  m = metadata_of cv (align_with_features cv img) w.
Proof.
  unfold process_single_image_with_alignment.
  destruct (al_warped (align_with_features cv img)) as [w'|]; [|discriminate].
  intros E. injection E as <- <-. split; reflexivity.
Qed.

(** On a decodable image (an array, for the second function) neither
    function raises: total detection failure ends in the resize fallback. *)
Lemma with_alignment_returns img :
  exists w m, process_single_image_with_alignment cv img = Py.Ok (w, m).
Proof.
  unfold process_single_image_with_alignment.
  destruct (align_with_features_warped cv img) as [w Hw]. rewrite Hw. eauto.
Qed.

Lemma metrics_without_homography (a : alignment Image) :
  al_H_img_to_template a = None ->
  metrics_of cv a = (identity_params, zero_metrics).
Proof. unfold metrics_of. intros ->. reflexivity. Qed.
End ProcessFacts.

Section FallbackFacts.
Import Segment.
Local Open Scope R_scope.

Lemma single_resize_fallback {Image : Type} (cv : cv_ops Image) bytes df img :
  imdecode cv bytes = Some img ->
  size_mismatch cv img -> detection_failed_single cv img ->
  exists s,
    process_single_image cv bytes df = Py.Ok s /\
    used_method (meta s) = Some simple_resize_fallback /\
    alignment_confidence (meta s) = 0.
Proof.
  intros Hd Hs Hf.
  destruct (process_single_image_returns cv bytes df Hd) as [s Es].
  exists s. split; [exact Es|].
  destruct (process_single_image_ok cv _ _ Es)
    as (img' & w & Hd' & Hw & Hm & Hc & _).
  rewrite Hd in Hd'. injection Hd' as <-.
  destruct (metadata_of_fields cv (align_single cv img) w) as (F1 & F2 & _).
  rewrite Hm, Hc, F1, F2.
  rewrite align_single_unfold. unfold size_mismatch in Hs. rewrite Hs.
  unfold detection_failed_single in Hf.
  unfold last_resort. rewrite Hf. simpl. split; reflexivity.
Qed.

Lemma features_resize_fallback {Image : Type} (cv : cv_ops Image) img :
  size_mismatch cv img -> detection_failed_features cv img ->
  exists w m,
    process_single_image_with_alignment cv img = Py.Ok (w, m) /\
    used_method m = Some simple_resize_fallback /\
    alignment_confidence m = 0.
Proof.
  intros Hs [Hf1 Hf2].
  destruct (with_alignment_returns cv img) as (w & m & E).
  exists w, m. split; [exact E|].
  destruct (with_alignment_ok cv _ E) as [Hw ->].
  destruct (metadata_of_fields cv (align_with_features cv img) w)
    as (F1 & F2 & _).
  rewrite F1, F2.
  rewrite align_with_features_unfold. rewrite Hf1.
  unfold size_mismatch in Hs. rewrite Hs.
  unfold last_resort. rewrite Hf2. simpl. split; reflexivity.
Qed.

Lemma sample_size_mismatch : size_mismatch ops_nothing_detected tt.
Proof.
  unfold size_mismatch, size_diff_ok, ops_nothing_detected, shape.
  cbn [fst snd].
  apply andb_false_iff. left. apply Rleb_false.
  unfold TEMPLATE_W, SIZE_TOL_PCT.
  change (Z.abs (640 - 1700)) with 1060%Z. lra.
Qed.

(** What the two functions report on the photograph in which nothing is
    detected. *)
Lemma sample_single_result :
  exists s,
    process_single_image ops_nothing_detected [] sample_labels = Py.Ok s /\
    used_method (meta s) = Some simple_resize_fallback /\
    alignment_confidence (meta s) = 0.
Proof.
  apply (@single_resize_fallback _ ops_nothing_detected [] sample_labels tt);
    [reflexivity|apply sample_size_mismatch|reflexivity].
Qed.

Lemma sample_features_result :
  exists w m,
    process_single_image_with_alignment ops_nothing_detected tt = Py.Ok (w, m)
    /\ used_method m = Some simple_resize_fallback
    /\ alignment_confidence m = 0.
Proof.
  apply features_resize_fallback; [apply sample_size_mismatch|].
  split; reflexivity.
Qed.

(** C10: when the input size is out of tolerance and no detection method
    yields a warp, both functions report [simple_resize_fallback] with
    confidence 0; and neither function ever reports
    [identity_after_failed_detection], whose branch re-tests
    [size_diff_ok] where it is known to be false. *)
Theorem failed_detection_uses_resize_fallback :
  forall (Image : Type) (cv : cv_ops Image),
    (forall bytes df img,
        imdecode cv bytes = Some img ->
        size_mismatch cv img -> detection_failed_single cv img ->
        exists s,
          process_single_image cv bytes df = Py.Ok s /\
          used_method (meta s) = Some simple_resize_fallback /\
          alignment_confidence (meta s) = 0)
    /\ (forall img,
           size_mismatch cv img -> detection_failed_features cv img ->
           exists w m,
             process_single_image_with_alignment cv img = Py.Ok (w, m) /\
             used_method m = Some simple_resize_fallback /\
             alignment_confidence m = 0)
    /\ (forall bytes df s,
           process_single_image cv bytes df = Py.Ok s ->
           used_method (meta s) <> Some identity_after_failed_detection)
    /\ (forall img w m,
           process_single_image_with_alignment cv img = Py.Ok (w, m) ->
           used_method m <> Some identity_after_failed_detection).
Proof.
  intros Image cv. split; [|split; [|split]].
  - intros bytes df img. apply single_resize_fallback.
  - intros img. apply features_resize_fallback.
  - intros bytes df s Es.
    destruct (process_single_image_ok cv _ _ Es)
      as (img & w & _ & _ & Hm & _).
    destruct (metadata_of_fields cv (align_single cv img) w) as (F1 & _).
    rewrite Hm, F1.
    destruct (align_single_method cv img)
      as [(E & _)|[(E & _)|(E & _)]]; rewrite E; discriminate.
  - intros img w m E.
    destruct (with_alignment_ok cv _ E) as [_ ->].
    destruct (metadata_of_fields cv (align_with_features cv img) w) as (F1 & _).
    rewrite F1.
    destruct (align_with_features_method cv img)
      as [E1|[(E1 & _)|[(E1 & _)|(E1 & _)]]]; rewrite E1; discriminate.
Qed.

(** A 640 x 480 photograph in which nothing is detected. *)
Lemma failed_detection_uses_resize_fallback_witness :
  (exists s,
      process_single_image ops_nothing_detected [] sample_labels = Py.Ok s /\
      used_method (meta s) = Some simple_resize_fallback /\
      alignment_confidence (meta s) = 0)
  /\ (exists w m,
         process_single_image_with_alignment ops_nothing_detected tt
         = Py.Ok (w, m) /\
         used_method m = Some simple_resize_fallback /\
         alignment_confidence m = 0).
Proof.
  destruct (failed_detection_uses_resize_fallback ops_nothing_detected)
    as (P1 & P2 & _).
  split.
  - apply (P1 [] sample_labels tt); [reflexivity|apply sample_size_mismatch|].
    reflexivity.
  - apply (P2 tt); [apply sample_size_mismatch|]. split; reflexivity.
Defined.

(** *** The distortion report on the paths with a homography *)

Lemma measure_perspective_reports (H : Mat3) :
  reports_distortion_of H
    (measure_perspective_from_template_to_image H TEMPLATE_W TEMPLATE_H).
Proof.
  unfold reports_distortion_of, measure_perspective_from_template_to_image,
    TEMPLATE_W, TEMPLATE_H.
  change (1700 - 1)%Z with 1699%Z. change (2200 - 1)%Z with 2199%Z.
  cbv zeta. cbn [corner_points_image side_lengths perspective_distortion_pct].
  split; [reflexivity|]. split; [reflexivity|].
  unfold distortion_formula, min4, max4, dist, norm2, side_length. cbv zeta.
  match goal with
  | |- context [Rleb ?m _] => set (mn := m)
  end.
  destruct (Rleb mn (1 / 10 ^ 6)) eqn:E.
  - apply Rleb_true in E. split; [reflexivity|intros C; exfalso; lra].
  - apply Rleb_false in E. split; [intros C; exfalso; lra|reflexivity].
Qed.

Lemma metrics_with_homography {Image : Type} (cv : cv_ops Image)
      (a : alignment Image) (Ht Hi : Mat3) :
  al_H_template_to_img a = Some Ht ->
  al_H_img_to_template a = Some Hi ->
  snd (metrics_of cv a)
  = measure_perspective_from_template_to_image Ht TEMPLATE_W TEMPLATE_H.
Proof. unfold metrics_of. intros -> ->. reflexivity. Qed.

Lemma doc_detect_step_homography {Image : Type} (cv : cv_ops Image)
      img found :
  let a := doc_detect_step cv img found init_alignment in
  al_used_method a = Some doc_detect ->
  exists q r Hi,
    found = Some (q, r) /\
    al_H_template_to_img a = Some (getPerspectiveTransform cv q) /\
    al_H_img_to_template a = Some Hi.
Proof.
  cbv zeta. unfold doc_detect_step.
  destruct found as [[q r]|]; [|discriminate].
  destruct (Rltb MIN_DOC_AREA_RATIO r); [|discriminate].
  destruct (safe_inverse cv (getPerspectiveTransform cv q)) as [Hi|];
    [|discriminate].
  destruct (warp_image_with_H cv img Hi) as [wc|]; [|discriminate].
  destruct (Rleb (blank_frac cv wc) (90 / 100)); [|discriminate].
  intros _. exists q, r, Hi. auto.
Qed.

Lemma last_resort_doc_detect {Image : Type} (cv : cv_ops Image) img
      (a : alignment Image) :
  al_used_method (last_resort cv img false a) = Some doc_detect ->
  last_resort cv img false a = a.
Proof.
  unfold last_resort. destruct (al_warped a); [reflexivity|discriminate].
Qed.

Lemma align_single_doc_detect {Image : Type} (cv : cv_ops Image) img :
  let a := align_single cv img in
  al_used_method a = Some doc_detect ->
  exists q r Hi,
    contour_quad cv img = Some (q, r) /\
    al_H_template_to_img a = Some (getPerspectiveTransform cv q) /\
    al_H_img_to_template a = Some Hi.
Proof.
  cbv zeta. rewrite align_single_unfold.
  destruct (size_diff_ok _ _); [discriminate|].
  intros Hm. rewrite (last_resort_doc_detect _ _ _ Hm) in Hm |- *.
  apply doc_detect_step_homography. exact Hm.
Qed.

Lemma align_with_features_homography {Image : Type} (cv : cv_ops Image)
      img :
  let a := align_with_features cv img in
  (al_used_method a = Some feature_homography ->
   exists Ht stats Hi,
     compute_homography_via_features cv img = (Some Ht, stats) /\
     al_H_template_to_img a = Some Ht /\
     al_H_img_to_template a = Some Hi)
  /\ (al_used_method a = Some doc_detect ->
      exists q r Hi,
        found_with_hough cv img = Some (q, r) /\
        al_H_template_to_img a = Some (getPerspectiveTransform cv q) /\
        al_H_img_to_template a = Some Hi).
Proof.
  cbv zeta. rewrite align_with_features_unfold.
  destruct (al_warped (feature_step cv img)) as [wf|] eqn:Ef.
  - split.
    + intros _. revert Ef. unfold feature_step.
      destruct (compute_homography_via_features cv img) as [[Ht|] stats];
        [|discriminate].
      destruct (safe_inverse cv Ht) as [Hi|]; [|discriminate].
      destruct (warp_image_with_H cv img Hi) as [wc|]; [|discriminate].
      intros _. exists Ht, stats, Hi. auto.
    + rewrite (feature_step_some cv _ Ef). discriminate.
  - rewrite (feature_step_none cv _ Ef).
    destruct (size_diff_ok _ _); [split; discriminate|].
    split.
    + intros Hm. exfalso. revert Hm. unfold last_resort.
      destruct (doc_detect_step_init cv img (found_with_hough cv img))
        as [[Hn He]|(w & Ht & Hi & Hw & Hm' & _)].
      * rewrite Hn. discriminate.
      * rewrite Hw, Hm'. discriminate.
    + intros Hm. rewrite (last_resort_doc_detect _ _ _ Hm) in Hm |- *.
      apply doc_detect_step_homography. exact Hm.
Qed.

(** C6, as amended: when no homography is available (the identity and
    resize paths, where [H_img_to_template] is None) the reported
    perspective_distortion_pct is 0.  When one is available (the methods
    [doc_detect] and [feature_homography]), purely affine or not, the
    reported corners are the images of the four template corners under
    that homography, the reported side lengths are the distances between
    consecutive corners, and the reported value is
    (max_side / min_side - 1) * 100, or 0 when the shortest side is at most
    1e-6; the value is never negative and is 0 exactly when the shortest
    side is at most 1e-6 or the four sides are equal.  Every result is on
    one of these paths. *)
Theorem distortion_zero_without_homography :
  forall (Image : Type) (cv : cv_ops Image),
    (forall bytes df s,
        process_single_image cv bytes df = Py.Ok s ->
        no_homography_method (used_method (meta s)) ->
        perspective_distortion_pct (perspective_metrics (meta s)) = 0)
    /\ (forall img w m,
           process_single_image_with_alignment cv img = Py.Ok (w, m) ->
           no_homography_method (used_method m) ->
           perspective_distortion_pct (perspective_metrics m) = 0)
    /\ (forall (H : Mat3) (tw th : Z),
           let pm := measure_perspective_from_template_to_image H tw th in
           0 <= perspective_distortion_pct pm /\
           forall l0 l1 l2 l3,
             side_lengths pm = [l0; l1; l2; l3] ->
             (perspective_distortion_pct pm = 0 <->
              min4 l0 l1 l2 l3 <= 1 / 10 ^ 6
              \/ (l0 = l1 /\ l1 = l2 /\ l2 = l3)))
    /\ (forall bytes df s,
           process_single_image cv bytes df = Py.Ok s ->
           used_method (meta s) = Some doc_detect ->
           exists img q r,
             imdecode cv bytes = Some img /\
             contour_quad cv img = Some (q, r) /\
             reports_distortion_of (getPerspectiveTransform cv q)
                                   (perspective_metrics (meta s)))
    /\ (forall img w m,
           process_single_image_with_alignment cv img = Py.Ok (w, m) ->
           (used_method m = Some doc_detect ->
            exists q r,
              found_with_hough cv img = Some (q, r) /\
              reports_distortion_of (getPerspectiveTransform cv q)
                                    (perspective_metrics m))
           /\ (used_method m = Some feature_homography ->
               exists Ht stats,
                 compute_homography_via_features cv img = (Some Ht, stats) /\
                 reports_distortion_of Ht (perspective_metrics m)))
    /\ (forall bytes df s,
           process_single_image cv bytes df = Py.Ok s ->
           no_homography_method (used_method (meta s))
           \/ used_method (meta s) = Some doc_detect)
    /\ (forall img w m,
           process_single_image_with_alignment cv img = Py.Ok (w, m) ->
           no_homography_method (used_method m)
           \/ used_method m = Some doc_detect
           \/ used_method m = Some feature_homography).
Proof.
  intros Image cv. split; [|split; [|split; [|split; [|split; [|split]]]]].
  - intros bytes df s Es Hn.
    destruct (process_single_image_ok cv _ _ Es)
      as (img & w & _ & _ & Hm & _ & _ & Hp & _).
    destruct (metadata_of_fields cv (align_single cv img) w)
      as (F1 & _ & _ & F4 & _).
    rewrite Hm, F1 in Hn. rewrite Hp, F4.
    destruct (align_single_method cv img)
      as [(E & HN & _)|[(E & _)|(E & HN & _)]].
    + rewrite (metrics_without_homography cv _ HN). reflexivity.
    + rewrite E in Hn. destruct Hn; discriminate.
    + rewrite (metrics_without_homography cv _ HN). reflexivity.
  - intros img w m E Hn.
    destruct (with_alignment_ok cv _ E) as [_ ->].
    destruct (metadata_of_fields cv (align_with_features cv img) w)
      as (F1 & _ & _ & F4 & _).
    rewrite F1 in Hn. rewrite F4.
    destruct (align_with_features_method cv img)
      as [E1|[(E1 & HN & _)|[(E1 & _)|(E1 & HN & _)]]].
    + rewrite E1 in Hn. destruct Hn; discriminate.
    + rewrite (metrics_without_homography cv _ HN). reflexivity.
    + rewrite E1 in Hn. destruct Hn; discriminate.
    + rewrite (metrics_without_homography cv _ HN). reflexivity.
  - intros H tw th. apply distortion_zero_iff.
  - intros bytes df s Es Hd.
    destruct (process_single_image_ok cv _ _ Es)
      as (img & w & Hi & _ & Hm & _ & _ & Hp & _).
    destruct (metadata_of_fields cv (align_single cv img) w)
      as (F1 & _ & _ & F4 & _).
    rewrite Hm, F1 in Hd.
    destruct (align_single_doc_detect cv img Hd)
      as (q & r & Hinv & Hq & H1 & H2).
    exists img, q, r. split; [exact Hi|]. split; [exact Hq|].
    rewrite Hp, F4, (metrics_with_homography cv _ H1 H2).
    apply measure_perspective_reports.
  - intros img w m E.
    destruct (with_alignment_ok cv _ E) as [_ ->].
    destruct (metadata_of_fields cv (align_with_features cv img) w)
      as (F1 & _ & _ & F4 & _).
    rewrite F1, F4.
    destruct (align_with_features_homography cv img) as [Hf Hd].
    split.
    + intros Hm. destruct (Hd Hm) as (q & r & Hinv & Hq & H1 & H2).
      exists q, r. split; [exact Hq|].
      rewrite (metrics_with_homography cv _ H1 H2).
      apply measure_perspective_reports.
    + intros Hm. destruct (Hf Hm) as (Ht & stats & Hinv & Hc & H1 & H2).
      exists Ht, stats. split; [exact Hc|].
      rewrite (metrics_with_homography cv _ H1 H2).
      apply measure_perspective_reports.
  - intros bytes df s Es.
    destruct (process_single_image_ok cv _ _ Es)
      as (img & w & _ & _ & Hm & _).
    destruct (metadata_of_fields cv (align_single cv img) w) as (F1 & _).
    rewrite Hm, F1. unfold no_homography_method.
    destruct (align_single_method cv img)
      as [(E & _)|[(E & _)|(E & _)]]; rewrite E; auto.
  - intros img w m E.
    destruct (with_alignment_ok cv _ E) as [_ ->].
    destruct (metadata_of_fields cv (align_with_features cv img) w) as (F1 & _).
    rewrite F1. unfold no_homography_method.
    destruct (align_with_features_method cv img)
      as [E1|[(E1 & _)|[(E1 & _)|(E1 & _)]]]; rewrite E1; auto.
Qed.

(** The photograph in which nothing is detected goes through the resize
    fallback and reports no distortion. *)
Lemma distortion_zero_without_homography_witness :
  exists w m,
    process_single_image_with_alignment ops_nothing_detected tt = Py.Ok (w, m)
    /\ perspective_distortion_pct (perspective_metrics m) = 0.
Proof.
  destruct sample_features_result as (w & m & E & Hm & _).
  exists w, m. split; [exact E|].
  apply (proj1 (proj2 (distortion_zero_without_homography
                         ops_nothing_detected)) tt w m E).
  right. exact Hm.
Defined.
End FallbackFacts.

Section ManualCheckFacts.
Import Segment.
Local Open Scope R_scope.

Lemma rmax_scale a b : Rmax (a * 100) (b * 100) = Rmax a b * 100.
Proof. unfold Rmax. destruct_Rdec; lra. Qed.

Lemma count_tag_app tag l1 l2 :
  count_tag tag (l1 ++ l2) = (count_tag tag l1 + count_tag tag l2)%nat.
Proof. unfold count_tag. rewrite filter_app, length_app. reflexivity. Qed.

(** *** The threshold block *)

Lemma heuristics_spec conf res tp pm :
  let rs := manual_check_heuristics conf res tp pm in
  let c1 := conf < CONFIDENCE_THRESHOLD in
  let c2 := match res with
            | Some mad => mad > RESIDUAL_MAD_THRESHOLD
            | None => False
            end in
  let c3 := Rabs (rotation_deg tp) > ROTATION_THRESHOLD_DEG in
  let c4 := Rmax (Rabs (scale_x tp - 1)) (Rabs (scale_y tp - 1)) * 100
            > SCALE_PERCENT_THRESHOLD in
  let c5 := perspective_distortion_pct pm > PERSPECTIVE_DISTORTION_PCT in
  ((0 <? length rs)%nat = true <-> c1 \/ c2 \/ c3 \/ c4 \/ c5) /\
  has_blank_reason rs = false /\
  tag_once c1 (low_confidence 0) rs /\
  tag_once c2 (high_residual_mad 0) rs /\
  tag_once c3 (high_rotation 0) rs /\
  tag_once c4 (scale_change 0) rs /\
  tag_once c5 (perspective_distortion 0) rs /\
  count_tag mostly_blank_crop rs = 0%nat.
Proof.
  unfold manual_check_heuristics, max_scale_pct. rewrite rmax_scale.
  unfold Rgt, Rltb, tag_once, count_tag. cbv zeta.
  set (sc := Rmax (Rabs (scale_x tp - 1)) (Rabs (scale_y tp - 1)) * 100).
  set (ro := Rabs (rotation_deg tp)).
  destruct res as [mad|];
    destruct_Rdec; simpl;
    intuition (try congruence; try discriminate; try contradiction).
Qed.

Lemma metadata_of_spec {Image : Type} (cv : cv_ops Image) a w :
  let m := metadata_of cv a w in
  (manual_check_needed m = true <->
   low_confidence_cond m \/ high_residual_cond m \/ high_rotation_cond m \/
   scale_change_cond m \/ perspective_cond m) /\
  has_blank_reason (manual_check_reasons m) = false /\
  tag_once (low_confidence_cond m) (low_confidence 0) (manual_check_reasons m) /\
  tag_once (high_residual_cond m) (high_residual_mad 0) (manual_check_reasons m) /\
  tag_once (high_rotation_cond m) (high_rotation 0) (manual_check_reasons m) /\
  tag_once (scale_change_cond m) (scale_change 0) (manual_check_reasons m) /\
  tag_once (perspective_cond m) (perspective_distortion 0)
           (manual_check_reasons m) /\
  count_tag mostly_blank_crop (manual_check_reasons m) = 0%nat.
Proof.
  unfold metadata_of. destruct (metrics_of cv a) as [tp pm]. cbv zeta.
  unfold low_confidence_cond, high_residual_cond, high_rotation_cond,
    scale_change_cond, perspective_cond.
  cbn [manual_check_needed manual_check_reasons alignment_confidence
       residual_mad transform_params perspective_metrics].
  apply heuristics_spec.
Qed.

(** *** The crop loop *)

Section CropLoop.
Context {Image : Type} (cv : cv_ops Image) (w : Image).

Lemma crop_step_reasons st row :
  let ws := crop_warnings cv w row in
  let fire := (has_mostly_blank ws && negb (has_blank_reason (cs_reasons st)))%bool in
  cs_reasons (crop_step cv w st row)
  = (if fire then cs_reasons st ++ [mostly_blank_crop] else cs_reasons st)
  /\ cs_flag (crop_step cv w st row) = (if fire then true else cs_flag st).
Proof.
  unfold crop_step. cbv zeta.
  destruct (crop_warnings cv w row) as [|x ws]; [simpl; auto|].
  change (0 <? length (x :: ws))%nat with true. rewrite andb_true_l.
  destruct (has_mostly_blank (x :: ws)); [|simpl; auto].
  destruct (has_blank_reason (cs_reasons st)); simpl; auto.
Qed.

Lemma has_blank_reason_snoc rs :
  has_blank_reason (rs ++ [mostly_blank_crop]) = true.
Proof.
  unfold has_blank_reason. rewrite existsb_app. simpl. apply orb_true_r.
Qed.

Lemma crop_loop_spec df :
  forall st,
    let st' := fold_left (crop_step cv w) df st in
    if has_blank_reason (cs_reasons st)
    then cs_reasons st' = cs_reasons st /\ cs_flag st' = cs_flag st
    else cs_reasons st'
         = cs_reasons st ++ (if any_blank cv w df then [mostly_blank_crop] else [])
         /\ cs_flag st' = (cs_flag st || any_blank cv w df)%bool.
Proof.
  induction df as [|row t IH]; intros st; simpl.
  - destruct (has_blank_reason (cs_reasons st)); [auto|].
    rewrite app_nil_r, orb_false_r. auto.
  - specialize (IH (crop_step cv w st row)). cbv zeta in IH.
    destruct (crop_step_reasons st row) as [Er Ef]. cbv zeta in Er, Ef.
    change (any_blank cv w (row :: t))
      with (has_mostly_blank (crop_warnings cv w row) || any_blank cv w t)%bool.
    destruct (has_blank_reason (cs_reasons st)) eqn:Hb.
    + rewrite andb_false_r in Er, Ef. simpl in Er, Ef.
      rewrite Er, Ef, Hb in IH. exact IH.
    + rewrite andb_true_r in Er, Ef.
      destruct (has_mostly_blank (crop_warnings cv w row)) eqn:Hm;
        simpl in Er, Ef.
      * rewrite Er, Ef, has_blank_reason_snoc in IH.
        simpl. rewrite orb_true_r. exact IH.
      * rewrite Er, Ef, Hb in IH. simpl. exact IH.
Qed.

Lemma has_mostly_blank_crop row :
  has_mostly_blank (crop_warnings cv w row) = true <->
  exists crop,
    crop_bbox_from_template_coords cv w row 8 = Some crop /\
    mostly_blank_pixels (gray_pixels cv crop).
Proof.
  unfold crop_warnings.
  destruct (crop_bbox_from_template_coords cv w row 8) as [crop|].
  - unfold is_mostly_blank, mostly_blank_pixels.
    destruct (Rleb (98 / 100) _) eqn:E.
    + apply Rleb_true in E. split; [intros _; eauto|reflexivity].
    + apply Rleb_false in E. split.
      * destruct (Rltb _ 20); simpl; discriminate.
      * intros (c & Ec & Hc). injection Ec as <-. lra.
  - simpl. split; [discriminate|]. intros (c & Ec & _). discriminate.
Qed.

Lemma any_blank_iff df :
  any_blank cv w df = true <-> blank_crop_cond cv w df.
Proof.
  unfold any_blank, blank_crop_cond. rewrite existsb_exists. split.
  - intros (row & Hin & Hb). apply has_mostly_blank_crop in Hb.
    destruct Hb as (crop & Ec & Hc). eauto.
  - intros (row & crop & Hin & Ec & Hc). exists row. split; [exact Hin|].
    apply has_mostly_blank_crop. eauto.
Qed.
End CropLoop.

Lemma tag_once_snoc_blank (c : Prop) tag rs (b : bool) :
  same_tag tag mostly_blank_crop = false ->
  tag_once c tag rs ->
  tag_once c tag (rs ++ (if b then [mostly_blank_crop] else [])).
Proof.
  intros Ht [H1 H0]. unfold tag_once. rewrite count_tag_app.
  assert (E : count_tag tag (if b then [mostly_blank_crop] else []) = 0%nat).
  { destruct b; unfold count_tag; simpl; [rewrite Ht|]; reflexivity. }
  rewrite E, Nat.add_0_r. split; assumption.
Qed.

(** C1: for both functions, on their reported values.  The flag of
    [process_single_image_with_alignment] is true exactly when one of the
    five threshold conditions holds; the flag of [process_single_image] is
    true exactly when one of them holds or some label row has a crop that
    is mostly blank, and such a crop alone forces it.  The reason list
    holds each tag once when its condition holds and not at all
    otherwise. *)
Theorem manual_check_iff_conditions :
  forall (Image : Type) (cv : cv_ops Image),
    (forall img w m,
        process_single_image_with_alignment cv img = Py.Ok (w, m) ->
        (manual_check_needed m = true <->
         low_confidence_cond m \/ high_residual_cond m \/
         high_rotation_cond m \/ scale_change_cond m \/ perspective_cond m)
        /\ tag_once (low_confidence_cond m) (low_confidence 0)
                    (manual_check_reasons m)
        /\ tag_once (high_residual_cond m) (high_residual_mad 0)
                    (manual_check_reasons m)
        /\ tag_once (high_rotation_cond m) (high_rotation 0)
                    (manual_check_reasons m)
        /\ tag_once (scale_change_cond m) (scale_change 0)
                    (manual_check_reasons m)
        /\ tag_once (perspective_cond m) (perspective_distortion 0)
                    (manual_check_reasons m)
        /\ count_tag mostly_blank_crop (manual_check_reasons m) = 0%nat)
    /\ (forall bytes df s,
           process_single_image cv bytes df = Py.Ok s ->
           exists img w,
             imdecode cv bytes = Some img /\
             al_warped (align_single cv img) = Some w /\
             let m := meta s in
             (manual_check_needed m = true <->
              low_confidence_cond m \/ high_residual_cond m \/
              high_rotation_cond m \/ scale_change_cond m \/
              perspective_cond m \/ blank_crop_cond cv w df)
             /\ (blank_crop_cond cv w df -> manual_check_needed m = true)
             /\ tag_once (low_confidence_cond m) (low_confidence 0)
                         (manual_check_reasons m)
             /\ tag_once (high_residual_cond m) (high_residual_mad 0)
                         (manual_check_reasons m)
             /\ tag_once (high_rotation_cond m) (high_rotation 0)
                         (manual_check_reasons m)
             /\ tag_once (scale_change_cond m) (scale_change 0)
                         (manual_check_reasons m)
             /\ tag_once (perspective_cond m) (perspective_distortion 0)
                         (manual_check_reasons m)
             /\ tag_once (blank_crop_cond cv w df) mostly_blank_crop
                         (manual_check_reasons m)).
Proof.
  intros Image cv. split.
  - intros img w m E.
    destruct (with_alignment_ok cv _ E) as [_ ->].
    destruct (metadata_of_spec cv (align_with_features cv img) w)
      as (H1 & _ & H3 & H4 & H5 & H6 & H7 & H8).
    repeat split; first [apply H1|apply H3|apply H4|apply H5|apply H6
                         |apply H7|exact H8].
  - intros bytes df s Es.
    destruct (process_single_image_ok cv _ _ Es)
      as (img & w & Hd & Hw & Hm & Hc & Ht & Hp & Hr & Hf & Hrs).
    exists img, w. split; [exact Hd|]. split; [exact Hw|]. cbv zeta.
    set (m0 := metadata_of cv (align_single cv img) w) in *.
    destruct (metadata_of_spec cv (align_single cv img) w)
      as (H1 & Hb & H3 & H4 & H5 & H6 & H7 & H8).
    fold m0 in H1, Hb, H3, H4, H5, H6, H7, H8.
    pose proof (crop_loop_spec cv w df
                  {| cs_crops := [];
                     cs_reasons := manual_check_reasons m0;
                     cs_flag := manual_check_needed m0 |}) as HL.
    cbv zeta in HL. cbn [cs_reasons cs_flag] in HL. rewrite Hb in HL.
    destruct HL as [HLr HLf]. rewrite HLr in Hrs. rewrite HLf in Hf.
    pose proof (any_blank_iff cv w df) as HA.
    unfold low_confidence_cond, high_residual_cond, high_rotation_cond,
      scale_change_cond, perspective_cond in *.
    rewrite Hc, Ht, Hp, Hr, Hf, Hrs.
    split; [|split].
    + rewrite orb_true_iff, H1, HA. tauto.
    + intros Hbl. apply HA in Hbl. rewrite Hbl. apply orb_true_r.
    + repeat split;
        try (apply tag_once_snoc_blank; [reflexivity|assumption]).
      * intros Hbl. apply HA in Hbl. rewrite Hbl, count_tag_app, H8.
        reflexivity.
      * intros Hbl. rewrite count_tag_app, H8.
        destruct (any_blank cv w df); [|reflexivity].
        exfalso. apply Hbl, HA. reflexivity.
Qed.

Lemma sample_blank_crop : blank_crop_cond ops_blank_scan tt sample_labels.
Proof.
  unfold blank_crop_cond.
  exists {| label_name := "Q1"; bbox_x := 100; bbox_y := 200;
            bbox_width := 300; bbox_height := 150;
            image_name := "template.jpg" |}, tt.
  split; [left; reflexivity|]. split; [reflexivity|].
  unfold mostly_blank_pixels. simpl. lra.
Qed.

(** The photograph in which nothing is detected: confidence 0 is below
    0.60, so the flag is raised and the reason list holds one
    low_confidence tag.  The clean scan with near-white crops: the flag is
    raised by the blank crop, with one mostly_blank_crop tag. *)
Lemma manual_check_iff_conditions_witness :
  (exists s,
      process_single_image ops_nothing_detected [] sample_labels = Py.Ok s /\
      manual_check_needed (meta s) = true /\
      count_tag (low_confidence 0) (manual_check_reasons (meta s)) = 1%nat)
  /\ (exists s,
         process_single_image ops_blank_scan [] sample_labels = Py.Ok s /\
         manual_check_needed (meta s) = true /\
         count_tag mostly_blank_crop (manual_check_reasons (meta s)) = 1%nat).
Proof.
  split.
  - destruct sample_single_result as (s & Es & _ & Hc).
    exists s. split; [exact Es|].
    destruct (proj2 (manual_check_iff_conditions ops_nothing_detected)
                    [] sample_labels s Es)
      as (img & w & _ & _ & Hiff & _ & [Hlow _] & _).
    assert (L : low_confidence_cond (meta s)).
    { unfold low_confidence_cond, CONFIDENCE_THRESHOLD. rewrite Hc. lra. }
    split.
    + apply Hiff. left. exact L.
    + apply Hlow. exact L.
  - destruct (@process_single_image_returns _ ops_blank_scan [] sample_labels tt
                eq_refl) as [s Es].
    exists s. split; [exact Es|].
    destruct (proj2 (manual_check_iff_conditions ops_blank_scan)
                    [] sample_labels s Es)
      as (img & w & _ & _ & _ & Hforce & _ & _ & _ & _ & _ & [Hblank _]).
    destruct w. split.
    + apply Hforce, sample_blank_crop.
    + apply Hblank, sample_blank_crop.
Defined.
End ManualCheckFacts.

Section PolarFacts.
Import Segment.
Local Open Scope R_scope.

(** *** The rotation factor of a rotated scaling *)

Lemma mmul_assoc A B C : mmul (mmul A B) C = mmul A (mmul B C).
Proof. destruct A, B, C. unfold mmul; simpl. f_equal; ring. Qed.

Lemma mmul_eye_l A : mmul eye2 A = A.
Proof. destruct A. unfold mmul, eye2; simpl. f_equal; ring. Qed.

Lemma transpose_mmul A B :
  transpose (mmul A B) = mmul (transpose B) (transpose A).
Proof. destruct A, B. unfold mmul, transpose; simpl. f_equal; ring. Qed.

Lemma transpose_involutive A : transpose (transpose A) = A.
Proof. destruct A. reflexivity. Qed.

Lemma transpose_diag2 s : transpose (diag2 s) = diag2 s.
Proof. reflexivity. Qed.

(** From an SVD [A = U S Vt] to the polar form [A = (U Vt) P] with
    [P = Vt^T S Vt] symmetric. *)
Lemma svd_polar A U s V :
  is_svd A U s V ->
  let Rm := mmul U V in
  let P := mmul (transpose V) (mmul (diag2 s) V) in
  A = mmul Rm P /\ mmul (transpose Rm) Rm = eye2 /\ transpose P = P.
Proof.
  intros ((EU1 & EU2) & (EV1 & EV2) & Hs & EA) Rm P. unfold Rm, P.
  split; [|split].
  - rewrite EA, !mmul_assoc. f_equal.
    rewrite <- (mmul_assoc V (transpose V)), EV2, mmul_eye_l. reflexivity.
  - rewrite transpose_mmul, mmul_assoc, <- (mmul_assoc (transpose U) U V).
    rewrite EU1, mmul_eye_l. exact EV1.
  - rewrite !transpose_mmul, transpose_involutive, transpose_diag2.
    rewrite mmul_assoc. reflexivity.
Qed.

Lemma gram_of_polar A Rm P :
  A = mmul Rm P -> mmul (transpose Rm) Rm = eye2 -> transpose P = P ->
  mmul (transpose A) A = mmul P P.
Proof.
  intros -> ER EP.
  rewrite transpose_mmul, EP, mmul_assoc, <- (mmul_assoc (transpose Rm) Rm P).
  rewrite ER, mmul_eye_l. reflexivity.
Qed.

Lemma gram_of_rot_scale theta sx sy :
  mmul (transpose (linear_block (rot_scale_h theta sx sy)))
       (linear_block (rot_scale_h theta sx sy))
  = diag2 (sx * sx, sy * sy).
Proof.
  pose proof (sin2_cos2 theta) as SC. unfold Rsqr in SC.
  unfold mmul, transpose, linear_block, rot_scale_h, diag2; simpl.
  set (c := cos theta) in *. set (n := sin theta) in *.
  f_equal.
  - transitivity ((n * n + c * c) * (sx * sx)); [ring|rewrite SC; ring].
  - ring.
  - ring.
  - transitivity ((n * n + c * c) * (sy * sy)); [ring|rewrite SC; ring].
Qed.

(** A symmetric matrix with non-negative diagonal and positive trace
    whose square is diag(sx^2, sy^2) is diag(sx, sy). *)
Lemma sqrt_of_diag p q r sx sy :
  0 < sx -> 0 < sy -> 0 <= p -> 0 <= r -> 0 < p + r ->
  p * p + q * q = sx * sx ->
  p * q + q * r = 0 ->
  q * q + r * r = sy * sy ->
  p = sx /\ q = 0 /\ r = sy.
Proof.
  intros Hx Hy Hp Hr Ht E1 E2 E3.
  assert (Q : q = 0).
  { assert (E : q * (p + r) = 0) by lra.
    apply Rmult_integral in E. destruct E; lra. }
  subst q.
  assert (p = sx) by (apply Rsqr_inj; unfold Rsqr; lra).
  assert (r = sy) by (apply Rsqr_inj; unfold Rsqr; lra).
  auto.
Qed.

Lemma polar_factor_of_rot_scale theta sx sy U s V :
  0 < sx -> 0 < sy ->
  is_svd (linear_block (rot_scale_h theta sx sy)) U s V ->
  mmul U V = rot2 theta.
Proof.
  intros Hx Hy Hsvd.
  destruct (@singular_values_of_rot_scale theta sx sy U s V Hx Hy Hsvd)
    as [S0 S1].
  destruct (svd_polar Hsvd) as (EA & ER & EP).
  pose proof (gram_of_polar EA ER EP) as EG.
  rewrite gram_of_rot_scale in EG.
  destruct Hsvd as (_ & (_ & EV2) & Hs & _).
  set (Rm := mmul U V) in *.
  set (P := mmul (transpose V) (mmul (diag2 s) V)) in *.
  assert (Hdiag : 0 <= m00 P /\ 0 <= m11 P /\ m00 P + m11 P = fst s + snd s).
  { unfold P. destruct V as [v00 v01 v10 v11], s as [s0 s1].
    unfold mmul, transpose, eye2 in EV2; simpl in EV2.
    injection EV2 as E1 E2 E3 E4.
    unfold mmul, transpose, diag2; simpl in *.
    split; [nra|]. split; [nra|].
    transitivity (s0 * (v00 * v00 + v01 * v01) + s1 * (v10 * v10 + v11 * v11));
      [ring|rewrite E1, E4; ring]. }
  destruct Hdiag as (Hp & Hr & Ht).
  assert (Hpos : 0 < fst s + snd s).
  { rewrite S0. pose proof (Rmax_l sx sy). lra. }
  assert (Esym : m10 P = m01 P).
  { apply (f_equal m01) in EP. exact EP. }
  destruct P as [p q q' r]. simpl in *. subst q'.
  unfold mmul, diag2 in EG; simpl in EG. injection EG as G1 G2 G3 G4.
  destruct (@sqrt_of_diag p q r sx sy) as (-> & -> & ->); try lra.
  clear G1 G2 G3 G4.
  destruct Rm as [r00 r01 r10 r11].
  unfold mmul, linear_block, rot_scale_h in EA; simpl in EA.
  injection EA as A1 A2 A3 A4.
  unfold rot2. f_equal; nra.
Qed.

(** *** [atan2] inverts the rotation matrix *)

Lemma atan_sin_cos phi :
  - (PI / 2) < phi < PI / 2 -> atan (sin phi / cos phi) = phi.
Proof. intros H. apply (atan_tan phi H). Qed.

Lemma atan2_right phi :
  - (PI / 2) < phi < PI / 2 -> atan2 (sin phi) (cos phi) = phi.
Proof.
  intros [H1 H2]. pose proof (cos_gt_0 phi H1 H2) as Hc.
  unfold atan2. destruct (Rlt_dec 0 (cos phi)); [|lra].
  apply atan_sin_cos. split; assumption.
Qed.

Lemma atan2_upper_left phi :
  - (PI / 2) < phi <= 0 -> atan2 (- sin phi) (- cos phi) = phi + PI.
Proof.
  intros [H1 H2]. pose proof PI_RGT_0 as Hpi.
  assert (Hc : 0 < cos phi) by (apply cos_gt_0; lra).
  assert (Hs : 0 <= - sin phi).
  { rewrite <- sin_neg. apply sin_ge_0; lra. }
  unfold atan2.
  destruct (Rlt_dec 0 (- cos phi)); [lra|].
  destruct (Rlt_dec (- cos phi) 0); [|lra].
  destruct (Rle_dec 0 (- sin phi)); [|lra].
  replace (- sin phi / - cos phi) with (sin phi / cos phi) by (field; lra).
  rewrite atan_sin_cos by lra. reflexivity.
Qed.

Lemma atan2_lower_left phi :
  0 < phi < PI / 2 -> atan2 (- sin phi) (- cos phi) = phi - PI.
Proof.
  intros [H1 H2]. pose proof PI_RGT_0 as Hpi.
  assert (Hc : 0 < cos phi) by (apply cos_gt_0; lra).
  assert (Hs : 0 < sin phi) by (apply sin_gt_0; lra).
  unfold atan2.
  destruct (Rlt_dec 0 (- cos phi)); [lra|].
  destruct (Rlt_dec (- cos phi) 0); [|lra].
  destruct (Rle_dec 0 (- sin phi)); [lra|].
  replace (- sin phi / - cos phi) with (sin phi / cos phi) by (field; lra).
  rewrite atan_sin_cos by lra. reflexivity.
Qed.

Lemma atan2_sin_cos theta :
  - PI < theta <= PI -> atan2 (sin theta) (cos theta) = theta.
Proof.
  intros [Hlo Hhi]. pose proof PI_RGT_0 as Hpi.
  destruct (Rtotal_order theta (- (PI / 2))) as [H|[H|H]].
  - (* third quadrant *)
    pose proof (@atan2_lower_left (theta + PI)) as L.
    rewrite neg_sin, neg_cos, !Ropp_involutive in L.
    rewrite L by lra. ring.
  - subst theta. rewrite sin_neg, cos_neg, sin_PI2, cos_PI2.
    unfold atan2. destruct_Rdec; first [reflexivity|lra].
  - destruct (Rtotal_order theta (PI / 2)) as [H'|[H'|H']].
    + apply atan2_right. lra.
    + subst theta. rewrite sin_PI2, cos_PI2. unfold atan2.
      destruct_Rdec; first [reflexivity|lra].
    + (* second quadrant *)
      pose proof (@atan2_upper_left (theta - PI)) as L.
      replace (sin (theta - PI)) with (- sin theta) in L.
      2:{ pose proof (neg_sin (theta - PI)) as N.
          replace (theta - PI + PI) with theta in N by ring. lra. }
      replace (cos (theta - PI)) with (- cos theta) in L.
      2:{ pose proof (neg_cos (theta - PI)) as N.
          replace (theta - PI + PI) with theta in N by ring. lra. }
      rewrite !Ropp_involutive in L. rewrite L by lra. ring.
Qed.

(** For a rotated scaling R(theta) * diag(sx, sy) with sx, sy > 0, every
    SVD that [np.linalg.svd] can return leads to the exact rotation angle
    and to the two scales in descending order. *)
Lemma decompose_homography_of_rot_scale (svd : svd_fn) theta sx sy U s Vt :
  - PI < theta <= PI -> 0 < sx -> 0 < sy ->
  svd (linear_block (normalize_h (rot_scale_h theta sx sy))) = Some (U, s, Vt) ->
  is_svd (linear_block (normalize_h (rot_scale_h theta sx sy))) U s Vt ->
  let tp := decompose_homography svd (rot_scale_h theta sx sy) in
  rotation_deg tp = degrees theta /\
  scale_x tp = Rmax sx sy /\ scale_y tp = Rmin sx sy /\
  h20 tp = 0 /\ h21 tp = 0.
Proof.
  intros Ht Hx Hy E Hsvd tp.
  unfold tp, decompose_homography, rotation_and_scales. rewrite E.
  rewrite normalize_h_unit in Hsvd |- * by reflexivity.
  destruct (@singular_values_of_rot_scale theta sx sy U s Vt Hx Hy Hsvd)
    as [S0 S1].
  rewrite (@polar_factor_of_rot_scale theta sx sy U s Vt Hx Hy Hsvd).
  assert (Hdet : Rltb (det2 (rot2 theta)) 0 = false).
  { apply Rltb_false. unfold det2, rot2; simpl.
    pose proof (sin2_cos2 theta) as SC. unfold Rsqr in SC. lra. }
  rewrite Hdet. simpl.
  rewrite atan2_sin_cos by exact Ht. auto.
Qed.
(** C7 as stated fails at the lower end.  A page scanned upside down, a
    half turn less 2^-53 radians (about 1.1e-16), has the rotation matrix
    with entries cos = -1.0 and sin = -1.1e-16 as doubles; [math.atan2]
    returns -3.141592653589793 for it and the function reports
    rotation_deg = -180.0, which is not strictly greater than -180.  This
    holds for every SVD that [np.linalg.svd] can return for the matrix,
    the rotation itself with singular values (1, 1) being one. *)
Lemma half_turn_reports_minus_180 :
  let theta := - PI + / 2 ^ 53 in
  let H := rot_scale_h theta 1 1 in
  let svd0 : svd_fn := fun _ => Some (rot2 theta, (1, 1), eye2) in
  is_svd (linear_block (normalize_h H)) (rot2 theta) (1, 1) eye2
  /\ rotation_deg (decompose_homography_rounded svd0 H) = -180
  /\ ~ (-180 < rotation_deg (decompose_homography_rounded svd0 H))
  /\ (forall (svd : svd_fn) U s Vt,
         svd (linear_block (normalize_h H)) = Some (U, s, Vt) ->
         is_svd (linear_block (normalize_h H)) U s Vt ->
         rotation_deg (decompose_homography_rounded svd H) = -180).
Proof.
  intros theta H svd0.
  pose proof PI_RGT_0 as Hpi. pose proof PI_gt_3 as Hpi3.
  assert (Hu : 0 < / 2 ^ 53 /\ / 2 ^ 53 < HALF_ULP_PI).
  { unfold HALF_ULP_PI.
    assert (P52 : 0 < 2 ^ 52) by (apply pow_lt; lra).
    split; [apply Rinv_0_lt_compat; apply pow_lt; lra|].
    apply Rinv_lt_contravar.
    - apply Rmult_lt_0_compat; [exact P52|apply pow_lt; lra].
    - change (2 ^ 53) with (2 * 2 ^ 52). lra. }
  pose proof half_ulp_small as Hh.
  assert (Ht : - PI < theta <= PI) by (unfold theta; lra).
  assert (Gen : forall (svd : svd_fn) U s Vt,
             svd (linear_block (normalize_h H)) = Some (U, s, Vt) ->
             is_svd (linear_block (normalize_h H)) U s Vt ->
             rotation_deg (decompose_homography_rounded svd H) = -180).
  { intros svd U s Vt E Hsvd.
    unfold decompose_homography_rounded, rotation_and_scales. rewrite E.
    unfold H in Hsvd |- *.
    rewrite normalize_h_unit in Hsvd |- * by reflexivity.
    rewrite (@polar_factor_of_rot_scale theta 1 1 U s Vt
               ltac:(lra) ltac:(lra) Hsvd).
    assert (Hdet : Rltb (det2 (rot2 theta)) 0 = false).
    { apply Rltb_false. unfold det2, rot2; simpl.
      pose proof (sin2_cos2 theta) as SC. unfold Rsqr in SC. lra. }
    rewrite Hdet. cbn [rotation_deg rot2 m10 m00].
    unfold math_atan2. cbv zeta. rewrite atan2_sin_cos by exact Ht.
    destruct (Rlt_dec theta (- PI + HALF_ULP_PI)) as [_|C];
      [|exfalso; unfold theta in C; lra].
    unfold degrees. field. lra. }
  assert (S0 : is_svd (linear_block (normalize_h H)) (rot2 theta) (1, 1) eye2).
  { unfold H. rewrite normalize_h_unit by reflexivity.
    pose proof (sin2_cos2 theta) as SC. unfold Rsqr in SC.
    unfold is_svd, orthogonal, mmul, transpose, eye2, diag2, linear_block,
      rot_scale_h, rot2; simpl.
    repeat split; try lra; f_equal; lra. }
  assert (E0 : rotation_deg (decompose_homography_rounded svd0 H) = -180)
    by (apply (Gen svd0 (rot2 theta) (1, 1) eye2 eq_refl S0)).
  split; [exact S0|]. split; [exact E0|]. split; [rewrite E0; lra|exact Gen].
Qed.
End PolarFacts.

(* ================================================================== *)
(** * Part III: further properties of the code *)
(* ================================================================== *)

Section CropBoxFacts.
Import Segment.
Local Open Scope Z_scope.
Context {Image : Type} (cv : cv_ops Image).

(** X1: a crop that [crop_bbox_from_template_coords] returns is the slice
    of the padded box clamped to the image: it starts at
    (max(0, x - pad), max(0, y - pad)), ends at most at the image border,
    and has positive height and width. *)
Theorem crop_bbox_is_clamped_padded_box :
  forall (warped : Image) (bbox : bbox_row) (pad : Z) (crop : Image),
    crop_bbox_from_template_coords cv warped bbox pad = Some crop ->
    let Hh := fst (shape cv warped) in
    let Ww := snd (shape cv warped) in
    let x0 := Z.max 0 (bbox_x bbox - pad) in
    let y0 := Z.max 0 (bbox_y bbox - pad) in
    let x1 := Z.min Ww (x0 + (bbox_width bbox + 2 * pad)) in
    let y1 := Z.min Hh (y0 + (bbox_height bbox + 2 * pad)) in
    crop = crop_view cv warped y0 y1 x0 x1 /\
    0 <= y0 < y1 /\ y1 <= Hh /\ 0 <= x0 < x1 /\ x1 <= Ww.
Proof.
  intros warped bbox pad crop. unfold crop_bbox_from_template_coords.
  destruct (shape cv warped) as [Hh Ww]. cbn [fst snd]. cbv zeta.
  set (x0 := Z.max 0 (bbox_x bbox - pad)).
  set (y0 := Z.max 0 (bbox_y bbox - pad)).
  remember (bbox_width bbox + 2 * pad) as w0 eqn:Ew0.
  remember (bbox_height bbox + 2 * pad) as h0 eqn:Eh0.
  destruct (Ww <? x0 + w0) eqn:Ex;
    destruct (Hh <? y0 + h0) eqn:Ey;
    cbv iota;
    match goal with
    | |- (if (?a || ?b)%bool then _ else _) = _ -> _ =>
        destruct a eqn:Ew; destruct b eqn:Eh; cbn [orb]; try discriminate
    end;
    intros E; injection E as <-;
    repeat match goal with
           | H : (_ <? _) = true |- _ => apply Z.ltb_lt in H
           | H : (_ <? _) = false |- _ => apply Z.ltb_ge in H
           | H : (_ <=? _) = false |- _ => apply Z.leb_gt in H
           end;
    subst x0 y0;
    (split; [f_equal; lia|lia]).
Qed.

(** X2: [crop_bbox_from_template_coords] returns [None] exactly when the
    padded box has no width or no height, or starts at or beyond the right
    or the bottom border of the image. *)
Theorem crop_bbox_none_iff :
  forall (warped : Image) (bbox : bbox_row) (pad : Z),
    let Hh := fst (shape cv warped) in
    let Ww := snd (shape cv warped) in
    crop_bbox_from_template_coords cv warped bbox pad = None <->
    (bbox_width bbox + 2 * pad <= 0 \/ Ww <= Z.max 0 (bbox_x bbox - pad) \/
     bbox_height bbox + 2 * pad <= 0 \/ Hh <= Z.max 0 (bbox_y bbox - pad)).
Proof.
  intros warped bbox pad. unfold crop_bbox_from_template_coords.
  destruct (shape cv warped) as [Hh Ww]. cbn [fst snd]. cbv zeta.
  set (x0 := Z.max 0 (bbox_x bbox - pad)).
  set (y0 := Z.max 0 (bbox_y bbox - pad)).
  remember (bbox_width bbox + 2 * pad) as w0 eqn:Ew0.
  remember (bbox_height bbox + 2 * pad) as h0 eqn:Eh0.
  destruct (Ww <? x0 + w0) eqn:Ex;
    destruct (Hh <? y0 + h0) eqn:Ey;
    cbv iota;
    match goal with
    | |- (if (?a || ?b)%bool then _ else _) = _ <-> _ =>
        destruct a eqn:Ew; destruct b eqn:Eh; cbn [orb]
    end;
    repeat match goal with
           | H : (_ <? _) = true |- _ => apply Z.ltb_lt in H
           | H : (_ <? _) = false |- _ => apply Z.ltb_ge in H
           | H : (_ <=? _) = true |- _ => apply Z.leb_le in H
           | H : (_ <=? _) = false |- _ => apply Z.leb_gt in H
           end;
    subst x0 y0;
    split; intros G; try discriminate; try reflexivity; try lia.
Qed.
End CropBoxFacts.

(** The first default label of [read_bboxes] on the 1700 x 2200 scan:
    the crop is [warped[192:358, 92:408]]. *)
Lemma crop_bbox_is_clamped_padded_box_witness :
  Segment.crop_bbox_from_template_coords Segment.ops_blank_scan tt
    {| Segment.label_name := "Q1"; Segment.bbox_x := 100;
       Segment.bbox_y := 200; Segment.bbox_width := 300;
       Segment.bbox_height := 150; Segment.image_name := "template.jpg" |} 8
  = Some tt
  /\ (0 <= 192 < 358 /\ 358 <= 2200 /\ 0 <= 92 < 408 /\ 408 <= 1700)%Z.
Proof.
  split; [reflexivity|].
  apply (@crop_bbox_is_clamped_padded_box unit Segment.ops_blank_scan tt
           {| Segment.label_name := "Q1"; Segment.bbox_x := 100;
              Segment.bbox_y := 200; Segment.bbox_width := 300;
              Segment.bbox_height := 150;
              Segment.image_name := "template.jpg" |} 8 tt eq_refl).
Defined.

Section PipelineFacts.
Import Segment SegmentMore.
Local Open Scope R_scope.
Context {Image : Type} (cv : cv_ops Image).

(** *** The alignment stage, case by case *)

Lemma doc_detect_step_cases img found a :
  doc_detect_step cv img found a = a
  \/ exists q r Hi wc,
      doc_detect_succeeds cv img found q r Hi wc /\
      doc_detect_step cv img found a = doc_detect_result cv q r Hi wc.
Proof.
  unfold doc_detect_step, doc_detect_succeeds, doc_detect_result.
  destruct found as [[q r]|]; [|left; reflexivity].
  destruct (Rltb MIN_DOC_AREA_RATIO r) eqn:Er; [|left; reflexivity].
  destruct (safe_inverse cv (getPerspectiveTransform cv q)) as [Hi|] eqn:Ei;
    [|left; reflexivity].
  destruct (warp_image_with_H cv img Hi) as [wc|] eqn:Ew; [|left; reflexivity].
  destruct (Rleb (blank_frac cv wc) (90 / 100)) eqn:Eb; [|left; reflexivity].
  right. exists q, r, Hi, wc.
  apply Rltb_true in Er. apply Rleb_true in Eb. auto 10.
Qed.

Lemma align_single_cases img :
  let a := align_single cv img in
  (size_diff_ok (snd (shape cv img)) (fst (shape cv img)) = true /\
   a = identity_alignment img init_alignment)
  \/ (exists q r Hi wc,
         doc_detect_succeeds cv img (contour_quad cv img) q r Hi wc /\
         a = doc_detect_result cv q r Hi wc)
  \/ a = resize_result cv img.
Proof.
  cbv zeta. rewrite align_single_unfold.
  destruct (size_diff_ok _ _); [left; split; reflexivity|right].
  destruct (doc_detect_step_cases img (contour_quad cv img) init_alignment)
    as [E|(q & r & Hi & wc & Hs & E)]; rewrite E.
  - right. reflexivity.
  - left. exists q, r, Hi, wc. split; [exact Hs|reflexivity].
Qed.

Lemma feature_step_cases img :
  feature_step cv img = init_alignment
  \/ exists Ht stats Hi wc,
      feature_succeeds cv img Ht stats Hi wc /\
      feature_step cv img = feature_result Ht stats Hi wc.
Proof.
  unfold feature_step, feature_succeeds, feature_result.
  destruct (compute_homography_via_features cv img) as [[Ht|] stats];
    [|left; reflexivity].
  destruct (safe_inverse cv Ht) as [Hi|] eqn:Ei; [|left; reflexivity].
  destruct (warp_image_with_H cv img Hi) as [wc|] eqn:Ew; [|left; reflexivity].
  right. exists Ht, stats, Hi, wc. auto.
Qed.

Lemma align_with_features_cases img :
  let a := align_with_features cv img in
  (exists Ht stats Hi wc,
      feature_succeeds cv img Ht stats Hi wc /\
      a = feature_result Ht stats Hi wc)
  \/ (size_diff_ok (snd (shape cv img)) (fst (shape cv img)) = true /\
      a = identity_alignment img init_alignment)
  \/ (exists q r Hi wc,
         doc_detect_succeeds cv img (found_with_hough cv img) q r Hi wc /\
         a = doc_detect_result cv q r Hi wc)
  \/ a = resize_result cv img.
Proof.
  cbv zeta. rewrite align_with_features_unfold.
  destruct (feature_step_cases img) as [E|(Ht & stats & Hi & wc & Hs & E)];
    rewrite E.
  - right. cbn [al_warped init_alignment].
    destruct (size_diff_ok _ _); [left; split; reflexivity|right].
    destruct (doc_detect_step_cases img (found_with_hough cv img)
                                    init_alignment)
      as [E'|(q & r & Hi & wc & Hs & E')]; rewrite E'.
    + right. reflexivity.
    + left. exists q, r, Hi, wc. split; [exact Hs|reflexivity].
  - left. exists Ht, stats, Hi, wc. split; [exact Hs|reflexivity].
Qed.

Lemma confidence_formula_range stats fallback d :
  0 <= compute_alignment_confidence_from_stats stats fallback d <= 1.
Proof.
  unfold compute_alignment_confidence_from_stats.
  destruct fallback; [apply clip_range; lra|].
  destruct (_ <=? 0)%Z; [lra|]. apply clip_range; lra.
Qed.

(** *** What [process_single_image] reports, in terms of the alignment *)

Lemma process_single_image_outputs bytes df s :
  process_single_image cv bytes df = Py.Ok s ->
  exists img w,
    imdecode cv bytes = Some img /\
    al_warped (align_single cv img) = Some w /\
    let a := align_single cv img in
    let m := metadata_of cv a w in
    used_method (meta s) = al_used_method a /\
    alignment_confidence (meta s) = al_confidence a /\
    doc_area_ratio (meta s) = al_doc_area_ratio a /\
    residual_mad (meta s) = residual_mad_of cv w /\
    transform_params (meta s) = fst (metrics_of cv a) /\
    perspective_metrics (meta s) = snd (metrics_of cv a) /\
    manual_check_needed (meta s)
    = (manual_check_needed m || any_blank cv w df)%bool /\
    manual_check_reasons (meta s)
    = manual_check_reasons m
      ++ (if any_blank cv w df then [mostly_blank_crop] else []).
Proof.
  unfold process_single_image. intros E.
  destruct (imdecode cv bytes) as [img|]; [|discriminate].
  destruct (al_warped (align_single cv img)) as [w|] eqn:Ew; [|discriminate].
  injection E as <-. exists img, w.
  split; [reflexivity|]. split; [exact Ew|]. cbv zeta.
  cbn [meta used_method alignment_confidence doc_area_ratio residual_mad
       transform_params perspective_metrics manual_check_needed
       manual_check_reasons].
  destruct (metadata_of_fields cv (align_single cv img) w)
    as (F1 & F2 & F3 & F4 & F5 & _).
  pose proof (crop_loop_spec cv w df
                {| cs_crops := [];
                   cs_reasons := manual_check_reasons
                                   (metadata_of cv (align_single cv img) w);
                   cs_flag := manual_check_needed
                                (metadata_of cv (align_single cv img) w) |})
    as L.
  cbv zeta in L. cbn [cs_reasons cs_flag] in L.
  destruct (metadata_of_spec cv (align_single cv img) w) as (_ & Hb & _).
  rewrite Hb in L. destruct L as [L1 L2].
  assert (D : doc_area_ratio (metadata_of cv (align_single cv img) w)
              = al_doc_area_ratio (align_single cv img)).
  { unfold metadata_of. destruct (metrics_of cv (align_single cv img)).
    reflexivity. }
  auto 10.
Qed.
(** The threshold block fires on a low confidence whatever else holds. *)
Lemma low_confidence_flags (a : alignment Image) (w : Image) :
  al_confidence a < CONFIDENCE_THRESHOLD ->
  manual_check_needed (metadata_of cv a w) = true /\
  count_tag (low_confidence 0) (manual_check_reasons (metadata_of cv a w))
  = 1%nat.
Proof.
  intros Hc.
  destruct (metadata_of_spec cv a w) as (Hiff & _ & [Hl _] & _).
  destruct (metadata_of_fields cv a w) as (_ & F2 & _).
  assert (L : low_confidence_cond (metadata_of cv a w)).
  { unfold low_confidence_cond. rewrite F2. exact Hc. }
  split; [apply Hiff; left; exact L|apply Hl; exact L].
Qed.

Lemma count_tag_blank_tail tag (b : bool) rs :
  same_tag tag mostly_blank_crop = false ->
  count_tag tag (rs ++ (if b then [mostly_blank_crop] else []))
  = count_tag tag rs.
Proof.
  intros Ht. rewrite count_tag_app.
  destruct b; unfold count_tag; simpl; [rewrite Ht|]; simpl; lia.
Qed.

(** X3: on an image that decodes, [process_single_image] returns a
    summary, and [process_single_image_with_alignment] returns on every
    image: the alignment stage always ends with an aligned image, so the
    error "Could not produce warped aligned image" is never raised.  The
    only exception of [process_single_image] is the decoding error. *)
Theorem warp_error_is_unreachable :
  (forall bytes df,
      match imdecode cv bytes with
      | None =>
          process_single_image cv bytes df
          = Py.Raised (Py.Exception "Could not decode image")
      | Some _ => exists s, process_single_image cv bytes df = Py.Ok s
      end)
  /\ (forall img,
         exists w m,
           process_single_image_with_alignment cv img = Py.Ok (w, m)).
Proof.
  split.
  - intros bytes df. unfold process_single_image.
    destruct (imdecode cv bytes) as [img|]; [|reflexivity].
    destruct (align_single_warped cv img) as [w Hw]. rewrite Hw. eauto.
  - intros img. unfold process_single_image_with_alignment.
    destruct (align_with_features_warped cv img) as [w Hw]. rewrite Hw. eauto.
Qed.

(** X4: a result of the resize fallback is always flagged for a manual
    check, with one [low_confidence] reason, in both functions. *)
Theorem resize_fallback_is_flagged :
  (forall bytes df s,
      process_single_image cv bytes df = Py.Ok s ->
      used_method (meta s) = Some simple_resize_fallback ->
      manual_check_needed (meta s) = true /\
      count_tag (low_confidence 0) (manual_check_reasons (meta s)) = 1%nat)
  /\ (forall img w m,
         process_single_image_with_alignment cv img = Py.Ok (w, m) ->
         used_method m = Some simple_resize_fallback ->
         manual_check_needed m = true /\
         count_tag (low_confidence 0) (manual_check_reasons m) = 1%nat).
Proof.
  split.
  - intros bytes df s Es Hm.
    destruct (process_single_image_outputs _ _ Es)
      as (img & w & _ & _ & Hu & Hc & _ & _ & _ & _ & Hf & Hr).
    cbv zeta in *. rewrite Hu in Hm.
    assert (C : al_confidence (align_single cv img) < CONFIDENCE_THRESHOLD).
    { destruct (align_single_cases img)
        as [[_ E]|[(q & r & Hi & wc & _ & E)|E]];
        cbv zeta in E; rewrite E in Hm |- *; try discriminate Hm.
      unfold CONFIDENCE_THRESHOLD. simpl. lra. }
    destruct (low_confidence_flags _ w C) as [F T].
    rewrite Hf, Hr, F, count_tag_blank_tail by reflexivity.
    split; [reflexivity|exact T].
  - intros img w m Es Hm.
    destruct (with_alignment_ok cv _ Es) as [_ ->].
    destruct (metadata_of_fields cv (align_with_features cv img) w)
      as (F1 & _).
    rewrite F1 in Hm.
    apply low_confidence_flags.
    destruct (align_with_features_cases img)
      as [(Ht & st & Hi & wc & _ & E)|[[_ E]|[(q & r & Hi & wc & _ & E)|E]]];
      cbv zeta in E; rewrite E in Hm |- *; try discriminate Hm.
    unfold CONFIDENCE_THRESHOLD. simpl. lra.
Qed.


(** X5: the reported confidence lies in [0, 1] in both functions, whatever
    method produced the alignment. *)
Theorem reported_confidence_in_unit_interval :
  (forall bytes df s,
      process_single_image cv bytes df = Py.Ok s ->
      0 <= alignment_confidence (meta s) <= 1)
  /\ (forall img w m,
         process_single_image_with_alignment cv img = Py.Ok (w, m) ->
         0 <= alignment_confidence m <= 1).
Proof.
  split.
  - intros bytes df s Es.
    destruct (process_single_image_outputs _ _ Es)
      as (img & w & _ & _ & _ & Hc & _).
    cbv zeta in Hc. rewrite Hc.
    destruct (align_single_cases img)
      as [[_ E]|[(q & r & Hi & wc & _ & E)|E]];
      cbv zeta in E; rewrite E; cbn [al_confidence identity_alignment
                                      doc_detect_result resize_result];
      first [apply confidence_formula_range|lra].
  - intros img w m Es.
    destruct (with_alignment_ok cv _ Es) as [_ ->].
    destruct (metadata_of_fields cv (align_with_features cv img) w)
      as (_ & F2 & _).
    rewrite F2.
    destruct (align_with_features_cases img)
      as [(Ht & st & Hi & wc & _ & E)|[[_ E]|[(q & r & Hi & wc & _ & E)|E]]];
      cbv zeta in E; rewrite E;
      cbn [al_confidence identity_alignment feature_result
           doc_detect_result resize_result];
      first [apply confidence_formula_range|lra].
Qed.

(** Without a homography the threshold block can fire on the confidence
    and on the residual only. *)
Lemma flag_without_homography (a : alignment Image) (w : Image) :
  al_H_img_to_template a = None ->
  CONFIDENCE_THRESHOLD <= al_confidence a ->
  (manual_check_needed (metadata_of cv a w) = true <->
   high_residual_cond (metadata_of cv a w)).
Proof.
  intros Hn Hc.
  destruct (metadata_of_spec cv a w) as (Hiff & _).
  destruct (metadata_of_fields cv a w) as (_ & F2 & F3 & F4 & _).
  rewrite (metrics_without_homography cv a Hn) in F3, F4.
  cbn [fst snd] in F3, F4.
  rewrite Hiff.
  unfold low_confidence_cond, high_rotation_cond, scale_change_cond,
    perspective_cond.
  rewrite F2, F3, F4.
  cbn [rotation_deg scale_x scale_y identity_params
       perspective_distortion_pct zero_metrics].
  replace (1 - 1) with 0 by ring. rewrite Rabs_R0.
  unfold ROTATION_THRESHOLD_DEG, SCALE_PERCENT_THRESHOLD,
    PERSPECTIVE_DISTORTION_PCT.
  assert (Rmax 0 0 = 0) as -> by (unfold Rmax; destruct_Rdec; lra).
  split; [intros [H|[H|[H|[H|H]]]]; first [exact H|lra]|tauto].
Qed.

(** X6: when the input already has the template's size (method
    [identity_size_match]) the confidence is 0.95, and only the residual
    decides the flag: [process_single_image_with_alignment] asks for a
    manual check exactly when the mean absolute difference to the template
    was computed and exceeds 30; [process_single_image] does so exactly
    when that holds or a label's crop of the input image is mostly
    blank. *)
Theorem identity_match_flag_depends_on_residual :
  (forall img w m,
      process_single_image_with_alignment cv img = Py.Ok (w, m) ->
      used_method m = Some identity_size_match ->
      w = img /\ alignment_confidence m = 95 / 100 /\
      (manual_check_needed m = true <-> high_residual_cond m))
  /\ (forall bytes df s,
         process_single_image cv bytes df = Py.Ok s ->
         used_method (meta s) = Some identity_size_match ->
         exists img,
           imdecode cv bytes = Some img /\
           alignment_confidence (meta s) = 95 / 100 /\
           (manual_check_needed (meta s) = true <->
            high_residual_cond (meta s) \/ blank_crop_cond cv img df)).
Proof.
  split.
  - intros img w m Es Hm.
    destruct (with_alignment_ok cv _ Es) as [Hw ->].
    destruct (metadata_of_fields cv (align_with_features cv img) w)
      as (F1 & F2 & _).
    rewrite F1 in Hm. rewrite F2.
    pose proof (@flag_without_homography (align_with_features cv img) w) as Fl.
    destruct (align_with_features_cases img)
      as [(Ht & st & Hi & wc & _ & E)|[[_ E]|[(q & r & Hi & wc & _ & E)|E]]];
      cbv zeta in E; rewrite E in Hm, Hw, Fl |- *; try discriminate Hm.
    cbn [al_warped identity_alignment] in Hw. injection Hw as <-.
    split; [reflexivity|]. split; [reflexivity|].
    apply Fl; [reflexivity|].
    unfold CONFIDENCE_THRESHOLD. cbn [al_confidence identity_alignment]. lra.
  - intros bytes df s Es Hm.
    destruct (process_single_image_outputs _ _ Es)
      as (img & w & Hd & Hw & Hu & Hc & _ & Hres & _ & _ & Hf & _).
    cbv zeta in *. rewrite Hu in Hm.
    exists img. split; [exact Hd|]. rewrite Hc, Hf.
    pose proof (@flag_without_homography (align_single cv img) w) as Fl.
    destruct (metadata_of_fields cv (align_single cv img) w)
      as (_ & _ & _ & _ & F5 & _).
    assert (Hh : high_residual_cond (meta s) <->
                 high_residual_cond (metadata_of cv (align_single cv img) w)).
    { unfold high_residual_cond. rewrite Hres, F5. tauto. }
    destruct (align_single_cases img)
      as [[_ E]|[(q & r & Hi & wc & _ & E)|E]];
      cbv zeta in E; rewrite E in Hm, Hw, Fl, Hh |- *; try discriminate Hm.
    cbn [al_warped identity_alignment] in Hw. injection Hw as <-.
    split; [reflexivity|].
    rewrite orb_true_iff, any_blank_iff, Hh.
    assert (G : manual_check_needed
                  (metadata_of cv (identity_alignment img init_alignment) img)
                = true <->
                high_residual_cond
                  (metadata_of cv (identity_alignment img init_alignment) img)).
    { apply Fl; [reflexivity|].
      unfold CONFIDENCE_THRESHOLD. cbn [al_confidence identity_alignment].
      lra. }
    tauto.
Qed.

(** X7: when the document detection produced the alignment (method
    [doc_detect]), the reported area ratio exceeds 0.004, the confidence is
    clip((ratio - 0.2) / 0.75, 0, 1), and a ratio below 0.65 always leads
    to a manual check. *)
Theorem doc_detect_confidence_from_area_ratio :
  (forall bytes df s,
      process_single_image cv bytes df = Py.Ok s ->
      used_method (meta s) = Some doc_detect ->
      MIN_DOC_AREA_RATIO < doc_area_ratio (meta s) /\
      alignment_confidence (meta s)
      = clip ((doc_area_ratio (meta s) - 2 / 10) / (75 / 100)) 0 1 /\
      (doc_area_ratio (meta s) < 65 / 100 ->
       manual_check_needed (meta s) = true))
  /\ (forall img w m,
         process_single_image_with_alignment cv img = Py.Ok (w, m) ->
         used_method m = Some doc_detect ->
         MIN_DOC_AREA_RATIO < doc_area_ratio m /\
         alignment_confidence m
         = clip ((doc_area_ratio m - 2 / 10) / (75 / 100)) 0 1 /\
         (doc_area_ratio m < 65 / 100 -> manual_check_needed m = true)).
Proof.
  assert (Low : forall r, r < 65 / 100 ->
                          clip ((r - 2 / 10) / (75 / 100)) 0 1
                          < CONFIDENCE_THRESHOLD).
  { intros r Hr. unfold CONFIDENCE_THRESHOLD.
    replace ((r - 2 / 10) / (75 / 100)) with ((r - 2 / 10) * (4 / 3))
      by field.
    unfold clip, Rmin, Rmax. destruct_Rdec; lra. }
  split.
  - intros bytes df s Es Hm.
    destruct (process_single_image_outputs _ _ Es)
      as (img & w & _ & _ & Hu & Hc & Hr & _ & _ & _ & Hf & _).
    cbv zeta in *. rewrite Hu in Hm. rewrite Hc, Hr, Hf.
    pose proof (@low_confidence_flags (align_single cv img) w) as Fl.
    destruct (align_single_cases img)
      as [[_ E]|[(q & r & Hi & wc & Hs & E)|E]];
      cbv zeta in E; rewrite E in Hm, Fl |- *; try discriminate Hm.
    destruct Hs as (_ & Hmin & _).
    cbn [al_confidence al_doc_area_ratio doc_detect_result] in *.
    split; [exact Hmin|]. split; [reflexivity|].
    intros Hlt. rewrite (proj1 (Fl (Low r Hlt))). reflexivity.
  - intros img w m Es Hm.
    destruct (with_alignment_ok cv _ Es) as [_ ->].
    destruct (metadata_of_fields cv (align_with_features cv img) w)
      as (F1 & F2 & _).
    assert (D : doc_area_ratio (metadata_of cv (align_with_features cv img) w)
                = al_doc_area_ratio (align_with_features cv img)).
    { unfold metadata_of. destruct (metrics_of cv _). reflexivity. }
    rewrite F1 in Hm. rewrite F2, D.
    pose proof (@low_confidence_flags (align_with_features cv img) w) as Fl.
    destruct (align_with_features_cases img)
      as [(Ht & st & Hi & wc & _ & E)|[[_ E]|[(q & r & Hi & wc & Hs & E)|E]]];
      cbv zeta in E; rewrite E in Hm, Fl |- *; try discriminate Hm.
    destruct Hs as (_ & Hmin & _).
    cbn [al_confidence al_doc_area_ratio doc_detect_result] in *.
    split; [exact Hmin|]. split; [reflexivity|].
    intros Hlt. exact (proj1 (Fl (Low r Hlt))).
Qed.

(** *** The distortion measure on a similarity *)

Lemma norm2_of_square x y r :
  0 <= r -> x * x + y * y = r * r -> norm2 x y = r.
Proof.
  intros Hr E. unfold norm2. rewrite E. apply sqrt_square. exact Hr.
Qed.

Lemma perspectiveTransform_similarity k theta tx ty x y :
  perspectiveTransform (similarity_h k theta tx ty) (x, y)
  = (k * cos theta * x - k * sin theta * y + tx,
     k * sin theta * x + k * cos theta * y + ty).
Proof.
  unfold perspectiveTransform, similarity_h.
  cbn [a00 a01 a02 a10 a11 a12 a20 a21 a22].
  replace (0 * x + 0 * y + 1) with 1 by ring.
  rewrite Rabs_R1.
  assert (Rltb DBL_EPSILON 1 = true) as ->
      by (apply Rltb_true, dbl_epsilon_lt_1).
  f_equal; field.
Qed.

(** The template rectangle keeps its proportions under a similarity, so
    the measure reports its aspect ratio: (2199/1699 - 1) * 100. *)
Lemma similarity_distortion k theta tx ty :
  1 / 10 ^ 6 <= k ->
  perspective_distortion_pct
    (measure_perspective_from_template_to_image
       (similarity_h k theta tx ty) TEMPLATE_W TEMPLATE_H)
  = (2199 / 1699 - 1) * 100.
Proof.
  intros Hk. pose proof micro_pos as Hm.
  assert (SC : sin theta * sin theta + cos theta * cos theta = 1).
  { pose proof (sin2_cos2 theta) as H. unfold Rsqr in H. exact H. }
  unfold measure_perspective_from_template_to_image, TEMPLATE_W, TEMPLATE_H.
  cbv zeta. cbn [perspective_distortion_pct].
  change (1700 - 1)%Z with 1699%Z. change (2200 - 1)%Z with 2199%Z.
  rewrite !perspectiveTransform_similarity. unfold dist. cbn [fst snd].
  set (c := cos theta) in *. set (sn := sin theta) in *.
  assert (L0 : norm2 (k * c * 1699 - k * sn * 0 + tx - (k * c * 0 - k * sn * 0 + tx))
                     (k * sn * 1699 + k * c * 0 + ty - (k * sn * 0 + k * c * 0 + ty))
               = k * 1699).
  { apply norm2_of_square; [lra|].
    transitivity (k * 1699 * (k * 1699) * (sn * sn + c * c));
      [ring|rewrite SC; ring]. }
  assert (L1 : norm2 (k * c * 1699 - k * sn * 2199 + tx - (k * c * 1699 - k * sn * 0 + tx))
                     (k * sn * 1699 + k * c * 2199 + ty - (k * sn * 1699 + k * c * 0 + ty))
               = k * 2199).
  { apply norm2_of_square; [lra|].
    transitivity (k * 2199 * (k * 2199) * (sn * sn + c * c));
      [ring|rewrite SC; ring]. }
  assert (L2 : norm2 (k * c * 0 - k * sn * 2199 + tx - (k * c * 1699 - k * sn * 2199 + tx))
                     (k * sn * 0 + k * c * 2199 + ty - (k * sn * 1699 + k * c * 2199 + ty))
               = k * 1699).
  { apply norm2_of_square; [lra|].
    transitivity (k * 1699 * (k * 1699) * (sn * sn + c * c));
      [ring|rewrite SC; ring]. }
  assert (L3 : norm2 (k * c * 0 - k * sn * 0 + tx - (k * c * 0 - k * sn * 2199 + tx))
                     (k * sn * 0 + k * c * 0 + ty - (k * sn * 0 + k * c * 2199 + ty))
               = k * 2199).
  { apply norm2_of_square; [lra|].
    transitivity (k * 2199 * (k * 2199) * (sn * sn + c * c));
      [ring|rewrite SC; ring]. }
  rewrite L0, L1, L2, L3.
  assert (Emin : min4 (k * 1699) (k * 2199) (k * 1699) (k * 2199) = k * 1699)
    by (unfold min4, Rmin; destruct_Rdec; lra).
  assert (Emax : max4 (k * 1699) (k * 2199) (k * 1699) (k * 2199) = k * 2199)
    by (unfold max4, Rmax; destruct_Rdec; lra).
  rewrite Emin, Emax.
  assert (Rleb (k * 1699) (1 / 10 ^ 6) = false) as ->
      by (apply Rleb_false; lra).
  field. lra.
Qed.

(** *** The distortion measure on a detected page outline *)

Lemma min4_max4_two a b :
  a <= b ->
  Rmin (Rmin a b) (Rmin a b) = a /\ Rmax (Rmax a b) (Rmax a b) = b.
Proof. intros H. unfold Rmin, Rmax. split; destruct_Rdec; lra. Qed.

(** X8: on the [doc_detect] path of [process_single_image], where
    [cv2.getPerspectiveTransform(dst, found_corners)] maps the four
    corners of the template to the four corners found (top-left,
    top-right, bottom-right, bottom-left), the reported side lengths are
    the lengths of the four sides of the outline found, and the reported
    distortion is (longest / shortest - 1) * 100 of these.  The page is
    flagged, with one [perspective_distortion] reason, when the longest
    side exceeds the shortest by 9 percent or more, and carries no such
    reason when it exceeds it by 7 percent or less (the threshold is 8
    percent, and the margin of one percent keeps the statement clear of
    the rounding of the double-precision value).  In particular an outline
    with the proportions of the template itself, sides k * 1699 and
    k * 2199, is reported with a distortion of (2199/1699 - 1) * 100, about
    29.4 percent, and is always flagged: the measure compares all four
    sides with each other, so a page seen without any perspective is still
    reported as distorted. *)
Theorem detected_outline_is_flagged :
  forall bytes df s img (tl tr br bl : pointR) (r : R),
    process_single_image cv bytes df = Py.Ok s ->
    imdecode cv bytes = Some img ->
    used_method (meta s) = Some doc_detect ->
    contour_quad cv img = Some ((tl, tr, br, bl), r) ->
    perspectiveTransform (getPerspectiveTransform cv (tl, tr, br, bl))
                         (0, 0) = tl ->
    perspectiveTransform (getPerspectiveTransform cv (tl, tr, br, bl))
                         (1699, 0) = tr ->
    perspectiveTransform (getPerspectiveTransform cv (tl, tr, br, bl))
                         (1699, 2199) = br ->
    perspectiveTransform (getPerspectiveTransform cv (tl, tr, br, bl))
                         (0, 2199) = bl ->
    let l0 := side_length tl tr in
    let l1 := side_length tr br in
    let l2 := side_length br bl in
    let l3 := side_length bl tl in
    let shortest := Rmin (Rmin l0 l1) (Rmin l2 l3) in
    let longest := Rmax (Rmax l0 l1) (Rmax l2 l3) in
    let pct := perspective_distortion_pct (perspective_metrics (meta s)) in
    let tags := count_tag (perspective_distortion 0)
                          (manual_check_reasons (meta s)) in
    corner_points_image (perspective_metrics (meta s)) = [tl; tr; br; bl] /\
    side_lengths (perspective_metrics (meta s)) = [l0; l1; l2; l3] /\
    (shortest <= 1 / 10 ^ 6 -> pct = 0) /\
    (1 / 10 ^ 6 < shortest -> pct = (longest / shortest - 1) * 100) /\
    (1 / 10 ^ 6 < shortest -> 109 / 100 * shortest <= longest ->
     manual_check_needed (meta s) = true /\ tags = 1%nat) /\
    (1 / 10 ^ 6 < shortest -> longest <= 107 / 100 * shortest ->
     tags = 0%nat) /\
    (forall k,
        1 / 10 ^ 6 < k * 1699 ->
        l0 = k * 1699 -> l2 = k * 1699 -> l1 = k * 2199 -> l3 = k * 2199 ->
        pct = (2199 / 1699 - 1) * 100 /\
        manual_check_needed (meta s) = true /\ tags = 1%nat).
Proof.
  intros bytes df s img tl tr br bl r Es Hd Hm Hq C0 C1 C2 C3.
  destruct (process_single_image_outputs _ _ Es)
    as (img' & w & Hd' & _ & Hu & _ & _ & _ & _ & Hp & Hf & Hrs).
  rewrite Hd in Hd'. injection Hd' as <-. cbv zeta in Hu, Hp, Hf, Hrs.
  rewrite Hu in Hm.
  destruct (align_single_doc_detect cv img Hm)
    as (q' & r' & Hi & Hq' & H1 & H2).
  rewrite Hq in Hq'. injection Hq' as <- <-.
  pose proof (measure_perspective_reports
                (getPerspectiveTransform cv (tl, tr, br, bl))) as Rep.
  rewrite <- (metrics_with_homography cv _ H1 H2), <- Hp in Rep.
  unfold reports_distortion_of in Rep. cbv zeta in Rep.
  rewrite C0, C1, C2, C3 in Rep.
  destruct Rep as (Rc & Rs & Rz & Rf).
  cbv zeta.
  destruct (metadata_of_spec cv (align_single cv img) w)
    as (Hiff & _ & _ & _ & _ & _ & [Hp1 Hp0] & _).
  destruct (metadata_of_fields cv (align_single cv img) w)
    as (_ & _ & _ & F4 & _).
  unfold perspective_cond, PERSPECTIVE_DISTORTION_PCT in Hiff, Hp1, Hp0.
  rewrite F4, <- Hp in Hiff, Hp1, Hp0.
  rewrite Hf, Hrs, count_tag_blank_tail by reflexivity.
  set (mn := Rmin (Rmin (side_length tl tr) (side_length tr br))
                  (Rmin (side_length br bl) (side_length bl tl))) in *.
  set (mx := Rmax (Rmax (side_length tl tr) (side_length tr br))
                  (Rmax (side_length br bl) (side_length bl tl))) in *.
  set (pct := perspective_distortion_pct (perspective_metrics (meta s))) in *.
  assert (Flag : pct > 8 ->
                 (manual_check_needed (metadata_of cv (align_single cv img) w)
                  || any_blank cv w df)%bool = true /\
                 count_tag (perspective_distortion 0)
                   (manual_check_reasons
                      (metadata_of cv (align_single cv img) w)) = 1%nat).
  { intros G. split; [|apply Hp1; exact G].
    apply orb_true_iff. left. apply Hiff. tauto. }
  split; [exact Rc|]. split; [exact Rs|]. split; [exact Rz|].
  split; [exact Rf|]. split; [|split].
  - intros Hs Hl. apply Flag. rewrite (Rf Hs).
    pose proof micro_pos as Hmp.
    assert (Hdiv : mx / mn * mn = mx) by (field; lra).
    assert (109 / 100 <= mx / mn) by nra. lra.
  - intros Hs Hl. apply Hp0. rewrite (Rf Hs).
    pose proof micro_pos as Hmp.
    assert (Hdiv : mx / mn * mn = mx) by (field; lra).
    assert (mx / mn <= 107 / 100) by nra. lra.
  - intros k Hk E0 E2 E1 E3.
    pose proof micro_pos as Hmp.
    assert (Hkpos : 0 < k) by lra.
    destruct (@min4_max4_two (k * 1699) (k * 2199) ltac:(lra)) as [Emin Emax].
    assert (Ep : pct = (2199 / 1699 - 1) * 100).
    { assert (Hs : 1 / 10 ^ 6 < mn)
        by (unfold mn; rewrite E0, E1, E2, E3, Emin; exact Hk).
      rewrite (Rf Hs). unfold mn, mx. rewrite E0, E1, E2, E3, Emin, Emax.
      field. lra. }
    split; [exact Ep|]. apply Flag. rewrite Ep. lra.
Qed.

(** *** The quality grade *)

Lemma paper_quality_poor c : paper_quality c = "Poor"%string <-> c <= 5 / 10.
Proof.
  unfold paper_quality, Rltb. destruct_Rdec; split; intros H;
    first [discriminate H|reflexivity|lra].
Qed.

Lemma paper_quality_good c : paper_quality c = "Good"%string <-> 8 / 10 < c.
Proof.
  unfold paper_quality, Rltb. destruct_Rdec; split; intros H;
    first [discriminate H|reflexivity|lra].
Qed.

Lemma paper_quality_fair c :
  paper_quality c = "Fair"%string <-> 5 / 10 < c <= 8 / 10.
Proof.
  unfold paper_quality, Rltb. destruct_Rdec; split; intros H;
    first [discriminate H|reflexivity|lra].
Qed.

(** X9: the grade [paper_quality] that [process_single_image] reports
    agrees with its other outputs.  A page graded 'Poor' is always flagged
    for a manual check; a page graded 'Good' never carries a
    [low_confidence] reason; the method [identity_size_match] always grades
    'Good', [simple_resize_fallback] always 'Poor'; and [doc_detect] grades
    'Good' when the detected page covers at least 80.1 percent of the
    image, 'Fair' when it covers between 57.6 and 79.9 percent, and 'Poor'
    when it covers at most 57.4 percent.  The grades of [doc_detect] are
    stated one thousandth away from the thresholds 0.8 and 0.575 of the
    area ratio: there the double-precision value of
    [(ratio - 0.2) / 0.75] can fall on either side of 0.8 and 0.5 (at a
    ratio of 0.8 it is 0.8000000000000002, hence 'Good'), while a
    thousandth exceeds the rounding error of the two operations by twelve
    orders of magnitude. *)
Theorem paper_quality_agrees_with_flag :
  forall bytes df s,
    process_single_image cv bytes df = Py.Ok s ->
    let q := paper_quality (alignment_confidence (meta s)) in
    (q = "Poor"%string -> manual_check_needed (meta s) = true) /\
    (q = "Good"%string ->
     count_tag (low_confidence 0) (manual_check_reasons (meta s)) = 0%nat) /\
    (used_method (meta s) = Some identity_size_match -> q = "Good"%string) /\
    (used_method (meta s) = Some simple_resize_fallback ->
     q = "Poor"%string) /\
    (used_method (meta s) = Some doc_detect ->
     (801 / 1000 <= doc_area_ratio (meta s) -> q = "Good"%string) /\
     (576 / 1000 <= doc_area_ratio (meta s) <= 799 / 1000 ->
      q = "Fair"%string) /\
     (doc_area_ratio (meta s) <= 574 / 1000 -> q = "Poor"%string)).
Proof.
  intros bytes df s Es q. unfold q. clear q.
  destruct (process_single_image_outputs _ _ Es)
    as (img & w & _ & _ & Hu & Hc & Hr & _ & _ & _ & Hf & Hrs).
  cbv zeta in *. rewrite Hu, Hc, Hr, Hf, Hrs.
  rewrite paper_quality_poor, paper_quality_good, paper_quality_fair.
  destruct (metadata_of_spec cv (align_single cv img) w)
    as (_ & _ & [_ Hl] & _).
  destruct (metadata_of_fields cv (align_single cv img) w) as (_ & F2 & _).
  unfold low_confidence_cond in Hl. rewrite F2 in Hl.
  split; [|split; [|split; [|split]]].
  - intros Hp.
    assert (C : al_confidence (align_single cv img) < CONFIDENCE_THRESHOLD)
      by (unfold CONFIDENCE_THRESHOLD; lra).
    rewrite (proj1 (low_confidence_flags _ w C)). reflexivity.
  - intros Hg. rewrite count_tag_blank_tail by reflexivity.
    apply Hl. unfold CONFIDENCE_THRESHOLD. lra.
  - intros Hm.
    destruct (align_single_cases img)
      as [[_ E]|[(q & r & Hi & wc & _ & E)|E]];
      cbv zeta in E; rewrite E in Hm |- *; try discriminate Hm.
    cbn [al_confidence identity_alignment]. lra.
  - intros Hm.
    destruct (align_single_cases img)
      as [[_ E]|[(q & r & Hi & wc & _ & E)|E]];
      cbv zeta in E; rewrite E in Hm |- *; try discriminate Hm.
    cbn [al_confidence resize_result]. lra.
  - intros Hm.
    destruct (align_single_cases img)
      as [[_ E]|[(q & r & Hi & wc & _ & E)|E]];
      cbv zeta in E; rewrite E in Hm |- *; try discriminate Hm.
    cbn [al_confidence al_doc_area_ratio doc_detect_result].
    unfold compute_alignment_confidence_from_stats.
    replace ((r - 2 / 10) / (75 / 100)) with ((r - 2 / 10) * (4 / 3))
      by field.
    unfold clip, Rmin, Rmax.
    split; [|split]; intros; destruct_Rdec; lra.
Qed.

(** *** The size test *)

Lemma size_diff_ok_iff (w h : Z) :
  size_diff_ok w h = true <->
  (1666 <= w <= 1734 /\ 2156 <= h <= 2244)%Z.
Proof.
  unfold size_diff_ok, TEMPLATE_W, TEMPLATE_H, SIZE_TOL_PCT.
  rewrite andb_true_iff, !Rleb_true.
  replace (2 / 100 * 1700) with 34 by field.
  replace (2 / 100 * 2200) with 44 by field.
  split.
  - intros [Hw Hh]. apply le_IZR in Hw, Hh. lia.
  - intros [Hw Hh]. split; apply IZR_le; lia.
Qed.

(** X25: [process_single_image] takes the input as it is (method
    [identity_size_match]) exactly when its width is within 34 pixels of
    1700 and its height within 44 pixels of 2200, whatever it shows; the
    aligned image is then the input itself, at its own size, and no
    detection is attempted. *)
Theorem identity_used_iff_size_within_tolerance :
  forall bytes df s img,
    process_single_image cv bytes df = Py.Ok s ->
    imdecode cv bytes = Some img ->
    (used_method (meta s) = Some identity_size_match <->
     (1666 <= snd (shape cv img) <= 1734 /\
      2156 <= fst (shape cv img) <= 2244)%Z)
    /\ (used_method (meta s) = Some identity_size_match ->
        al_warped (align_single cv img) = Some img).
Proof.
  intros bytes df s img Es Hd.
  destruct (process_single_image_outputs _ _ Es)
    as (img' & w & Hd' & _ & Hu & _).
  rewrite Hd in Hd'. injection Hd' as <-. cbv zeta in Hu. rewrite Hu.
  rewrite <- size_diff_ok_iff, align_single_unfold.
  destruct (size_diff_ok _ _) eqn:Eo.
  - cbn [al_used_method al_warped identity_alignment].
    split; [tauto|reflexivity].
  - assert (N : al_used_method
                  (last_resort cv img false
                     (doc_detect_step cv img (contour_quad cv img)
                                      init_alignment))
                <> Some identity_size_match).
    { destruct (doc_detect_step_cases img (contour_quad cv img) init_alignment)
        as [E|(q & r & Hi & wc & _ & E)]; rewrite E; simpl; discriminate. }
    split; [split; [intros C; contradiction|discriminate]|].
    intros C. contradiction.
Qed.
End PipelineFacts.

(** The photograph in which nothing is detected ends in the resize
    fallback, and is flagged. *)
Lemma resize_fallback_is_flagged_witness :
  exists s,
    Segment.process_single_image Segment.ops_nothing_detected []
      Segment.sample_labels = Py.Ok s /\
    Segment.manual_check_needed (Segment.meta s) = true /\
    Segment.count_tag (Segment.low_confidence 0)
      (Segment.manual_check_reasons (Segment.meta s)) = 1%nat.
Proof.
  destruct sample_single_result as (s & Es & Hm & _).
  exists s. split; [exact Es|].
  exact (proj1 (@resize_fallback_is_flagged unit Segment.ops_nothing_detected)
               [] Segment.sample_labels s Es Hm).
Defined.

Section PipelineSamples.
Import Segment SegmentMore.
Local Open Scope R_scope.

Lemma sample_scan_size_ok : size_diff_ok 1700 2200 = true.
Proof.
  unfold size_diff_ok, TEMPLATE_W, TEMPLATE_H, SIZE_TOL_PCT.
  change (Z.abs (1700 - 1700)) with 0%Z. change (Z.abs (2200 - 2200)) with 0%Z.
  apply andb_true_iff. split; apply Rleb_true; lra.
Qed.

Lemma sample_photo_size_mismatch : size_diff_ok 3400 4400 = false.
Proof.
  unfold size_diff_ok, TEMPLATE_W, TEMPLATE_H, SIZE_TOL_PCT.
  change (Z.abs (3400 - 1700)) with 1700%Z.
  apply andb_false_iff. left. apply Rleb_false. lra.
Qed.

(** What the functions report on the clean scan and on the photograph of
    the page. *)
Lemma sample_scan_identity :
  exists w m,
    process_single_image_with_alignment ops_blank_scan tt = Py.Ok (w, m) /\
    used_method m = Some identity_size_match.
Proof.
  destruct (with_alignment_returns ops_blank_scan tt) as (w & m & E).
  exists w, m. split; [exact E|].
  destruct (with_alignment_ok _ _ E) as [_ ->].
  rewrite (proj1 (metadata_of_fields ops_blank_scan _ w)).
  rewrite align_with_features_unfold.
  change (al_warped (feature_step ops_blank_scan tt)) with (@None unit).
  change (size_diff_ok (snd (shape ops_blank_scan tt))
                       (fst (shape ops_blank_scan tt)))
    with (size_diff_ok 1700 2200).
  rewrite sample_scan_size_ok. reflexivity.
Qed.

Lemma sample_doc_detect_result :
  exists s,
    process_single_image ops_page_in_photo [] sample_labels = Py.Ok s /\
    used_method (meta s) = Some doc_detect /\
    doc_area_ratio (meta s) = 1 / 4.
Proof.
  destruct (@process_single_image_returns _ ops_page_in_photo [] sample_labels
              tt eq_refl) as [s Es].
  exists s. split; [exact Es|].
  destruct (process_single_image_outputs _ _ _ Es)
    as (img & w & _ & _ & Hu & _ & Hr & _).
  cbv zeta in *. rewrite Hu, Hr. destruct img.
  assert (E : align_single ops_page_in_photo tt
              = doc_detect_result ops_page_in_photo
                  ((850, 1100), (2549, 1100), (2549, 3299), (850, 3299))
                  (1 / 4) (similarity_h 1 0 (-850) (-1100)) tt).
  { rewrite align_single_unfold.
    change (size_diff_ok (snd (shape ops_page_in_photo tt))
                         (fst (shape ops_page_in_photo tt)))
      with (size_diff_ok 3400 4400).
    rewrite sample_photo_size_mismatch.
    unfold doc_detect_step.
    cbn [contour_quad safe_inverse warp_image_with_H blank_frac
         getPerspectiveTransform ops_page_in_photo].
    assert (Rltb MIN_DOC_AREA_RATIO (1 / 4) = true) as ->
        by (apply Rltb_true; unfold MIN_DOC_AREA_RATIO; lra).
    assert (Rleb (1 / 2) (90 / 100) = true) as ->
        by (apply Rleb_true; lra).
    reflexivity. }
  rewrite E. split; reflexivity.
Qed.
End PipelineSamples.

(** The clean 1700 x 2200 scan is taken as it is, with confidence 0.95. *)
Lemma identity_match_flag_depends_on_residual_witness :
  exists w m,
    Segment.process_single_image_with_alignment Segment.ops_blank_scan tt
    = Py.Ok (w, m) /\
    w = tt /\ Segment.alignment_confidence m = (95 / 100)%R.
Proof.
  destruct sample_scan_identity as (w & m & E & Hm).
  exists w, m. split; [exact E|].
  destruct (proj1 (@identity_match_flag_depends_on_residual
                     unit Segment.ops_blank_scan) tt w m E Hm)
    as (Hw & Hc & _).
  split; [exact Hw|exact Hc].
Defined.

(** The page that fills a quarter of the photograph gets the confidence
    clip(0.05 / 0.75, 0, 1) and is flagged. *)
Lemma doc_detect_confidence_from_area_ratio_witness :
  exists s,
    Segment.process_single_image SegmentMore.ops_page_in_photo []
      Segment.sample_labels = Py.Ok s /\
    Segment.alignment_confidence (Segment.meta s)
    = Segment.clip ((1 / 4 - 2 / 10) / (75 / 100))%R 0%R 1%R /\
    Segment.manual_check_needed (Segment.meta s) = true.
Proof.
  destruct sample_doc_detect_result as (s & Es & Hm & Hr).
  exists s. split; [exact Es|].
  destruct (proj1 (@doc_detect_confidence_from_area_ratio
                     unit SegmentMore.ops_page_in_photo)
                  [] Segment.sample_labels s Es Hm)
    as (_ & Hc & Hf).
  rewrite Hr in Hc, Hf. split; [exact Hc|].
  apply Hf. lra.
Defined.

(** The photograph with the page in its middle: the outline found has the
    size of the template, sides 1699 and 2199, and the page is flagged. *)
Lemma detected_outline_is_flagged_witness :
  exists s,
    Segment.process_single_image SegmentMore.ops_page_in_photo []
      Segment.sample_labels = Py.Ok s /\
    Segment.side_lengths (Segment.perspective_metrics (Segment.meta s))
    = [Segment.side_length (850, 1100) (2549, 1100);
       Segment.side_length (2549, 1100) (2549, 3299);
       Segment.side_length (2549, 3299) (850, 3299);
       Segment.side_length (850, 3299) (850, 1100)]%R /\
    Segment.perspective_distortion_pct
      (Segment.perspective_metrics (Segment.meta s))
    = ((2199 / 1699 - 1) * 100)%R /\
    Segment.manual_check_needed (Segment.meta s) = true.
Proof.
  destruct sample_doc_detect_result as (s & Es & Hm & _).
  exists s. split; [exact Es|].
  assert (C : forall x y : R,
             Segment.perspectiveTransform
               (Segment.getPerspectiveTransform SegmentMore.ops_page_in_photo
                  ((850, 1100), (2549, 1100), (2549, 3299), (850, 3299))%R)
               (x, y)
             = (x + 850, y + 1100)%R).
  { intros x y.
    change (Segment.getPerspectiveTransform SegmentMore.ops_page_in_photo _)
      with (SegmentMore.similarity_h 1 0 850 1100).
    rewrite perspectiveTransform_similarity, cos_0, sin_0.
    f_equal; ring. }
  destruct (@detected_outline_is_flagged unit SegmentMore.ops_page_in_photo
              [] Segment.sample_labels s tt
              (850, 1100)%R (2549, 1100)%R (2549, 3299)%R (850, 3299)%R
              (1 / 4)%R Es eq_refl Hm eq_refl)
    as (_ & Hs & _ & _ & _ & _ & Hk).
  - rewrite C. f_equal; ring.
  - rewrite C. f_equal; ring.
  - rewrite C. f_equal; ring.
  - rewrite C. f_equal; ring.
  - split; [exact Hs|].
    assert (Hmicro : (1 / 10 ^ 6 < 1 * 1699)%R).
    { assert (H : (1 < 10 ^ 6)%R) by (apply Rlt_pow_R1; [lra|lia]).
      pose proof (inv_lt_1 H) as H1. lra. }
    assert (Sx : forall a b c : R,
               (0 <= b - a)%R \/ (0 <= a - b)%R ->
               Segment.side_length (a, c) (b, c) = Rabs (b - a)).
    { intros a b c _. unfold Segment.side_length. cbn [fst snd].
      replace ((b - a) * (b - a) + (c - c) * (c - c))%R
        with (Rsqr (b - a)) by (unfold Rsqr; ring).
      apply sqrt_Rsqr_abs. }
    assert (Sy : forall a b c : R,
               Segment.side_length (c, a) (c, b) = Rabs (b - a)).
    { intros a b c. unfold Segment.side_length. cbn [fst snd].
      replace ((c - c) * (c - c) + (b - a) * (b - a))%R
        with (Rsqr (b - a)) by (unfold Rsqr; ring).
      apply sqrt_Rsqr_abs. }
    destruct (Hk 1%R Hmicro) as (Ep & Ef & _).
    + rewrite Sx by (left; lra). rewrite Rabs_right; lra.
    + rewrite Sx by (right; lra). rewrite Rabs_left; lra.
    + rewrite Sy. rewrite Rabs_right; lra.
    + rewrite Sy. rewrite Rabs_left; lra.
    + split; [exact Ep|exact Ef].
Defined.

(** The photograph in which nothing is detected is graded 'Poor' and
    flagged. *)
Lemma paper_quality_agrees_with_flag_witness :
  exists s,
    Segment.process_single_image Segment.ops_nothing_detected []
      Segment.sample_labels = Py.Ok s /\
    SegmentMore.paper_quality (Segment.alignment_confidence (Segment.meta s))
    = "Poor"%string /\
    Segment.manual_check_needed (Segment.meta s) = true.
Proof.
  destruct sample_single_result as (s & Es & Hm & _).
  exists s. split; [exact Es|].
  destruct (@paper_quality_agrees_with_flag unit Segment.ops_nothing_detected
              [] Segment.sample_labels s Es)
    as (P & _ & _ & R & _).
  split; [exact (R Hm)|exact (P (R Hm))].
Defined.

Section RowFrameFacts.
Import Rows RowsMore.
Local Open Scope Z_scope.

Lemma scan_step_frame H W thresh st y p :
  0 <= y < H -> scan_inv y st ->
  Forall (in_frame H W (min_height H)) (segments st) ->
  Forall (in_frame H W (min_height H))
         (segments (scan_step H W thresh st y p)).
Proof.
  intros Hy (_ & _ & Hin & _) HF. unfold scan_step.
  destruct (above thresh p && negb (in_seg st))%bool; [exact HF|].
  destruct ((negb (above thresh p) || (y =? H - 1)) && in_seg st)%bool eqn:E2;
    [|exact HF].
  apply andb_true_iff in E2. destruct E2 as [_ E2]. specialize (Hin E2).
  cbn [segments].
  destruct (min_height H <=? y - y0 st) eqn:E3; [|exact HF].
  apply Z.leb_le in E3.
  apply Forall_app. split; [exact HF|].
  constructor; [|constructor]. unfold in_frame. lia.
Qed.

Lemma scan_rows_frame H W thresh proj :
  forall st y,
    0 <= y -> y + Z.of_nat (length proj) = H -> scan_inv y st ->
    Forall (in_frame H W (min_height H)) (segments st) ->
    Forall (in_frame H W (min_height H))
           (segments (scan_rows H W thresh st y proj)).
Proof.
  induction proj as [|p rest IH]; intros st y Hy Hlen Hinv HF.
  - exact HF.
  - simpl scan_rows. simpl length in Hlen. apply IH.
    + lia.
    + lia.
    + apply scan_step_inv; [lia|exact Hinv].
    + apply scan_step_frame; [lia|exact Hinv|exact HF].
Qed.

Lemma scan_segments_frame W thresh proj :
  let H := Z.of_nat (length proj) in
  Forall (in_frame H W (min_height H))
         (segments (scan_rows H W thresh
                      {| segments := []; in_seg := false; y0 := 0 |} 0 proj)).
Proof.
  intros H. apply scan_rows_frame; [lia|reflexivity| |constructor].
  unfold scan_inv; simpl.
  repeat split; try constructor; try lia; try discriminate.
Qed.

Lemma merge_from_frame H W m segs :
  forall cur,
    in_frame H W m cur ->
    Forall (in_frame H W m) segs ->
    Forall (fun s => top cur <= top s) segs ->
    StronglySorted le_top segs ->
    Forall (in_frame H W m) (merge_from cur segs).
Proof.
  induction segs as [|seg t IH]; intros cur Hc HF HT HS.
  - simpl. constructor; [exact Hc|constructor].
  - inversion HF as [|? ? Hseg HF']; subst.
    inversion HT as [|? ? Htop HT']; subst.
    inversion HS as [|? ? HS' HA]; subst.
    destruct seg as [[[x y] w] h]. destruct cur as [[[px py] pw] ph].
    simpl in Htop. unfold in_frame in Hc, Hseg. simpl merge_from.
    destruct (y <=? py + ph + 12).
    + apply IH; try assumption; try (unfold in_frame; lia).
    + constructor; [unfold in_frame; lia|].
      apply IH; try assumption; try (unfold in_frame; lia).
Qed.

Lemma merge_segments_frame H W m segs :
  StronglySorted le_top segs ->
  Forall (in_frame H W m) segs ->
  Forall (in_frame H W m) (merge_segments segs).
Proof.
  intros HS HF. destruct segs as [|seg t]; [constructor|].
  rewrite merge_segments_from.
  inversion HS as [|? ? HS' HA]; subst.
  inversion HF as [|? ? Hseg HF']; subst.
  apply merge_from_frame; assumption.
Qed.

Lemma cut_rows_frame H W m tc l :
  Forall (in_frame H W m) l ->
  Forall (in_frame_cut H W m tc) (cut_rows tc l).
Proof.
  induction 1 as [|r t Hr HF IH]; [constructor|].
  destruct r as [[[x y] w] h]. unfold in_frame in Hr.
  unfold cut_rows. simpl flat_map. fold (cut_rows tc t).
  destruct ((tc <? y + h) && (Z.max y tc - y <? h))%bool; simpl.
  - constructor; [unfold in_frame_cut; lia|exact IH].
  - exact IH.
Qed.

Lemma split_rows_of_frame proj W frac :
  let H := Z.of_nat (length proj) in
  Forall (in_frame_cut H W (min_height H) (top_cut_of H frac))
         (split_rows_of proj W frac).
Proof.
  intros H. unfold split_rows_of.
  destruct (scan_segments_sorted W (thresh_of proj) proj) as [HS _].
  apply cut_rows_frame, merge_segments_frame;
    [exact HS|apply scan_segments_frame].
Qed.

(** On a projection that is zero everywhere the scanning loop never
    opens a segment. *)
Lemma thresh_of_zeros proj :
  Forall (fun p => p = 0) proj -> (thresh_of proj == 0)%Q.
Proof.
  intros HZ. unfold thresh_of.
  assert (E : fold_right Z.add 0 proj = 0).
  { induction HZ as [|p t Hp _ IH]; [reflexivity|]. simpl. lia. }
  rewrite E. unfold Qdiv. rewrite !Qmult_0_l. reflexivity.
Qed.

Lemma scan_rows_idle H W thresh proj :
  Forall (fun p => above thresh p = false) proj ->
  forall st y,
    in_seg st = false -> scan_rows H W thresh st y proj = st.
Proof.
  induction 1 as [|p t Hp _ IH]; intros st y Hs; [reflexivity|].
  simpl. unfold scan_step. rewrite Hp, Hs. simpl. apply IH. exact Hs.
Qed.

(** X10: every row that [split_rows] returns spans the full width of the
    image (x = 0, w = W), lies between row 0 and row H - 1, and is at
    least max(40, H // 40) pixels tall unless it starts at the cutoff
    [int(H * min_y_frac)], where it may have been truncated; a later row
    starts more than 12 pixels below the bottom of an earlier one.  An
    image of 40 rows or fewer, or one without ink outside the band, gives
    no rows. *)
Theorem split_rows_frame_and_gaps :
  forall (Image : Type) (cv : cv_ops Image) (gray : Image) (band : bbox)
         (min_y_frac : Q),
    let rows := split_rows cv gray band min_y_frac in
    let H := Z.of_nat (length (ink_projection cv gray band)) in
    let W := width cv gray in
    (forall x y w h,
        In (x, y, w, h) rows ->
        x = 0 /\ w = W /\ 0 <= y /\ 0 < h /\ y + h <= H - 1 /\
        (top_cut_of H min_y_frac < y -> Z.max 40 (H / 40) <= h))
    /\ (forall i j ri rj,
           (i < j)%nat ->
           nth_error rows i = Some ri -> nth_error rows j = Some rj ->
           top ri + height ri + 12 < top rj)
    /\ (H <= 40 -> rows = [])
    /\ (Forall (fun p => p = 0) (ink_projection cv gray band) -> rows = []).
Proof.
  intros Image cv gray band frac rows H W.
  pose proof (split_rows_of_spaced (ink_projection cv gray band)
                                   (width cv gray) frac) as Hsp.
  pose proof (split_rows_of_frame (ink_projection cv gray band)
                                  (width cv gray) frac) as Hfr.
  cbv zeta in Hfr.
  fold (split_rows cv gray band frac) in Hsp, Hfr. fold rows in Hsp, Hfr.
  fold H in Hfr. fold W in Hfr.
  split; [|split; [|split]].
  - intros x y w h Hin.
    destruct (@spaced_In _ _ _ Hsp Hin) as [S1 S2]. simpl in S1, S2.
    rewrite Forall_forall in Hfr. specialize (Hfr _ Hin).
    unfold in_frame_cut, min_height in Hfr. lia.
  - intros i j ri rj Hij Hi Hj.
    exact (@spaced_nth _ _ i j _ _ Hsp Hij Hi Hj).
  - intros HH. unfold rows, split_rows, split_rows_of.
    pose proof (scan_segments_frame (width cv gray)
                  (thresh_of (ink_projection cv gray band))
                  (ink_projection cv gray band)) as HF.
    cbv zeta in HF. fold H in HF.
    destruct (segments _) as [|[[[x y] w] h] t]; [reflexivity|].
    inversion HF as [|? ? Hs _]; subst.
    unfold in_frame, min_height in Hs. lia.
  - intros HZ. unfold rows, split_rows, split_rows_of.
    rewrite scan_rows_idle; [reflexivity| |reflexivity].
    eapply Forall_impl; [|exact HZ].
    intros p ->. unfold above.
    apply negb_false_iff, Qle_bool_iff.
    rewrite (thresh_of_zeros HZ). apply Qle_refl.
Qed.
End RowFrameFacts.

Section FinalCropMargins.
Import FinalCrop FinalCropMore.
Local Open Scope Z_scope.

Lemma final_hybrid_crop_margins H W rows cols b2 pad y0 y1 x0 x1 :
  final_hybrid_crop H W rows cols b2 pad = Slice y0 y1 x0 x1 ->
  int_001 H <= y0 /\ y1 <= int_099 H /\ int_001 W <= x0 /\ x1 <= int_099 W.
Proof.
  unfold final_hybrid_crop.
  destruct (_ || _)%bool.
  - destruct b2 as [[[[x2 y2] w2] h2]|]; [|discriminate].
    intros E. injection E as <- <- <- <-. lia.
  - destruct b2 as [[[[x2 y2] w2] h2]|]; cbv zeta.
    + destruct (_ || _)%bool.
      * destruct (_ && _)%bool; intros E; injection E as <- <- <- <-; lia.
      * intros E; injection E as <- <- <- <-; lia.
    + destruct (_ || _)%bool; [discriminate|].
      intros E; injection E as <- <- <- <-; lia.
Qed.

Lemma first_ix_nonneg (a : list Z) :
  Forall (fun i => 0 <= i) a -> 0 <= first_ix a.
Proof. intros F. destruct F; simpl; lia. Qed.

Lemma last_ix_nonneg (a : list Z) :
  Forall (fun i => 0 <= i) a -> 0 <= last_ix a.
Proof.
  unfold last_ix. induction 1 as [|x l Hx F IH]; [simpl; lia|].
  destruct l; [exact Hx|exact IH].
Qed.

(** The upper bounds of a slice are not negative when the padding is not,
    the ink indices are array indices and the paper box ends inside the
    half-plane of non-negative coordinates. *)
Lemma final_hybrid_crop_upper_nonneg H W rows cols b2 pad y0 y1 x0 x1 :
  0 <= H -> 0 <= W -> 0 <= pad ->
  Forall (fun i => 0 <= i) rows -> Forall (fun i => 0 <= i) cols ->
  (forall x2 y2 w2 h2,
      b2 = Some (x2, y2, w2, h2) -> 0 <= x2 + w2 /\ 0 <= y2 + h2) ->
  final_hybrid_crop H W rows cols b2 pad = Slice y0 y1 x0 x1 ->
  0 <= y1 /\ 0 <= x1.
Proof.
  intros HH HW Hp Fr Fc Hb.
  pose proof (first_ix_nonneg Fr). pose proof (last_ix_nonneg Fr).
  pose proof (first_ix_nonneg Fc). pose proof (last_ix_nonneg Fc).
  assert (0 <= int_099 H) by (unfold int_099; apply Z.div_pos; lia).
  assert (0 <= int_099 W) by (unfold int_099; apply Z.div_pos; lia).
  unfold final_hybrid_crop.
  destruct (_ || _)%bool.
  - destruct b2 as [[[[x2 y2] w2] h2]|]; [|discriminate].
    destruct (Hb _ _ _ _ eq_refl).
    intros E. injection E as <- <- <- <-. lia.
  - destruct b2 as [[[[x2 y2] w2] h2]|]; cbv zeta.
    + destruct (Hb _ _ _ _ eq_refl).
      destruct (_ || _)%bool.
      * destruct (_ && _)%bool; intros E; injection E as <- <- <- <-; lia.
      * intros E; injection E as <- <- <- <-; lia.
    + destruct (_ || _)%bool; [discriminate|].
      intros E; injection E as <- <- <- <-; lia.
Qed.

(** A negative padding is not excluded by the function: with a paper box
    (100, 100, 500, 500) and no ink the call with [pad = -601] takes
    [rgb[701:-1, 701:-1]], which numpy reads from the end of the axes:
    rows 701 to 1498 of 1500, beyond [int(0.99 * 1500) = 1485]. *)
Lemma negative_padding_wraps :
  final_hybrid_crop 1500 1000 [] [] (Some (100, 100, 500, 500)) (-601)
  = Slice 701 (-1) 701 (-1)
  /\ norm_ix 1500 (-1) = 1499
  /\ region_shape 1500 1000 (Slice 701 (-1) 701 (-1)) = (798, 298).
Proof. repeat split; vm_compute; reflexivity. Qed.

(** X11: when the padding is not negative (the program passes 8 or 10),
    the ink rows and columns are array indices (not negative, as
    [np.where] returns them) and the paper box, if there is one, does not
    end left of or above the origin, a slice [rgb[y0:y1, x0:x1]] that
    [final_hybrid_crop_after_deskew] takes has bounds that are not
    negative, so numpy reads none of them from the end of the axis, and
    every row and column it takes lies between [int(0.01 * n)] and
    [int(0.99 * n)]: the slice never reaches into the outer one percent of
    the image on any side.  When no paper contour is found the result has
    positive height and width, whatever the padding, so an empty result
    needs a paper box. *)
Theorem final_crop_margins_and_guard :
  forall (Image : Type) (cv : cv_ops Image) (rgb : Image) (pad H W : Z),
    shape cv rgb = (H, W) -> 0 < H -> 0 < W ->
    let r := final_hybrid_crop_after_deskew cv rgb pad in
    (0 <= pad ->
     Forall (fun i => 0 <= i) (ink_rows cv rgb) ->
     Forall (fun i => 0 <= i) (ink_cols cv rgb) ->
     (forall x2 y2 w2 h2,
         paper_box cv rgb = Some (x2, y2, w2, h2) ->
         0 <= x2 + w2 /\ 0 <= y2 + h2) ->
     forall y0 y1 x0 x1,
       r = Slice y0 y1 x0 x1 ->
       0 <= H / 100 <= y0 /\ y1 <= 99 * H / 100 <= H /\
       0 <= W / 100 <= x0 /\ x1 <= 99 * W / 100 <= W /\
       0 <= y1 /\ 0 <= x1 /\
       (forall i, norm_ix H y0 <= i < norm_ix H y1 ->
                  H / 100 <= i < 99 * H / 100) /\
       (forall j, norm_ix W x0 <= j < norm_ix W x1 ->
                  W / 100 <= j < 99 * W / 100))
    /\ (paper_box cv rgb = None ->
        0 < fst (region_shape H W r) <= H /\
        0 < snd (region_shape H W r) <= W).
Proof.
  intros Image cv rgb pad H W Hs HH HW r.
  unfold r, final_hybrid_crop_after_deskew. rewrite Hs.
  split.
  - intros Hp Fr Fc Hb y0 y1 x0 x1 E.
    destruct (@final_hybrid_crop_upper_nonneg H W _ _ _ pad y0 y1 x0 x1
                ltac:(lia) ltac:(lia) Hp Fr Fc Hb E) as [U1 U2].
    apply final_hybrid_crop_margins in E.
    pose proof (@int_001_nonneg H ltac:(lia)).
    pose proof (@int_001_nonneg W ltac:(lia)).
    pose proof (@int_099_le H ltac:(lia)).
    pose proof (@int_099_le W ltac:(lia)).
    unfold int_001, int_099 in *.
    assert (N : forall n lo hi i,
               0 <= n / 100 <= lo -> 0 <= hi <= 99 * n / 100 ->
               99 * n / 100 <= n ->
               norm_ix n lo <= i < norm_ix n hi ->
               n / 100 <= i < 99 * n / 100).
    { clear. intros n lo hi i Hlo Hhi Hn. unfold norm_ix.
      destruct (lo <? 0) eqn:L; [apply Z.ltb_lt in L; lia|].
      destruct (hi <? 0) eqn:U; [apply Z.ltb_lt in U; lia|].
      lia. }
    repeat split; try lia.
    + apply (N H y0 y1 i); try lia.
    + apply (N H y0 y1 i); try lia.
    + apply (N W x0 x1 j); try lia.
    + apply (N W x0 x1 j); try lia.
  - intros ->. apply final_hybrid_crop_ink_only_positive; assumption.
Qed.
End FinalCropMargins.

(** On the page with ink only, the crop is [rgb[290:1210, 90:910]]. *)
Lemma final_crop_margins_and_guard_witness :
  FinalCrop.final_hybrid_crop_after_deskew FinalCropMore.ops_ink_only tt 10
  = FinalCrop.Slice 290 1210 90 910
  /\ (15 <= 290 /\ 1210 <= 1485 /\ 10 <= 90 /\ 910 <= 990)%Z
  /\ (forall i, (290 <= i < 1210)%Z -> (15 <= i < 1485)%Z).
Proof.
  split; [reflexivity|].
  destruct (@final_crop_margins_and_guard unit FinalCropMore.ops_ink_only tt
              10 1500 1000 eq_refl ltac:(lia) ltac:(lia)) as [M _].
  assert (Fr : Forall (fun i => 0 <= i)%Z [300; 301; 1200]%Z)
    by (repeat constructor; lia).
  assert (Fc : Forall (fun i => 0 <= i)%Z [100; 900]%Z)
    by (repeat constructor; lia).
  specialize (M ltac:(lia) Fr Fc ltac:(discriminate)
                290 1210 90 910 eq_refl)%Z.
  change (1500 / 100)%Z with 15%Z in M.
  change (99 * 1500 / 100)%Z with 1485%Z in M.
  change (1000 / 100)%Z with 10%Z in M.
  change (99 * 1000 / 100)%Z with 990%Z in M.
  destruct M as (M1 & M2 & M3 & M4 & _ & _ & M5 & _).
  split; [lia|exact M5].
Defined.

Section ServiceFacts.
Import Segment Service.
Local Open Scope nat_scope.
Context {Image : Type} (cv : cv_ops Image).

(** *** The page loop *)

Lemma crop_question_spec warped idx name row q :
  In q (crop_question cv warped idx name row) ->
  page_number q = idx + 1 /\ question_name q = label_name row /\
  original_filename q = name /\
  crop_bbox_from_template_coords cv warped row 8 = Some (cropped_image q).
Proof.
  unfold crop_question.
  destruct (crop_bbox_from_template_coords cv warped row 8) as [crop|];
    [|intros []].
  intros [<-|[]]. simpl. auto.
Qed.

Lemma crop_pages_spec label_df pages :
  forall idx acc meta_acc,
  exists new metas,
    crop_pages cv label_df idx pages acc meta_acc
    = Py.Ok (acc ++ new, meta_acc ++ metas) /\
    Forall (from_page cv label_df idx (idx + length pages)) new /\
    length metas = length pages.
Proof.
  induction pages as [|[image name] rest IH]; intros idx acc meta_acc.
  - exists [], []. rewrite !app_nil_r. simpl. auto.
  - simpl crop_pages.
    destruct (with_alignment_returns cv image) as (w & m & E). rewrite E.
    destruct (IH (S idx)
                 (acc ++ flat_map (crop_question cv w idx name)
                                  (page_questions label_df idx))
                 (meta_acc ++ [(page_name idx, m)]))
      as (new & metas & E' & HF & HL).
    exists (flat_map (crop_question cv w idx name)
                     (page_questions label_df idx) ++ new),
           ((page_name idx, m) :: metas).
    rewrite E', <- !app_assoc. split; [reflexivity|]. split.
    + apply Forall_app. split.
      * apply Forall_forall. intros q Hq.
        apply in_flat_map in Hq. destruct Hq as (row & Hrow & Hq).
        apply crop_question_spec in Hq. destruct Hq as (P & N & _ & C).
        unfold page_questions in Hrow. apply filter_In in Hrow.
        destruct Hrow as [Hin Heq]. apply String.eqb_eq in Heq.
        unfold from_page. rewrite P. split; [simpl; lia|].
        exists row, w.
        replace (idx + 1 - 1) with idx by lia. auto.
      * eapply Forall_impl; [|exact HF].
        intros q [Hr Hex]. split; [simpl; lia|exact Hex].
    + simpl. rewrite HL. reflexivity.
Qed.

(** *** Counting by page *)

Lemma total_one_page n k :
  forall lo,
    lo < k <= lo + n ->
    total (map (fun i => if k =? i + 1 then 1 else 0) (seq lo n)) = 1.
Proof.
  induction n as [|n IH]; intros lo Hk; [lia|].
  simpl. destruct (k =? lo + 1) eqn:E.
  - apply Nat.eqb_eq in E.
    assert (Z0 : forall m lo', k < lo' + 1 ->
                 total (map (fun i => if k =? i + 1 then 1 else 0)
                            (seq lo' m)) = 0).
    { induction m as [|m IHm]; intros lo' Hlo; [reflexivity|].
      simpl. destruct (k =? lo' + 1) eqn:E'.
      - apply Nat.eqb_eq in E'. lia.
      - apply IHm. lia. }
    rewrite Z0 by lia. reflexivity.
  - apply Nat.eqb_neq in E. apply IH. lia.
Qed.

Lemma count_by_page (pages : list nat) n :
  Forall (fun k => 0 < k <= n) pages ->
  total (map (fun i => length (filter (fun k => k =? i + 1) pages)) (seq 0 n))
  = length pages.
Proof.
  induction 1 as [|k t Hk _ IH]; simpl length.
  - induction (seq 0 n); simpl; auto.
  - transitivity
      (total (map (fun i => if k =? i + 1 then 1 else 0) (seq 0 n))
       + total (map (fun i => length (filter (fun k => k =? i + 1) t))
                    (seq 0 n))).
    + generalize (seq 0 n). intros l.
      induction l as [|i l IHl]; [reflexivity|].
      simpl. rewrite IHl. destruct (k =? i + 1); simpl; lia.
    + rewrite IH, total_one_page by lia. reflexivity.
Qed.

Lemma filter_page_number (l : list (CroppedQuestion Image)) k :
  length (filter (fun q => page_number q =? k) l)
  = length (filter (fun p => p =? k) (map (@page_number Image) l)).
Proof.
  induction l as [|q t IH]; [reflexivity|].
  simpl. destruct (page_number q =? k); simpl; rewrite IH; reflexivity.
Qed.

(** X12: every entry that [crop_questions_from_images] returns belongs to
    one of the pages processed: its [page_number] k lies between 1 and the
    number of image/filename pairs, and it is a valid crop for a label row
    whose [image_name] is "<k>.jpg" and whose label is its
    [question_name]; label rows of other image names are never cropped.
    The summary counts them: [total_questions_cropped] is the length of
    the list, the counts of [questions_per_page] add up to it, and
    [all_questions] lists the names in order. *)
Theorem cropped_questions_belong_to_pages :
  forall (csv : option csv_table) (image_list : list Image)
         (filenames : list string)
         (cropped : list (CroppedQuestion Image)) (summary : CropSummary),
    crop_questions_from_images cv csv image_list filenames
    = Py.Ok (cropped, summary) ->
    exists label_df,
      read_bboxes csv = Py.Ok label_df /\
      Forall (from_page cv label_df 0
                (Nat.min (length image_list) (length filenames))) cropped /\
      total_questions_cropped summary = length cropped /\
      total (map snd (questions_per_page summary)) = length cropped /\
      all_questions summary = map (@question_name Image) cropped /\
      pages_processed summary = length image_list /\
      length (image_metadata summary)
      = Nat.min (length image_list) (length filenames).
Proof.
  intros csv image_list filenames cropped summary.
  unfold crop_questions_from_images.
  destruct (read_bboxes csv) as [label_df|e]; [|discriminate].
  destruct (crop_pages_spec label_df (combine image_list filenames) 0 [] [])
    as (new & metas & E & HF & HL).
  rewrite E. simpl app. rewrite length_combine in HF, HL.
  intros R. injection R as <- <-. exists label_df.
  cbn [total_questions_cropped questions_per_page all_questions
       pages_processed image_metadata].
  repeat split; try assumption; try reflexivity.
  rewrite map_map. cbn [snd].
  rewrite <- (length_map (@page_number Image) new).
  rewrite <- (@count_by_page (map (@page_number Image) new)
                             (length image_list)).
  - f_equal. apply map_ext. intros i. apply filter_page_number.
  - apply Forall_forall. intros k Hk.
    apply in_map_iff in Hk. destruct Hk as (q & <- & Hq).
    rewrite Forall_forall in HF. destruct (HF q Hq) as [Hr _]. lia.
Qed.

Lemma page_name_not_template k :
  String.eqb "template.jpg" (page_name k) = false.
Proof.
  unfold page_name, str_of_nat.
  destruct (Nat.to_uint (k + 1)); reflexivity.
Qed.

(** X13: when [label.csv] does not exist, [read_bboxes] supplies its
    default table, whose rows all name the image 'template.jpg'; no page
    is called that, so [crop_questions_from_images] then crops nothing,
    whatever the images are. *)
Theorem default_labels_crop_nothing :
  forall (image_list : list Image) (filenames : list string),
    read_bboxes None = Py.Ok default_data /\
    exists summary,
      crop_questions_from_images cv None image_list filenames
      = Py.Ok ([], summary) /\
      total_questions_cropped summary = 0 /\
      all_questions summary = [] /\
      Forall (fun c => snd c = 0) (questions_per_page summary).
Proof.
  intros image_list filenames. split; [reflexivity|].
  unfold crop_questions_from_images. cbn [read_bboxes].
  destruct (crop_pages_spec default_data (combine image_list filenames) 0 [] [])
    as (new & metas & E & HF & _).
  assert (N : new = []).
  { destruct new as [|q t]; [reflexivity|].
    inversion HF as [|? ? [_ (row & w & Hin & Hn & _)] _]; subst.
    pose proof (page_name_not_template (page_number q - 1)) as Hne.
    rewrite <- Hn in Hne.
    simpl in Hin.
    destruct Hin as [<-|[<-|[<-|[<-|[<-|[]]]]]]; discriminate Hne. }
  subst new. rewrite E. simpl app.
  eexists. split; [reflexivity|].
  cbn [total_questions_cropped all_questions questions_per_page].
  repeat split; try reflexivity.
  apply Forall_forall. intros c Hc. apply in_map_iff in Hc.
  destruct Hc as (i & <- & _). reflexivity.
Qed.

(** *** The handler *)

Lemma read_images_cases images :
  forall acc names,
    (Forall (good_upload cv) images /\
     exists imgs,
       read_images cv images acc names
       = Return (acc ++ imgs, names ++ map filename images) /\
       length imgs = length images)
    \/ (~ Forall (good_upload cv) images /\
        exists e, read_images cv images acc names = Raise e).
Proof.
  induction images as [|f rest IH]; intros acc names.
  - left. split; [constructor|]. exists []. simpl. rewrite !app_nil_r. auto.
  - simpl read_images.
    destruct (content_type f) as [ct|] eqn:Ec.
    + destruct (String.prefix "image/" ct) eqn:Ep; cbn [negb].
      * destruct (imdecode cv (content f)) as [img|] eqn:Ed.
        -- destruct (IH (acc ++ [img]) (names ++ [filename f]))
             as [[HF (imgs & E & HL)]|[HN (e & E)]].
           ++ left. split.
              ** constructor; [|exact HF]. exists ct, img. auto.
              ** exists (img :: imgs). rewrite E, <- !app_assoc.
                 split; [reflexivity|]. simpl. rewrite HL. reflexivity.
           ++ right. split; [|eauto].
              intros HF. inversion HF; subst. contradiction.
        -- right. split; [|eauto].
           intros HF. inversion HF as [|? ? (c & i & _ & _ & Hd) _]; subst.
           congruence.
      * right. split; [|eauto].
        intros HF. inversion HF as [|? ? (c & i & Hc & Hp & _) _]; subst.
        congruence.
    + right. split; [|eauto].
      intros HF. inversion HF as [|? ? (c & i & Hc & _) _]; subst.
      congruence.
Qed.

(** X14: [segment_images] answers with the cropped questions exactly when
    it gets two uploads, each with a content type that starts with
    "image/" and bytes that decode, and the label table loads; in every
    other case the client gets status 500.  The status 400 that the
    handler raises for a wrong number of images, a non-image upload or an
    undecodable one never leaves it: its own [except Exception] turns
    each into 500. *)
Theorem segment_images_succeeds_or_500 :
  forall (csv : option csv_table) (images : list UploadFile),
    let accepted :=
      length images = 2 /\ Forall (good_upload cv) images /\
      exists label_df, read_bboxes csv = Py.Ok label_df in
    (accepted ->
     exists r,
       segment_images cv csv images = Return r /\
       success r = true /\
       pages_processed (summary r) = 2 /\
       total_questions_cropped (summary r) = length (cropped_questions r))
    /\ (~ accepted -> segment_images cv csv images = Raise (HTTPException 500))
    /\ (forall s, segment_images cv csv images = Raise (HTTPException s) ->
                  s = 500%Z).
Proof.
  intros csv images accepted. unfold accepted. clear accepted.
  assert (S5 : forall s, segment_images cv csv images
                         = Raise (HTTPException s) -> s = 500%Z).
  { unfold segment_images. intros s.
    destruct (segment_images_body cv csv images); [discriminate|].
    intros E. injection E as <-. reflexivity. }
  assert (F : forall e, segment_images_body cv csv images = Raise e ->
                        segment_images cv csv images
                        = Raise (HTTPException 500)).
  { intros e E. unfold segment_images. rewrite E. reflexivity. }
  split; [|split; [|exact S5]].
  - intros (HL & HG & label_df & Hdf).
    unfold segment_images, segment_images_body.
    rewrite HL. cbn [Nat.eqb negb].
    destruct images as [|f0 rest]; [discriminate HL|].
    destruct (read_images_cases (f0 :: rest) [] [])
      as [[_ (imgs & E & HI)]|[HN _]]; [|contradiction].
    rewrite E. cbn [app].
    unfold crop_questions_from_images. rewrite Hdf.
    destruct (crop_pages_spec label_df
                (combine imgs (map filename (f0 :: rest))) 0 [] [])
      as (new & metas & E' & _ & _).
    rewrite E'. cbn [app].
    eexists. split; [reflexivity|].
    cbn [success summary cropped_questions pages_processed
         total_questions_cropped].
    rewrite HI, HL. auto.
  - intros HN.
    destruct (segment_images_body cv csv images) as [r|e] eqn:E;
      [|exact (F e eq_refl)].
    exfalso. apply HN. unfold segment_images_body in E.
    destruct (length images =? 2) eqn:EL; cbn [negb] in E; [|discriminate].
    apply Nat.eqb_eq in EL.
    destruct images as [|f0 rest]; [discriminate|].
    destruct (read_images_cases (f0 :: rest) [] [])
      as [[HG (imgs & E1 & HI)]|[_ (e & E1)]];
      rewrite E1 in E; [|discriminate].
    cbn [app] in E. unfold crop_questions_from_images in E.
    destruct (read_bboxes csv) as [label_df|e] eqn:Hdf; [|discriminate].
    split; [exact EL|]. split; [exact HG|]. exists label_df. reflexivity.
Qed.

(** Once the label table is loaded the function returns. *)
Lemma crop_questions_returns csv label_df image_list filenames :
  read_bboxes csv = Py.Ok label_df ->
  exists cropped summary,
    crop_questions_from_images cv csv image_list filenames
    = Py.Ok (cropped, summary).
Proof.
  intros Hdf. unfold crop_questions_from_images. rewrite Hdf.
  destruct (crop_pages_spec label_df (combine image_list filenames) 0 [] [])
    as (new & metas & E & _).
  rewrite E. eauto.
Qed.
End ServiceFacts.

(** Two clean scans and a table with one question on each of the pages
    1, 2 and 3: the third label is for a page that is not there. *)
Lemma cropped_questions_belong_to_pages_witness :
  exists cropped summary,
    Service.crop_questions_from_images Segment.ops_blank_scan
      (Some Service.sample_table) [tt; tt] ["a.jpg"; "b.jpg"]%string
    = Py.Ok (cropped, summary) /\
    Service.total (map snd (Service.questions_per_page summary))
    = length cropped /\
    Service.pages_processed summary = 2%nat.
Proof.
  destruct (@crop_questions_returns unit Segment.ops_blank_scan
              (Some Service.sample_table) _ [tt; tt]
              ["a.jpg"; "b.jpg"]%string eq_refl)
    as (cropped & summary & E).
  exists cropped, summary. split; [exact E|].
  destruct (@cropped_questions_belong_to_pages unit Segment.ops_blank_scan
              (Some Service.sample_table) [tt; tt]
              ["a.jpg"; "b.jpg"]%string cropped summary E)
    as (df & _ & _ & _ & T & _ & P & _).
  split; [exact T|exact P].
Defined.

(** Two JPEG uploads are accepted. *)
Lemma segment_images_succeeds_or_500_witness :
  (exists r,
      Service.segment_images Segment.ops_blank_scan (Some Service.sample_table)
        [Service.sample_upload "a.jpg"; Service.sample_upload "b.jpg"]
      = Service.Return r /\ Service.success r = true)
  /\ Service.segment_images Segment.ops_blank_scan (Some Service.sample_table)
       [Service.sample_upload "a.jpg"]
     = Service.Raise (Service.HTTPException 500).
Proof.
  split.
  - destruct (@segment_images_succeeds_or_500 unit Segment.ops_blank_scan
                (Some Service.sample_table)
                [Service.sample_upload "a.jpg"; Service.sample_upload "b.jpg"])
      as (A & _).
    destruct A as (r & E & S & _).
    + split; [reflexivity|]. split.
      * repeat constructor;
          exists "image/jpeg"%string, tt; repeat split; reflexivity.
      * eexists. reflexivity.
    + exists r. split; [exact E|exact S].
  - apply (@segment_images_succeeds_or_500 unit Segment.ops_blank_scan
             (Some Service.sample_table) [Service.sample_upload "a.jpg"]).
    intros (HL & _). discriminate HL.
Defined.

(** Case analysis on the absolute values of the goal and of the
    hypotheses, innermost first. *)
Ltac destruct_Rabs :=
  unfold Rabs in *;
  repeat match goal with
         | |- context [Rcase_abs ?x] =>
             lazymatch x with
             | context [Rcase_abs _] => fail
             | _ => destruct (Rcase_abs x)
             end
         | H : context [Rcase_abs ?x] |- _ =>
             lazymatch x with
             | context [Rcase_abs _] => fail
             | _ => destruct (Rcase_abs x)
             end
         end.

Section LineFacts.
Import Segment TrainMore.
Local Open Scope R_scope.

(** X15: a point that [intersect] returns lies on the line through
    [p1], [p2] and on the line through [p3], [p4]; and the function
    returns [None] when the two directions are parallel, which includes
    the case of a segment whose end points coincide. *)
Theorem intersect_on_both_lines :
  forall (p1 p2 p3 p4 : pointR),
    (forall p, intersect p1 p2 p3 p4 = Some p ->
               on_line p1 p2 p /\ on_line p3 p4 p)
    /\ ((fst p1 - fst p2) * (snd p3 - snd p4)
        = (snd p1 - snd p2) * (fst p3 - fst p4) ->
        intersect p1 p2 p3 p4 = None)
    /\ (p1 = p2 \/ p3 = p4 -> intersect p1 p2 p3 p4 = None).
Proof.
  intros [x1 y1] [x2 y2] [x3 y3] [x4 y4].
  pose proof micro_pos as Hm.
  assert (Par : (x1 - x2) * (y3 - y4) = (y1 - y2) * (x3 - x4) ->
                intersect (x1, y1) (x2, y2) (x3, y3) (x4, y4) = None).
  { intros E. unfold intersect.
    replace ((x1 - x2) * (y3 - y4) - (y1 - y2) * (x3 - x4)) with 0 by lra.
    rewrite Rabs_R0.
    assert (Rltb 0 (1 / 10 ^ 6) = true) as -> by (apply Rltb_true; exact Hm).
    reflexivity. }
  split; [|split].
  - intros p. unfold intersect.
    set (den := (x1 - x2) * (y3 - y4) - (y1 - y2) * (x3 - x4)).
    destruct (Rltb (Rabs den) (1 / 10 ^ 6)) eqn:E; [discriminate|].
    apply Rltb_false in E.
    assert (Hd : den <> 0).
    { intros Z. rewrite Z, Rabs_R0 in E. lra. }
    intros P. injection P as <-. unfold on_line. cbn [fst snd].
    split; field_simplify_eq; try exact Hd; unfold den; ring.
  - cbn [fst snd]. exact Par.
  - intros [E|E]; injection E as -> ->; apply Par; ring.
Qed.

(** *** The angle of a reversed segment *)

Lemma degrees_add a b : degrees (a + b) = degrees a + degrees b.
Proof. unfold degrees. pose proof PI_RGT_0. field. lra. Qed.

Lemma degrees_PI : degrees PI = 180.
Proof. unfold degrees. pose proof PI_RGT_0. field. lra. Qed.

Lemma degrees_opp a : degrees (- a) = - degrees a.
Proof. unfold degrees. pose proof PI_RGT_0. field. lra. Qed.

Lemma degrees_atan_range x : -90 < degrees (atan x) < 90.
Proof.
  pose proof (atan_bound x) as [Hlo Hhi]. pose proof PI_RGT_0 as Hpi.
  unfold degrees.
  assert (E : atan x * 180 / PI * PI = atan x * 180) by (field; lra).
  set (k := atan x * 180 / PI) in *. nra.
Qed.

Lemma degrees_sign a : (0 < a -> 0 < degrees a) /\ (a <= 0 -> degrees a <= 0).
Proof.
  pose proof PI_RGT_0 as Hpi. unfold degrees.
  assert (E : a * 180 / PI * PI = a * 180) by (field; lra).
  set (k := a * 180 / PI) in *. split; intros; nra.
Qed.

(** The angle, in degrees, of a direction (dx, dy) other than (0, 0), in
    terms of A = degrees(atan(dy/dx)). *)
Lemma angle_cases dy dx :
  let ang := degrees (atan2 dy dx) in
  let A := degrees (atan (dy / dx)) in
  (0 < dx -> ang = A)
  /\ (dx < 0 -> 0 <= dy -> ang = A + 180 /\ A <= 0)
  /\ (dx < 0 -> dy < 0 -> ang = A - 180 /\ 0 < A)
  /\ (dx = 0 -> 0 < dy -> ang = 90)
  /\ (dx = 0 -> dy < 0 -> ang = -90).
Proof.
  cbv zeta. unfold atan2.
  pose proof degrees_PI as HP. pose proof PI_RGT_0 as Hpi.
  split; [|split; [|split; [|split]]].
  - intros Hx. destruct_Rdec; first [reflexivity|exfalso; lra].
  - intros Hx Hy.
    assert (S : degrees (atan (dy / dx)) <= 0).
    { apply degrees_sign, atan_nonpos.
      unfold Rdiv. pose proof (Rinv_lt_0_compat _ Hx). nra. }
    destruct_Rdec; try (exfalso; lra);
      (rewrite degrees_add, HP; split; [reflexivity|exact S]).
  - intros Hx Hy.
    assert (S : 0 < degrees (atan (dy / dx))).
    { apply degrees_sign, atan_pos.
      unfold Rdiv. pose proof (Rinv_lt_0_compat _ Hx). nra. }
    destruct_Rdec; try (exfalso; lra);
      (unfold Rminus; rewrite degrees_add, degrees_opp, HP;
       split; [reflexivity|exact S]).
  - intros Hx Hy. destruct_Rdec; try (exfalso; lra);
      (unfold degrees; field; lra).
  - intros Hx Hy. destruct_Rdec; try (exfalso; lra);
      (unfold degrees; field; lra).
Qed.

Lemma classify_spec x1 y1 x2 y2 :
  let ang := degrees (atan2 (y2 - y1) (x2 - x1)) in
  (classify x1 y1 x2 y2 = Horizontal <-> Rabs ang < 20)
  /\ (classify x1 y1 x2 y2 = Vertical <->
      20 <= Rabs ang /\ Rabs (Rabs ang - 90) < 20)
  /\ (classify x1 y1 x2 y2 = Dropped <->
      20 <= Rabs ang /\ 20 <= Rabs (Rabs ang - 90)).
Proof.
  cbv zeta. unfold classify.
  set (ang := degrees (atan2 (y2 - y1) (x2 - x1))).
  unfold Rltb. destruct_Rdec; (split; [|split]); split; intros H;
    first [discriminate H|reflexivity|lra].
Qed.

(** X16: the sorting of the detected line segments in [detect_quad_lsd]
    depends on the order of a segment's end points.  A segment (with
    distinct end points) that is taken as horizontal is dropped when its
    end points are listed the other way round, since its angle is then
    beyond 160 degrees; a vertical one stays vertical. *)
Theorem lsd_sorting_depends_on_direction :
  forall (x1 y1 x2 y2 : R),
    (x1, y1) <> (x2, y2) ->
    (classify x1 y1 x2 y2 = Horizontal -> classify x2 y2 x1 y1 = Dropped)
    /\ (classify x1 y1 x2 y2 = Vertical -> classify x2 y2 x1 y1 = Vertical)
    /\ (classify x1 y1 x2 y2 = Horizontal -> x1 < x2).
Proof.
  intros x1 y1 x2 y2 Hne.
  destruct (classify_spec x1 y1 x2 y2) as (Hh & Hv & _).
  destruct (classify_spec x2 y2 x1 y1) as (Hh' & Hv' & Hd').
  cbv zeta in *.
  destruct (angle_cases (y2 - y1) (x2 - x1)) as (C1 & C2 & C3 & C4 & C5).
  destruct (angle_cases (y1 - y2) (x1 - x2)) as (D1 & D2 & D3 & D4 & D5).
  cbv zeta in *.
  pose proof (degrees_atan_range ((y2 - y1) / (x2 - x1))) as RA.
  assert (EA : x1 <> x2 -> (y1 - y2) / (x1 - x2) = (y2 - y1) / (x2 - x1))
    by (intros; field; split; lra).
  set (ang := degrees (atan2 (y2 - y1) (x2 - x1))) in *.
  set (ang' := degrees (atan2 (y1 - y2) (x1 - x2))) in *.
  set (A := degrees (atan ((y2 - y1) / (x2 - x1)))) in *.
  assert (Hcases :
            (x1 < x2 /\ y2 <= y1 /\ ang = A /\ ang' = A + 180 /\ A <= 0)
            \/ (x1 < x2 /\ y1 < y2 /\ ang = A /\ ang' = A - 180 /\ 0 < A)
            \/ (x2 < x1 /\ y1 <= y2 /\ ang = A + 180 /\ ang' = A /\ A <= 0)
            \/ (x2 < x1 /\ y2 < y1 /\ ang = A - 180 /\ ang' = A /\ 0 < A)
            \/ (ang = 90 /\ ang' = -90) \/ (ang = -90 /\ ang' = 90)).
  { destruct (Rtotal_order x1 x2) as [Hx|[Hx|Hx]].
    - assert (Hx2 : x1 <> x2) by lra. specialize (EA Hx2).
      destruct (Rle_dec y2 y1) as [Hy|Hy].
      + left. destruct (D2 ltac:(lra) ltac:(lra)) as [Q1 Q2].
        rewrite EA in Q1, Q2. fold A in Q1, Q2.
        repeat split; try lra; try (apply C1; lra).
      + right. left. destruct (D3 ltac:(lra) ltac:(lra)) as [Q1 Q2].
        rewrite EA in Q1, Q2. fold A in Q1, Q2.
        repeat split; try lra; try (apply C1; lra).
    - subst x2.
      destruct (Rtotal_order y1 y2) as [Hy|[Hy|Hy]].
      + right. right. right. right. left.
        split; [apply C4; lra|apply D5; lra].
      + subst y2. contradiction Hne. reflexivity.
      + right. right. right. right. right.
        split; [apply C5; lra|apply D4; lra].
    - assert (Hx2 : x1 <> x2) by lra. specialize (EA Hx2).
      destruct (Rle_dec y1 y2) as [Hy|Hy].
      + right. right. left. destruct (C2 ltac:(lra) ltac:(lra)) as [Q1 Q2].
        fold A in Q1, Q2.
        repeat split; try lra;
          try (unfold A; rewrite <- EA; apply D1; lra).
      + right. right. right. left.
        destruct (C3 ltac:(lra) ltac:(lra)) as [Q1 Q2]. fold A in Q1, Q2.
        repeat split; try lra;
          try (unfold A; rewrite <- EA; apply D1; lra). }
  clearbody ang ang' A.
  split; [|split].
  - intros H. apply Hh in H. apply Hd'. clear - H Hcases RA.
    destruct_Rabs; destruct Hcases as [K|[K|[K|[K|[K|K]]]]]; lra.
  - intros H. apply Hv in H. apply Hv'. clear - H Hcases RA.
    destruct_Rabs; destruct Hcases as [K|[K|[K|[K|[K|K]]]]]; lra.
  - intros H. apply Hh in H. clear - H Hcases RA.
    destruct_Rabs; destruct Hcases as [K|[K|[K|[K|[K|K]]]]]; lra.
Qed.
End LineFacts.

Section BandFacts.
Import Rows Band.
Local Open Scope Z_scope.

Lemma max_of_spec l : forall d,
  In (max_of d l) (d :: l) /\ forall z, In z (d :: l) -> z <= max_of d l.
Proof.
  unfold max_of. induction l as [|a t IH]; intros d; simpl.
  - split; [auto|]. intros z [E|[]]. lia.
  - destruct (IH (Z.max d a)) as [Hin Hle]. split.
    + destruct Hin as [E|Hin]; [|auto].
      rewrite <- E. destruct (Z.max_spec d a) as [[_ ->]|[_ ->]]; auto.
    + pose proof (Hle _ (or_introl eq_refl)) as H0.
      intros z [E|[E|Hz]]; [lia|lia|].
      apply Hle. right. exact Hz.
Qed.

Lemma min_of_spec l : forall d,
  In (min_of d l) (d :: l) /\ forall z, In z (d :: l) -> min_of d l <= z.
Proof.
  unfold min_of. induction l as [|a t IH]; intros d; simpl.
  - split; [auto|]. intros z [E|[]]. lia.
  - destruct (IH (Z.min d a)) as [Hin Hle]. split.
    + destruct Hin as [E|Hin]; [|auto].
      rewrite <- E. destruct (Z.min_spec d a) as [[_ ->]|[_ ->]]; auto.
    + pose proof (Hle _ (or_introl eq_refl)) as H0.
      intros z [E|[E|Hz]]; [lia|lia|].
      apply Hle. right. exact Hz.
Qed.

(** The extremes that the function takes over the accepted squares. *)
Lemma band_extremes (sq : list bbox) x0 y0 w0 h0 rest :
  sq = (x0, y0, w0, h0) :: rest ->
  let xs := map (fun '(x, _, _, _) => x) rest in
  let ys := map (fun '(_, y, _, _) => y) rest in
  let bs := map (fun '(_, y, _, h) => y + h) rest in
  (forall x y w h, In (x, y, w, h) sq ->
                   min_of x0 xs <= x <= max_of x0 xs /\
                   min_of y0 ys <= y /\ y + h <= max_of (y0 + h0) bs)
  /\ (exists y w h, In (max_of x0 xs, y, w, h) sq)
  /\ (exists y w h, In (min_of x0 xs, y, w, h) sq)
  /\ (exists x w h, In (x, min_of y0 ys, w, h) sq)
  /\ (exists x y w h, In (x, y, w, h) sq /\ y + h = max_of (y0 + h0) bs).
Proof.
  intros -> xs ys bs.
  destruct (max_of_spec xs x0) as [X1 X2].
  destruct (min_of_spec xs x0) as [X3 X4].
  destruct (min_of_spec ys y0) as [Y3 Y4].
  destruct (max_of_spec bs (y0 + h0)) as [B1 B2].
  assert (Pick : forall (f : bbox -> Z) z,
             In z (f (x0, y0, w0, h0) :: map f rest) ->
             exists b, In b ((x0, y0, w0, h0) :: rest) /\ f b = z).
  { intros f z [<-|Hz]; [eexists; split; [left; reflexivity|reflexivity]|].
    apply in_map_iff in Hz. destruct Hz as (b & <- & Hb).
    exists b. split; [right; exact Hb|reflexivity]. }
  split; [|split; [|split; [|split]]].
  - intros x y w h Hin.
    assert (Hx : In x (x0 :: xs)).
    { destruct Hin as [E|Hin]; [injection E as <- <- <- <-; left; reflexivity|].
      right. unfold xs. apply in_map_iff. exists (x, y, w, h). auto. }
    assert (Hy : In y (y0 :: ys)).
    { destruct Hin as [E|Hin]; [injection E as <- <- <- <-; left; reflexivity|].
      right. unfold ys. apply in_map_iff. exists (x, y, w, h). auto. }
    assert (Hb : In (y + h) ((y0 + h0) :: bs)).
    { destruct Hin as [E|Hin]; [injection E as <- <- <- <-; left; reflexivity|].
      right. unfold bs. apply in_map_iff. exists (x, y, w, h). auto. }
    specialize (X2 _ Hx). specialize (X4 _ Hx). specialize (Y4 _ Hy).
    specialize (B2 _ Hb). lia.
  - destruct (Pick (fun '(x, _, _, _) => x) _ X1) as ([[[x y] w] h] & Hb & E).
    simpl in E. subst x. eauto.
  - destruct (Pick (fun '(x, _, _, _) => x) _ X3) as ([[[x y] w] h] & Hb & E).
    simpl in E. subst x. eauto.
  - destruct (Pick (fun '(_, y, _, _) => y) _ Y3) as ([[[x y] w] h] & Hb & E).
    simpl in E. subst y. eauto.
  - destruct (Pick (fun '(_, y, _, h) => y + h) _ B1)
      as ([[[x y] w] h] & Hb & E).
    simpl in E. exists x, y, w, h. auto.
Qed.

Lemma squares_inside W H cnts b :
  Forall (fun c => inside W H (rect c)) cnts ->
  In b (map rect (filter (is_square W H) cnts)) -> inside W H b.
Proof.
  intros HF Hb. apply in_map_iff in Hb. destruct Hb as (c & <- & Hc).
  apply filter_In in Hc. destruct Hc as [Hc _].
  rewrite Forall_forall in HF. apply HF. exact Hc.
Qed.

(** X17: the band that [find_answer_band] returns lies inside the image
    (for contours whose bounding rectangles do), with a width and a
    height that are not negative; and it reaches every accepted square:
    its left edge, its top edge and its last row lie in the band. *)
Theorem answer_band_inside_image :
  forall (W H : Z) (cnts : list contour),
    0 < W -> 0 < H ->
    Forall (fun c => inside W H (rect c)) cnts ->
    let '(bx, by_, bw, bh) := find_answer_band W H cnts in
    0 <= bx /\ 0 <= by_ /\ 0 <= bw /\ 0 <= bh /\
    bx + bw <= W /\ by_ + bh <= H /\
    forall c x y w h,
      In c cnts -> is_square W H c = true -> rect c = (x, y, w, h) ->
      bx <= x <= bx + bw /\ by_ <= y /\ y + h - 1 <= by_ + bh.
Proof.
  intros W H cnts HW HH HF. unfold find_answer_band.
  assert (Hin : forall b, In b (map rect (filter (is_square W H) cnts)) ->
                          inside W H b)
    by (intros b; apply squares_inside; exact HF).
  destruct (map rect (filter (is_square W H) cnts))
    as [|[[[x0 y0] w0] h0] rest] eqn:Esq.
  - cbv beta iota.
    do 6 (split; [Z.to_euclidean_division_equations; lia|]).
    intros c x y w h Hc Hs Hr.
    assert (Hq : In (rect c) (map rect (filter (is_square W H) cnts))).
    { apply in_map, filter_In. auto. }
    rewrite Esq in Hq. contradiction.
  - cbv zeta.
    destruct (@band_extremes _ x0 y0 w0 h0 rest eq_refl)
      as (Hall & (ya & wa & ha & Ha) & (yb & wb & hb & Hb)
          & (xc & wc & hc & Hc) & (xd & yd & wd & hd & Hd & Ed)).
    cbv zeta in *.
    set (xs := map (fun '(x, _, _, _) => x) rest) in *.
    set (ys := map (fun '(_, y, _, _) => y) rest) in *.
    set (bs := map (fun '(_, y, _, h) => y + h) rest) in *.
    pose proof (Hin _ Ha) as Ia. pose proof (Hin _ Hb) as Ib.
    pose proof (Hin _ Hc) as Ic. pose proof (Hin _ Hd) as Id.
    unfold inside in Ia, Ib, Ic, Id.
    destruct (Hall _ _ _ _ Ha) as (A1 & A2 & A3).
    destruct (Hall _ _ _ _ Hc) as (C1 & C2 & C3).
    cbv beta iota. do 6 (split; [lia|]).
    intros c x y w h Hcn Hs Hr.
    assert (Hq : In (rect c) (map rect (filter (is_square W H) cnts))).
    { apply in_map, filter_In. auto. }
    rewrite Esq, Hr in Hq.
    pose proof (Hin _ Hq) as Iq. unfold inside in Iq.
    destruct (Hall _ _ _ _ Hq) as (Q1 & Q2 & Q3). lia.
Qed.

(** X18: the right edge of the band is taken from the left edges of the
    squares ([max(x) + 40], not [max(x + w) + 40]).  So an accepted square
    that is the rightmost one and more than 41 pixels wide sticks out of
    the band on the right, unless the image border is nearer. *)
Theorem answer_band_cuts_wide_square :
  forall (W H : Z) (cnts : list contour) (c : contour) (x y w h : Z),
    In c cnts -> is_square W H c = true -> rect c = (x, y, w, h) ->
    (forall c' x' y' w' h',
        In c' cnts -> is_square W H c' = true ->
        rect c' = (x', y', w', h') -> x' <= x) ->
    41 < w -> x + 40 <= W - 1 ->
    let '(bx, by_, bw, bh) := find_answer_band W H cnts in
    bx + bw = x + 40 /\ bx + bw < x + w - 1.
Proof.
  intros W H cnts c x y w h Hc Hs Hr Hmax Hw Hx. unfold find_answer_band.
  assert (Hq : In (x, y, w, h) (map rect (filter (is_square W H) cnts))).
  { rewrite <- Hr. apply in_map, filter_In. auto. }
  assert (Back : forall x' y' w' h',
             In (x', y', w', h') (map rect (filter (is_square W H) cnts)) ->
             x' <= x).
  { intros x' y' w' h' Hb. apply in_map_iff in Hb.
    destruct Hb as (c' & Hr' & Hc'). apply filter_In in Hc'.
    destruct Hc' as [Hc1 Hc2]. exact (Hmax _ _ _ _ _ Hc1 Hc2 Hr'). }
  destruct (map rect (filter (is_square W H) cnts))
    as [|[[[x0 y0] w0] h0] rest] eqn:Esq; [contradiction|].
  cbv zeta.
  destruct (@band_extremes _ x0 y0 w0 h0 rest eq_refl)
    as (Hall & (ya & wa & ha & Ha) & _).
  cbv zeta in *.
  set (xs := map (fun '(x, _, _, _) => x) rest) in *.
  destruct (Hall _ _ _ _ Hq) as ([_ Q1] & _).
  pose proof (Back _ _ _ _ Ha) as Q2.
  lia.
Qed.
End BandFacts.

(** One square of 60 x 60 pixels at (500, 300) in a 1000 x 1400 image:
    the band is (460, 260, 80, 140), within the image, and ends at column
    540 while the square reaches column 559. *)
Lemma answer_band_inside_image_witness :
  Band.find_answer_band 1000 1400
    [ {| Band.rect := (500, 300, 60, 60)%Z; Band.approx_len := 4 |} ]
  = (460, 260, 80, 140)%Z
  /\ (460 + 80 <= 1000 /\ 260 + 140 <= 1400)%Z.
Proof.
  split; [reflexivity|].
  pose proof (@answer_band_inside_image 1000 1400
                [ {| Band.rect := (500, 300, 60, 60)%Z;
                     Band.approx_len := 4 |} ]
                ltac:(lia) ltac:(lia)) as T.
  change (Band.find_answer_band 1000 1400
            [ {| Band.rect := (500, 300, 60, 60)%Z; Band.approx_len := 4 |} ])
    with (460, 260, 80, 140)%Z in T.
  destruct T as (_ & _ & _ & _ & T1 & T2 & _); [|split; assumption].
  repeat constructor; simpl; lia.
Defined.

Lemma answer_band_cuts_wide_square_witness :
  Band.find_answer_band 1000 1400
    [ {| Band.rect := (500, 300, 60, 60)%Z; Band.approx_len := 4 |} ]
  = (460, 260, 80, 140)%Z
  /\ (460 + 80 < 500 + 60 - 1)%Z.
Proof.
  split; [reflexivity|].
  pose proof (@answer_band_cuts_wide_square 1000 1400
                [ {| Band.rect := (500, 300, 60, 60)%Z;
                     Band.approx_len := 4 |} ]
                {| Band.rect := (500, 300, 60, 60)%Z; Band.approx_len := 4 |}
                500 300 60 60 (or_introl eq_refl) eq_refl eq_refl) as T.
  change (Band.find_answer_band 1000 1400
            [ {| Band.rect := (500, 300, 60, 60)%Z; Band.approx_len := 4 |} ])
    with (460, 260, 80, 140)%Z in T.
  apply T; try lia.
  intros c' x' y' w' h' [<-|[]] _ E. injection E as <- _ _ _. lia.
Defined.

Section DedupeFacts.
Import Rows Band.
Local Open Scope Z_scope.
Context {Quad : Type} (boundingRect : Quad -> bbox).

Lemma key_eqb_eq a b : key_eqb a b = true <-> a = b.
Proof.
  destruct a as [[[a1 a2] a3] a4]. destruct b as [[[b1 b2] b3] b4].
  unfold key_eqb. rewrite !andb_true_iff, !Z.eqb_eq.
  split; [intros [[[-> ->] ->] ->]; reflexivity|].
  intros E. injection E as -> -> -> ->. auto.
Qed.

Lemma seen_test k seen :
  existsb (key_eqb k) seen = true <-> In k seen.
Proof.
  rewrite existsb_exists. split.
  - intros (k' & Hin & E). apply key_eqb_eq in E. subst. exact Hin.
  - intros Hin. exists k. split; [exact Hin|apply key_eqb_eq; reflexivity].
Qed.

Lemma subseq_refl_nil (A : Type) (l : list A) : subseq [] l.
Proof. induction l; constructor; assumption. Qed.

(** The loop, from any state whose [seen] holds the keys of [uniq]. *)
Lemma dedupe_fold quads :
  forall uniq seen,
    NoDup seen ->
    exists u2,
      fold_left (dedupe_step boundingRect) quads (uniq, seen)
      = (uniq ++ u2,
         rev (map (fun q => key_of (boundingRect q)) u2) ++ seen) /\
      subseq u2 quads /\
      NoDup (rev (map (fun q => key_of (boundingRect q)) u2) ++ seen) /\
      (forall q, In q quads ->
                 In (key_of (boundingRect q))
                    (rev (map (fun q => key_of (boundingRect q)) u2) ++ seen)) /\
      (forall q rest, quads = q :: rest ->
                      ~ In (key_of (boundingRect q)) seen ->
                      hd_error u2 = Some q).
Proof.
  induction quads as [|q t IH]; intros uniq seen HN.
  - exists []. simpl. rewrite app_nil_r.
    repeat split; try constructor; try assumption; try contradiction.
    intros q rest E. discriminate E.
  - change (fold_left (dedupe_step boundingRect) (q :: t) (uniq, seen))
      with (fold_left (dedupe_step boundingRect) t
              (if existsb (key_eqb (key_of (boundingRect q))) seen
               then (uniq, seen)
               else (uniq ++ [q], key_of (boundingRect q) :: seen))).
    destruct (existsb (key_eqb (key_of (boundingRect q))) seen) eqn:E.
    + apply seen_test in E.
      destruct (IH uniq seen HN) as (u2 & F & S & N & C & _).
      exists u2. rewrite F. split; [reflexivity|].
      split; [constructor; exact S|]. split; [exact N|]. split.
      * intros q' [<-|Hq']; [apply in_or_app; right; exact E|apply C, Hq'].
      * intros q' rest Eq Hn. injection Eq as <- <-. contradiction.
    + assert (Hn : ~ In (key_of (boundingRect q)) seen).
      { intros Hin. apply seen_test in Hin. congruence. }
      destruct (IH (uniq ++ [q]) (key_of (boundingRect q) :: seen))
        as (u2 & F & S & N & C & _); [constructor; assumption|].
      exists (q :: u2).
      assert (E1 : (uniq ++ [q]) ++ u2 = uniq ++ q :: u2)
        by (rewrite <- app_assoc; reflexivity).
      assert (E2 : rev (map (fun q => key_of (boundingRect q)) (q :: u2))
                   ++ seen
                   = rev (map (fun q => key_of (boundingRect q)) u2)
                     ++ key_of (boundingRect q) :: seen)
        by (simpl; rewrite <- app_assoc; reflexivity).
      rewrite F, E1, E2.
      split; [reflexivity|]. split; [constructor; exact S|].
      split; [exact N|]. split.
      * intros q' [<-|Hq'];
          [apply in_or_app; right; left; reflexivity|apply C, Hq'].
      * intros q' rest Eq _. injection Eq as <- <-. reflexivity.
Qed.

(** X19: the duplicate filter of [candidate_quads_from_mask_and_edges]
    keeps one quadrilateral for each key (the bounding rectangle divided
    by 20, component by component): the result is the candidate list with
    some entries left out, the order kept and the first candidate always
    kept; no two results have the same key; and every candidate has its
    key represented in the result. *)
Theorem dedupe_keeps_one_per_key :
  forall (quads : list Quad),
    let keyf := fun q => key_of (boundingRect q) in
    let uniq := dedupe boundingRect quads in
    subseq uniq quads
    /\ NoDup (map keyf uniq)
    /\ (forall q, In q quads ->
                  exists q', In q' uniq /\ keyf q' = keyf q)
    /\ hd_error uniq = hd_error quads.
Proof.
  intros quads keyf uniq. unfold uniq, dedupe.
  destruct (@dedupe_fold quads [] [] (NoDup_nil _))
    as (u2 & F & S & N & C & Hd).
  rewrite F. simpl fst. rewrite app_nil_r in N, C.
  split; [exact S|]. split; [|split].
  - apply NoDup_rev in N. rewrite rev_involutive in N. exact N.
  - intros q Hq. specialize (C q Hq). apply in_rev in C.
    apply in_map_iff in C. destruct C as (q' & E & Hq'). eauto.
  - destruct quads as [|q rest].
    + inversion S. reflexivity.
    + apply (Hd q rest eq_refl). intros [].
Qed.
End DedupeFacts.

Section ArgmaxFacts.
Import Deskew.
Local Open Scope Q_scope.

(** [argmax_from] returns the first position of the greatest value. *)
Lemma argmax_from_first_max (t : list Q) :
  forall (pre : list Q) (b : Q) (besti : nat),
    nth_error (pre ++ t) besti = Some b ->
    (besti < length pre)%nat ->
    (forall j q, nth_error pre j = Some q ->
                 q <= b /\ ((j < besti)%nat -> q < b)) ->
    let i := argmax_from b besti (length pre) t in
    exists p,
      nth_error (pre ++ t) i = Some p /\
      forall j q, nth_error (pre ++ t) j = Some q ->
                  q <= p /\ ((j < i)%nat -> q < p).
Proof.
  induction t as [|x t IH]; intros pre b besti Hb Hlt Hinv; simpl.
  - exists b. rewrite app_nil_r in *. split; [exact Hb|exact Hinv].
  - replace (pre ++ x :: t) with ((pre ++ [x]) ++ t) in *
      by (rewrite <- app_assoc; reflexivity).
    replace (S (length pre)) with (length (pre ++ [x]))
      by (rewrite length_app; simpl; lia).
    destruct (Qle_bool x b) eqn:E; cbn [negb].
    + apply Qle_bool_iff in E.
      apply IH; [exact Hb|rewrite length_app; simpl; lia|].
      intros j q Hj.
      destruct (Nat.lt_ge_cases j (length pre)) as [Hl|Hl].
      * rewrite nth_error_app1 in Hj by exact Hl. apply Hinv, Hj.
      * rewrite nth_error_app2 in Hj by exact Hl.
        destruct (j - length pre)%nat as [|k] eqn:Ek;
          [|destruct k; discriminate Hj].
        injection Hj as <-. split; [exact E|]. intros Hjb. lia.
    + assert (Hx : b < x).
      { apply Qnot_le_lt. intros Hle. apply Qle_bool_iff in Hle. congruence. }
      apply IH.
      * rewrite nth_error_app1 by (rewrite length_app; simpl; lia).
        rewrite nth_error_app2 by lia.
        rewrite Nat.sub_diag. reflexivity.
      * rewrite length_app. simpl. lia.
      * intros j q Hj.
        destruct (Nat.lt_ge_cases j (length pre)) as [Hl|Hl].
        -- rewrite nth_error_app1 in Hj by exact Hl.
           destruct (Hinv j q Hj) as [Hq _].
           split; [apply Qlt_le_weak|intros _];
             eapply Qle_lt_trans; eassumption.
        -- rewrite nth_error_app2 in Hj by exact Hl.
           destruct (j - length pre)%nat as [|k] eqn:Ek;
             [|destruct k; discriminate Hj].
           injection Hj as <-. split; [apply Qle_refl|]. intros Hjb. lia.
Qed.

Lemma argmax_first_max (x : Q) (t : list Q) :
  let i := argmax_from x 0 1 t in
  exists p,
    nth_error (x :: t) i = Some p /\
    forall j q, nth_error (x :: t) j = Some q ->
                q <= p /\ ((j < i)%nat -> q < p).
Proof.
  apply (@argmax_from_first_max t [x] x 0%nat eq_refl).
  - simpl. lia.
  - intros j q Hj. destruct j as [|j]; [|destruct j; discriminate Hj].
    injection Hj as <-. split; [apply Qle_refl|]. intros Hjb. lia.
Qed.
End ArgmaxFacts.

Section DeskewFacts.
Import Deskew.
Local Open Scope Z_scope.

Lemma thetas_length r : 0 <= r -> length (thetas r) = Z.to_nat (2 * r + 1).
Proof. intros. unfold thetas. rewrite length_map, length_seq. reflexivity. Qed.

Lemma thetas_nth r j :
  (j < Z.to_nat (2 * r + 1))%nat ->
  nth_error (thetas r) j = Some (- r + Z.of_nat j).
Proof.
  intros Hj. unfold thetas.
  rewrite nth_error_map, nth_error_seq.
  destruct (Nat.ltb_spec j (Z.to_nat (2 * r + 1))) as [_|Hge]; [|lia].
  reflexivity.
Qed.

(** X20: for a non-negative [angle_range], [radon_deskew] returns the
    image rotated by [-best], where [best] is a whole number of degrees
    between [-angle_range] and [angle_range] whose score (the variance of
    the projection) is the greatest on that grid, and the smallest such
    angle when several attain it. *)
Theorem radon_deskew_picks_best_angle :
  forall (Image : Type) (cv : cv_ops Image) (gray : Image) (angle_range : Z),
    0 <= angle_range ->
    exists best,
      radon_deskew cv gray angle_range
      = Py.Ok (sk_rotate cv gray (- best), best) /\
      - angle_range <= best <= angle_range /\
      forall t, - angle_range <= t <= angle_range ->
                (radon_var cv gray t <= radon_var cv gray best)%Q /\
                (t < best -> (radon_var cv gray t < radon_var cv gray best)%Q).
Proof.
  intros Image cv gray r Hr. unfold radon_deskew.
  destruct (r <? 0) eqn:E; [apply Z.ltb_lt in E; lia|]. cbv zeta.
  assert (Hn : forall j, (j < Z.to_nat (2 * r + 1))%nat ->
                nth_error (map (radon_var cv gray) (thetas r)) j
                = Some (radon_var cv gray (- r + Z.of_nat j))).
  { intros j Hj. rewrite nth_error_map, thetas_nth by exact Hj. reflexivity. }
  assert (Hlen : length (map (radon_var cv gray) (thetas r))
                 = Z.to_nat (2 * r + 1))
    by (rewrite length_map; apply thetas_length; exact Hr).
  destruct (map (radon_var cv gray) (thetas r)) as [|s0 scores] eqn:Es.
  { cbn [length] in Hlen. lia. }
  destruct (argmax_first_max s0 scores) as (p & Hp & Hmax).
  cbv zeta in Hp, Hmax.
  set (i := argmax_from s0 0 1 scores) in *.
  assert (Hi : (i < Z.to_nat (2 * r + 1))%nat).
  { rewrite <- Hlen. apply nth_error_Some. rewrite Hp. discriminate. }
  exists (- r + Z.of_nat i).
  assert (Eb : nth i (thetas r) 0 = - r + Z.of_nat i).
  { apply nth_error_nth. apply thetas_nth. exact Hi. }
  rewrite Eb. split; [reflexivity|]. split; [lia|].
  rewrite (Hn i Hi) in Hp. injection Hp as <-.
  intros t Ht.
  assert (Hj : (Z.to_nat (t + r) < Z.to_nat (2 * r + 1))%nat) by lia.
  pose proof (Hn _ Hj) as Ht'.
  replace (- r + Z.of_nat (Z.to_nat (t + r))) with t in Ht' by lia.
  destruct (Hmax _ _ Ht') as [M1 M2].
  split; [exact M1|]. intros Hlt. apply M2. lia.
Qed.
End DeskewFacts.

(** On the page tilted by 3 degrees the search over -15..15 finds 3. *)
Lemma radon_deskew_picks_best_angle_witness :
  Deskew.radon_deskew Deskew.ops_tilted tt 15 = Py.Ok (tt, 3%Z)
  /\ exists best,
      Deskew.radon_deskew Deskew.ops_tilted tt 15
      = Py.Ok (Deskew.sk_rotate Deskew.ops_tilted tt (- best), best) /\
      (- 15 <= best <= 15)%Z.
Proof.
  split; [vm_compute; reflexivity|].
  destruct (@radon_deskew_picks_best_angle unit Deskew.ops_tilted tt 15
              ltac:(lia)) as (best & E & R & _).
  exists best. split; [exact E|exact R].
Defined.

Section BestWarpFacts.
Import BestWarp.
Local Open Scope Q_scope.
Context {Image Quad Warp : Type} (cv : cv_ops Image Quad Warp).

(** *** The stable sort *)

Lemma insert_desc_perm (key : Quad -> Q) x l :
  Permutation (insert_desc key x l) (x :: l).
Proof.
  induction l as [|y t IH]; simpl; [reflexivity|].
  destruct (Qle_bool (key y) (key x)); [reflexivity|].
  rewrite IH. apply perm_swap.
Qed.

Lemma sort_desc_perm (key : Quad -> Q) l : Permutation (sort_desc key l) l.
Proof.
  induction l as [|x t IH]; simpl; [reflexivity|].
  rewrite insert_desc_perm. constructor. exact IH.
Qed.

Lemma insert_desc_sorted (key : Quad -> Q) x l :
  StronglySorted (fun a b => key b <= key a) l ->
  StronglySorted (fun a b => key b <= key a) (insert_desc key x l).
Proof.
  induction 1 as [|y t HS IH HF]; simpl.
  - constructor; constructor.
  - destruct (Qle_bool (key y) (key x)) eqn:E.
    + apply Qle_bool_iff in E. constructor.
      * constructor; assumption.
      * constructor; [exact E|].
        eapply Forall_impl; [|exact HF].
        intros a Ha. simpl in *. eapply Qle_trans; eassumption.
    + assert (Hx : key x <= key y).
      { apply Qlt_le_weak, Qnot_le_lt. intros Hle.
        apply Qle_bool_iff in Hle. congruence. }
      constructor; [exact IH|].
      rewrite (Permutation_Forall_iff (insert_desc_perm key x t))
        || (eapply Permutation_Forall;
            [apply Permutation_sym, insert_desc_perm|]).
      constructor; assumption.
Qed.

Lemma sort_desc_sorted (key : Quad -> Q) l :
  StronglySorted (fun a b => key b <= key a) (sort_desc key l).
Proof.
  induction l as [|x t IH]; simpl; [constructor|].
  apply insert_desc_sorted, IH.
Qed.

Lemma sorted_firstn_skipn (R : Quad -> Quad -> Prop) l :
  StronglySorted R l ->
  forall n a b, In a (firstn n l) -> In b (skipn n l) -> R a b.
Proof.
  induction 1 as [|x t HS IH HF]; intros n a b Ha Hb.
  - destruct n; contradiction.
  - destruct n as [|n]; [contradiction|]. simpl in Ha, Hb.
    destruct Ha as [<-|Ha].
    + rewrite Forall_forall in HF. apply HF.
      rewrite <- (firstn_skipn n t). apply in_or_app. right. exact Hb.
    + exact (IH n a b Ha Hb).
Qed.

(** *** The choice among the warps *)

Lemma pick_fold rgb top :
  forall (b : option Quad) (v : Q),
    let r := fold_left (pick_step cv rgb) top (b, v) in
    v <= snd r /\
    (forall q, In q top -> total_of cv rgb q <= snd r) /\
    (r = (b, v)
     \/ exists q, In q top /\ fst r = Some q /\
                  snd r = total_of cv rgb q /\ v < snd r).
Proof.
  induction top as [|x t IH]; intros b v; simpl.
  - split; [apply Qle_refl|]. split; [intros q []|left; reflexivity].
  - assert (Estep : pick_step cv rgb (b, v) x
                    = if negb (Qle_bool (total_of cv rgb x) v)
                      then (Some x, total_of cv rgb x) else (b, v))
      by reflexivity.
    rewrite Estep. clear Estep.
    destruct (Qle_bool (total_of cv rgb x) v) eqn:E; cbn [negb].
    + apply Qle_bool_iff in E.
      destruct (IH b v) as (L & A & C). cbv zeta in L, A, C.
      split; [exact L|]. split.
      * intros q [<-|Hq]; [eapply Qle_trans; eassumption|apply A, Hq].
      * destruct C as [C|(q & Hq & C)]; [left; exact C|].
        right. exists q. split; [right; exact Hq|exact C].
    + assert (Hx : v < total_of cv rgb x).
      { apply Qnot_le_lt. intros Hle. apply Qle_bool_iff in Hle. congruence. }
      destruct (IH (Some x) (total_of cv rgb x)) as (L & A & C).
      cbv zeta in L, A, C.
      split; [apply Qlt_le_weak; eapply Qlt_le_trans; eassumption|]. split.
      * intros q [<-|Hq]; [exact L|apply A, Hq].
      * right. destruct C as [C|(q & Hq & F & S & G)].
        -- exists x. rewrite C. cbn [fst snd].
           split; [left; reflexivity|]. auto.
        -- exists q. split; [right; exact Hq|].
           split; [exact F|]. split; [exact S|].
           eapply Qlt_trans; eassumption.
Qed.

(** X21: [best_warp] passes the input through when there is no
    candidate.  Otherwise it warps only the (up to) four candidates with
    the best layout scores and returns the warp of the one among them
    whose total (sharpness weighted by the layout score) is the greatest,
    a total that exceeds -1e9; when no total does, unpacking [best = None]
    raises [TypeError].  So it never fails when some of those totals
    exceeds -1e9, as all do when sharpness and score are not negative. *)
Theorem best_warp_picks_sharpest_of_top_four :
  forall (rgb : Image),
    (candidates cv rgb = [] -> best_warp cv rgb = NoQuad)
    /\ (candidates cv rgb <> [] ->
        exists top rest,
          Permutation (top ++ rest) (candidates cv rgb) /\
          length top = Nat.min 4 (length (candidates cv rgb)) /\
          (forall a b, In a top -> In b rest ->
                       layout_score cv rgb b <= layout_score cv rgb a) /\
          ((exists q,
               best_warp cv rgb = Multiquad q (warp_of cv rgb q) /\
               In q top /\
               inject_Z (- 1000000000) < total_of cv rgb q /\
               forall q', In q' top ->
                          total_of cv rgb q' <= total_of cv rgb q)
           \/ (best_warp cv rgb = TypeError /\
               forall q', In q' top ->
                          total_of cv rgb q' <= inject_Z (- 1000000000)))).
Proof.
  intros rgb. unfold best_warp. split.
  - intros ->. reflexivity.
  - intros Hne.
    destruct (candidates cv rgb) as [|c0 cs] eqn:Ec; [congruence|].
    rewrite <- Ec in *. clear Hne. cbv zeta.
    set (sorted := sort_desc (layout_score cv rgb) (candidates cv rgb)).
    exists (firstn 4 sorted), (skipn 4 sorted).
    split; [rewrite firstn_skipn; apply sort_desc_perm|].
    split.
    { rewrite length_firstn. unfold sorted.
      rewrite (Permutation_length (sort_desc_perm _ _)). reflexivity. }
    split.
    { intros a b Ha Hb.
      exact (sorted_firstn_skipn (sort_desc_sorted _ _) 4 a b Ha Hb). }
    destruct (pick_fold rgb (firstn 4 sorted) None
                        (inject_Z (- 1000000000))) as (_ & A & C).
    cbv zeta in A, C.
    destruct C as [C|(q & Hq & F & S & G)].
    + right. rewrite C in A |- *. cbn [fst snd] in *.
      split; [reflexivity|exact A].
    + left. exists q. rewrite F. rewrite S in A, G.
      split; [reflexivity|]. split; [exact Hq|]. split; [exact G|exact A].
Qed.
End BestWarpFacts.

(** Of five candidates the first four are warped, and the third gives the
    greatest total. *)
Lemma best_warp_picks_sharpest_of_top_four_witness :
  BestWarp.best_warp BestWarp.ops_five tt = BestWarp.Multiquad 3%Z 3%Z
  /\ exists top rest,
      Permutation (top ++ rest) [1; 2; 3; 4; 5]%Z /\ length top = 4%nat.
Proof.
  split; [vm_compute; reflexivity|].
  destruct (proj2 (@best_warp_picks_sharpest_of_top_four
                     unit Z Z BestWarp.ops_five tt))
    as (top & rest & P & L & _).
  - discriminate.
  - exists top, rest. split; [exact P|exact L].
Defined.

Section CanonFacts.
Import Rows Canon.
Local Open Scope Z_scope.
Context {Image : Type} (cv : cv_ops Image).

(** What OpenCV's rotations do to the size. *)
Hypothesis rotate_90_shape :
  forall i, shape cv (rotate_90 cv i) = (snd (shape cv i), fst (shape cv i)).
Hypothesis rotate_180_shape :
  forall i, shape cv (rotate_180 cv i) = shape cv i.

Lemma canon_body_portrait rgb :
  match canon_body cv rgb with
  | Continue r => portrait cv r
  | Return r => r = rgb /\ portrait cv r
  end.
Proof.
  unfold canon_body, portrait.
  destruct (answer_band cv rgb) as [[[bx by_] bw] bh].
  destruct (shape cv rgb) as [H W] eqn:Es.
  destruct (H <? W) eqn:E1.
  - apply Z.ltb_lt in E1. rewrite rotate_90_shape, Es. simpl. lia.
  - apply Z.ltb_ge in E1.
    destruct (2 * bx + bw <? W).
    + rewrite rotate_180_shape, Es. simpl. lia.
    + rewrite Es. simpl. split; [reflexivity|lia].
Qed.

Lemma canon_loop_portrait n :
  forall rgb, portrait cv rgb -> portrait cv (canon_loop cv n rgb).
Proof.
  induction n as [|n IH]; intros rgb Hp; [exact Hp|].
  simpl. pose proof (canon_body_portrait rgb) as Hb.
  destruct (canon_body cv rgb) as [r|r].
  - apply IH, Hb.
  - apply Hb.
Qed.

(** X22: [canonicalize] always returns an image in portrait format
    (width <= height): a landscape input is turned by 90 degrees in the
    first pass, and the later passes turn by 180 degrees only. *)
Theorem canonicalize_returns_portrait :
  forall (rgb : Image),
    let r := canonicalize cv rgb in
    snd (shape cv r) <= fst (shape cv r).
Proof.
  intros rgb. unfold canonicalize.
  change (canon_loop cv 4 rgb)
    with (match canon_body cv rgb with
          | Continue rgb' => canon_loop cv 3 rgb'
          | Return rgb' => rgb'
          end).
  pose proof (canon_body_portrait rgb) as Hb.
  destruct (canon_body cv rgb) as [r|r].
  - apply canon_loop_portrait, Hb.
  - apply Hb.
Qed.
End CanonFacts.

(** A 1400 x 1000 (landscape) image with the default band. *)
Lemma canonicalize_returns_portrait_witness :
  Canon.canonicalize Canon.ops_sizes ((1000, 1400), (1008, 150, 364, 730))%Z
  = ((1400, 1000), (1008, 150, 364, 730))%Z
  /\ (1000 <= 1400)%Z.
Proof.
  split; [reflexivity|].
  exact (@canonicalize_returns_portrait _ Canon.ops_sizes
           (fun i => eq_refl) (fun i => eq_refl)
           ((1000, 1400), (1008, 150, 364, 730))%Z).
Defined.

Section JsonFacts.
Import Json.

(** Induction on a value, with the items of a list, a tuple or a dict as
    induction hypotheses. *)
Fixpoint pyobj_induction (P : pyobj -> Prop)
         (HNone : P PNone) (HBool : forall b, P (PBool b))
         (HInt : forall n, P (PInt n)) (HFloat : forall x, P (PFloat x))
         (HStr : forall s, P (PStr s))
         (HNpI : forall n, P (NpInteger n)) (HNpF : forall x, P (NpFloating x))
         (HNpB : forall b, P (NpBool b))
         (HArr : forall l, P l -> P (NdArray l))
         (HDict : forall items, Forall (fun kv => P (snd kv)) items ->
                                P (PDict items))
         (HList : forall items, Forall P items -> P (PList items))
         (HTuple : forall items, Forall P items -> P (PTuple items))
         (obj : pyobj) {struct obj} : P obj :=
  let rec := pyobj_induction HNone HBool HInt HFloat HStr HNpI HNpF HNpB
                             HArr HDict HList HTuple in
  match obj with
  | PNone => HNone
  | PBool b => HBool b
  | PInt n => HInt n
  | PFloat x => HFloat x
  | PStr s => HStr s
  | NpInteger n => HNpI n
  | NpFloating x => HNpF x
  | NpBool b => HNpB b
  | NdArray l => HArr l (rec l)
  | PDict items =>
      HDict items
        ((fix go (l : list (string * pyobj)) : Forall (fun kv => P (snd kv)) l :=
            match l with
            | [] => Forall_nil _
            | (k, v) :: t => @Forall_cons _ (fun kv => P (snd kv)) (k, v) t
                                          (rec v) (go t)
            end) items)
  | PList items =>
      HList items
        ((fix go (l : list pyobj) : Forall P l :=
            match l with
            | [] => Forall_nil _
            | x :: t => @Forall_cons _ P x t (rec x) (go t)
            end) items)
  | PTuple items =>
      HTuple items
        ((fix go (l : list pyobj) : Forall P l :=
            match l with
            | [] => Forall_nil _
            | x :: t => @Forall_cons _ P x t (rec x) (go t)
            end) items)
  end.

Lemma json_serialize_native obj :
  native obj = true -> json_serialize obj = obj.
Proof.
  induction obj using pyobj_induction; simpl; intros Hn;
    try reflexivity; try discriminate.
  - f_equal. induction H as [|[k v] t Hv _ IH]; [reflexivity|].
    simpl in Hn. apply andb_true_iff in Hn. destruct Hn as [N1 N2].
    simpl. simpl in Hv. rewrite (Hv N1), (IH N2). reflexivity.
  - f_equal. induction H as [|x t Hx _ IH]; [reflexivity|].
    simpl in Hn. apply andb_true_iff in Hn. destruct Hn as [N1 N2].
    simpl. rewrite (Hx N1), (IH N2). reflexivity.
Qed.

(** X23: [json_serialize] turns a value into one without numpy scalars
    or arrays whenever those occur under lists and dicts only, each
    array listing native values; on such a value a second call changes
    nothing.  A tuple is returned as it is, with whatever it holds: the
    function does not look inside tuples. *)
Theorem json_serialize_removes_numpy :
  (forall obj, convertible obj = true ->
               native (json_serialize obj) = true /\
               json_serialize (json_serialize obj) = json_serialize obj)
  /\ (forall items, json_serialize (PTuple items) = PTuple items)
  /\ (forall obj, native obj = true -> json_serialize obj = obj).
Proof.
  split; [|split; [reflexivity|exact json_serialize_native]].
  assert (N : forall obj, convertible obj = true ->
                          native (json_serialize obj) = true).
  { induction obj using pyobj_induction; simpl; intros Hc;
      try reflexivity; try exact Hc.
    - induction H as [|[k v] t Hv _ IH]; [reflexivity|].
      simpl in Hc. apply andb_true_iff in Hc. destruct Hc as [C1 C2].
      simpl. simpl in Hv. rewrite (Hv C1), (IH C2). reflexivity.
    - induction H as [|x t Hx _ IH]; [reflexivity|].
      simpl in Hc. apply andb_true_iff in Hc. destruct Hc as [C1 C2].
      simpl. rewrite (Hx C1), (IH C2). reflexivity. }
  intros obj Hc. split; [apply N, Hc|].
  apply json_serialize_native, N, Hc.
Qed.
End JsonFacts.

(** A summary with a numpy float, a numpy integer and an array of two
    corner coordinates. *)
Lemma json_serialize_removes_numpy_witness :
  Json.json_serialize
    (Json.PDict
       [ ("alignment_confidence"%string, Json.NpFloating (95 # 100));
         ("total_regions_detected"%string, Json.NpInteger 5);
         ("corner"%string,
           Json.NdArray (Json.PList [Json.PFloat 0; Json.PFloat 1])) ])
  = Json.PDict
      [ ("alignment_confidence"%string, Json.PFloat (95 # 100));
        ("total_regions_detected"%string, Json.PInt 5);
        ("corner"%string, Json.PList [Json.PFloat 0; Json.PFloat 1]) ]
  /\ Json.native
       (Json.json_serialize
          (Json.PDict
             [ ("alignment_confidence"%string, Json.NpFloating (95 # 100));
               ("total_regions_detected"%string, Json.NpInteger 5);
               ("corner"%string,
                 Json.NdArray (Json.PList [Json.PFloat 0; Json.PFloat 1])) ]))
     = true.
Proof.
  split; [reflexivity|].
  apply (proj1 json_serialize_removes_numpy). reflexivity.
Defined.

Section SimilarityFacts.
Import Segment SegmentMore.
Local Open Scope R_scope.

(** X24: [decompose_homography] recovers a similarity exactly: for the
    homography of a rotation by theta (in (-PI, PI]), a uniform scale
    k > 0 and a translation (tx, ty), it reports the rotation theta in
    degrees, both scales k, the translation, and zero shear and zero
    perspective terms, whatever SVD numpy returns for the linear part. *)
Theorem decompose_homography_recovers_similarity :
  forall (svd : svd_fn) (k theta tx0 ty0 : R) U s Vt,
    - PI < theta <= PI -> 0 < k ->
    svd (linear_block (normalize_h (similarity_h k theta tx0 ty0)))
    = Some (U, s, Vt) ->
    is_svd (linear_block (normalize_h (similarity_h k theta tx0 ty0)))
           U s Vt ->
    decompose_homography svd (similarity_h k theta tx0 ty0)
    = {| rotation_deg := degrees theta; scale_x := k; scale_y := k;
         shear := 0; tx := tx0; ty := ty0; h20 := 0; h21 := 0 |}.
Proof.
  intros svd k theta tx0 ty0 U s Vt Ht Hk E Hsvd.
  unfold decompose_homography, rotation_and_scales. rewrite E.
  rewrite normalize_h_unit in Hsvd |- * by reflexivity.
  assert (EA : linear_block (similarity_h k theta tx0 ty0)
               = linear_block (rot_scale_h theta k k)).
  { unfold linear_block, similarity_h, rot_scale_h; simpl. f_equal; ring. }
  rewrite EA in Hsvd |- *.
  destruct (@singular_values_of_rot_scale theta k k U s Vt Hk Hk Hsvd)
    as [S0 S1].
  assert (Rmax k k = k) as Emax by (unfold Rmax; destruct_Rdec; lra).
  assert (Rmin k k = k) as Emin by (unfold Rmin; destruct_Rdec; lra).
  rewrite Emax in S0. rewrite Emin in S1.
  rewrite (@polar_factor_of_rot_scale theta k k U s Vt Hk Hk Hsvd).
  assert (Hdet : Rltb (det2 (rot2 theta)) 0 = false).
  { apply Rltb_false. unfold det2, rot2; simpl.
    pose proof (sin2_cos2 theta) as SC. unfold Rsqr in SC. lra. }
  rewrite Hdet.
  cbn [fst snd rot2 m00 m10 similarity_h a02 a12 a20 a21].
  rewrite atan2_sin_cos by exact Ht. rewrite S0, S1.
  f_equal.
  unfold mmul, transpose, linear_block, rot_scale_h; simpl. ring.
Qed.
End SimilarityFacts.

(** The page at twice the size, moved by (5, 7). *)
Lemma decompose_homography_recovers_similarity_witness :
  Segment.decompose_homography SegmentMore.double_svd
    (SegmentMore.similarity_h 2 0 5 7)
  = {| Segment.rotation_deg := Segment.degrees 0; Segment.scale_x := 2;
       Segment.scale_y := 2; Segment.shear := 0; Segment.tx := 5;
       Segment.ty := 7; Segment.h20 := 0; Segment.h21 := 0 |}.
Proof.
  pose proof PI_RGT_0 as Hpi.
  apply (@decompose_homography_recovers_similarity SegmentMore.double_svd
           2 0 5 7 Segment.eye2 (2, 2)%R Segment.eye2).
  - lra.
  - lra.
  - reflexivity.
  - rewrite normalize_h_unit by reflexivity.
    unfold Segment.is_svd, Segment.orthogonal, Segment.mmul,
      Segment.transpose, Segment.eye2, Segment.diag2, Segment.linear_block,
      SegmentMore.similarity_h; simpl. rewrite cos_0, sin_0.
    repeat split; try lra; f_equal; ring.
Defined.

(** The page with two bands of ink and the cutoff at 26 percent: the
    first row is truncated at row 52, the second keeps its 68 rows. *)
Lemma split_rows_frame_and_gaps_witness :
  Rows.split_rows RowsMore.ops_two_bands tt (0, 0, 0, 0)%Z (26 # 100)
  = [(0, 52, 100, 32); (0, 116, 100, 68)]%Z
  /\ (52 + 32 + 12 < 116)%Z.
Proof.
  split; [vm_compute; reflexivity|].
  destruct (@split_rows_frame_and_gaps unit RowsMore.ops_two_bands tt
              (0, 0, 0, 0)%Z (26 # 100)) as (_ & G & _).
  exact (G 0%nat 1%nat (0, 52, 100, 32)%Z (0, 116, 100, 68)%Z
           ltac:(lia) eq_refl eq_refl).
Defined.

(** The diagonals of the square with corners (0,0) and (2,2) meet in a
    point of both. *)
Lemma intersect_on_both_lines_witness :
  exists p,
    TrainMore.intersect (0, 0)%R (2, 2)%R (0, 2)%R (2, 0)%R = Some p /\
    TrainMore.on_line (0, 0)%R (2, 2)%R p /\
    TrainMore.on_line (0, 2)%R (2, 0)%R p.
Proof.
  destruct (TrainMore.intersect (0, 0)%R (2, 2)%R (0, 2)%R (2, 0)%R)
    as [p|] eqn:E.
  - exists p. split; [reflexivity|].
    exact (proj1 (intersect_on_both_lines (0, 0)%R (2, 2)%R (0, 2)%R (2, 0)%R)
                 p E).
  - exfalso. unfold TrainMore.intersect in E.
    destruct (Segment.Rltb _ _) eqn:T; [|discriminate E].
    apply Rltb_true in T. pose proof micro_pos as Hm.
    assert (M : (1 / 10 ^ 6 < 1)%R).
    { assert (H : (1 < 10 ^ 6)%R) by (apply Rlt_pow_R1; [lra|lia]).
      pose proof (inv_lt_1 H). lra. }
    revert T. unfold Rabs. destruct (Rcase_abs _); lra.
Defined.

(** The segment from (0, 0) to (10, 0) is horizontal; from (10, 0) to
    (0, 0) it is dropped. *)
Lemma lsd_sorting_depends_on_direction_witness :
  TrainMore.classify 0 0 10 0 = TrainMore.Horizontal
  /\ TrainMore.classify 10 0 0 0 = TrainMore.Dropped.
Proof.
  assert (H : TrainMore.classify 0 0 10 0 = TrainMore.Horizontal).
  { apply classify_spec. unfold Segment.atan2.
    destruct (Rlt_dec 0 (10 - 0)) as [_|N]; [|exfalso; lra].
    replace ((0 - 0) / (10 - 0))%R with 0%R by (field; lra).
    rewrite atan_0. unfold Segment.degrees.
    replace (0 * 180 / PI)%R with 0%R
      by (pose proof PI_RGT_0; field; lra).
    rewrite Rabs_R0. lra. }
  split; [exact H|].
  apply (@lsd_sorting_depends_on_direction 0 0 10 0).
  - intros E. injection E as E. lra.
  - exact H.
Defined.

(** The clean 1700 x 2200 scan is taken as it is. *)
Lemma identity_used_iff_size_within_tolerance_witness :
  exists s,
    Segment.process_single_image Segment.ops_blank_scan []
      Segment.sample_labels = Py.Ok s /\
    Segment.used_method (Segment.meta s) = Some Segment.identity_size_match.
Proof.
  destruct (@process_single_image_returns _ Segment.ops_blank_scan []
              Segment.sample_labels tt eq_refl) as [s Es].
  exists s. split; [exact Es|].
  apply (proj1 (@identity_used_iff_size_within_tolerance
                  unit Segment.ops_blank_scan [] Segment.sample_labels s tt
                  Es eq_refl)).
  simpl. lia.
Defined.

(** The photograph in which nothing is detected: confidence 0. *)
Lemma reported_confidence_in_unit_interval_witness :
  exists s,
    Segment.process_single_image Segment.ops_nothing_detected []
      Segment.sample_labels = Py.Ok s /\
    (0 <= Segment.alignment_confidence (Segment.meta s) <= 1)%R.
Proof.
  destruct sample_single_result as (s & Es & _).
  exists s. split; [exact Es|].
  exact (proj1 (@reported_confidence_in_unit_interval
                  unit Segment.ops_nothing_detected)
               [] Segment.sample_labels s Es).
Defined.
